(** * Speech activity detection: the experiment driver

    A shallow embedding of [scripts/speech_activity_detection.py] and the
    properties of its own control flow: the checkpoint scanner, the
    polling loop of validation mode, the objective function and the
    callback of tune mode, and the scoring loop of apply mode.  Train
    mode only hands its configuration to the training framework and is
    not modelled.

    The neural network, the aggregation, the binarizer, the Bayesian
    optimizer and the detection metrics are external collaborators: they
    are the members of the class [Framework], and [Frames] is a small
    instance on which the script can be run.  Floating-point scores are
    idealised as exact rationals ([Qc]); the file system is a finite map
    from paths to the records written. *)

From Stdlib Require Import ZArith QArith Qcanon Qround Lia Ascii String.
From stdpp Require Import base numbers list strings pretty gmap.

(** ** Python outcomes *)

(** The exceptions the script can meet. *)
Inductive exn :=
| NameError (name : string)
| UnboundLocalError (name : string)
| KeyError (key : string)
| AttributeError (name : string)
| IOError (path : string)
| OSError (path : string)
| YAMLError (path : string)
| TypeError (what : string)
| ExternalError (what : string).

(** A call returns a value, raises, or is still running when the fuel of
    the model is spent ([Running]: the Python loop has not stopped). *)
Inductive result (A : Type) :=
| Ok (a : A)
| Raise (e : exn)
| Running.
Arguments Ok {A} a.
Arguments Raise {A} e.
Arguments Running {A}.

Definition is_Ok {A} (r : result A) : bool :=
  match r with
  | Ok _ => true
  | _ => false
  end.

(** ** Paths *)

(** [str.rjust]-like padding used by the format specification [04d]. *)
Fixpoint zeros (n : nat) : string :=
  match n with
  | O => ""
  | S n => String "0"%char (zeros n)
  end.

(** ['{:04d}'.format(n)] for a non-negative integer. *)
Definition fmt04d (n : nat) : string :=
  let digits := pretty n in
  zeros (4 - String.length digits) +:+ digits.

(** [WEIGHTS_H5 = '{train_dir}/weights/{epoch:04d}.h5'] *)
Definition WEIGHTS_H5 (train_dir : string) (epoch : nat) : string :=
  train_dir +:+ "/weights/" +:+ fmt04d epoch +:+ ".h5".

(** Reading a decimal prefix back: the inverse of [fmt04d], used to show
    that distinct epochs have distinct weight files. *)
Definition digit_of (c : ascii) : option N :=
  (if decide (c = "0") then Some 0 else
   if decide (c = "1") then Some 1 else
   if decide (c = "2") then Some 2 else
   if decide (c = "3") then Some 3 else
   if decide (c = "4") then Some 4 else
   if decide (c = "5") then Some 5 else
   if decide (c = "6") then Some 6 else
   if decide (c = "7") then Some 7 else
   if decide (c = "8") then Some 8 else
   if decide (c = "9") then Some 9 else None)%char%N.

Fixpoint read_dec (acc : N) (s : string) : N :=
  match s with
  | "" => acc
  | String c s' =>
      match digit_of c with
      | Some d => read_dec (acc * 10 + d) s'
      | None => acc
      end
  end.

(** ** The epoch scanner (tune, lines 371-376)

    [nb_epoch = 0; while True: if not isfile(WEIGHTS_H5(nb_epoch)): break;
    nb_epoch += 1].  [fuel] bounds the number of iterations of the
    [while True]; [None] means the loop is still running. *)
Fixpoint scan_epochs (isfile : string → bool) (train_dir : string)
    (fuel : nat) (nb_epoch : nat) : option nat :=
  match fuel with
  | O => None
  | S fuel =>
      let weights_h5 := WEIGHTS_H5 train_dir nb_epoch in
      if negb (isfile weights_h5) then Some nb_epoch
      else scan_epochs isfile train_dir fuel (nb_epoch + 1)
  end.

(** [os.path.isfile] over a set of existing files. *)
Definition isfile_in (files : gset string) (path : string) : bool :=
  bool_decide (path ∈ files).

(** ** Values *)

(** A parsed YAML document ([yaml.load]). *)
#[local] Unset Elimination Schemes.
Inductive yaml :=
| YNull
| YBool (b : bool)
| YInt (z : Z)
| YFloat (q : Qc)
| YStr (s : string)
| YList (l : list yaml)
| YDict (d : gmap string yaml).
#[local] Set Elimination Schemes.

(** A Python float that may be [nan] (the mean of an empty list). *)
Inductive pyfloat :=
| Float (q : Qc)
| NaN.

(** A point of the search space: [(epoch, onset, offset)]. *)
Definition point : Type := Z * Qc * Qc.

(** [skopt]'s [OptimizeResult], as far as the script reads it: the best
    point so far [x], the objective values of the trials so far, the
    points tried, and the keys of [res['specs']['args']]. *)
Record OptimizeResult := {
  x : point;
  func_vals : list Qc;
  x_iters : list point;
  specs_args : gset string;
}.

(** The types of the external framework. *)
Class Domain := {
  item : Type;               (* a file of a protocol subset (a dict) *)
  reference : Type;          (* reference annotation *)
  timeline : Type;           (* annotated region *)
  soft : Type;               (* aggregated scores of one file *)
  hard : Type;               (* binarized scores *)
  figure : Type;             (* a matplotlib figure *)
  feature_extraction : Type;
  sequence_labeling : Type;  (* a network with its weights loaded *)
}.

(** [SequenceLabelingAggregation(sequence_labeling, feature_extraction,
    duration=..., step=...)] and its attribute [cache_preprocessed_]. *)
Record SequenceLabelingAggregation `{Domain} := {
  agg_sequence_labeling : sequence_labeling;
  agg_feature_extraction : feature_extraction;
  agg_duration : yaml;
  agg_step : yaml;
  cache_preprocessed_ : option bool;
}.

(** A metric of [pyannote.metrics]: how the components of one file are
    computed and turned into a value is the library's; an instance of the
    metric accumulates the components of the files it is called on. *)
Record Metric `{Domain} := {
  components : Type;
  init_components : components;
  add_components : components → components → components;
  compute_components : reference → hard → timeline → components;
  compute_metric : components → Qc;
}.

(** An evaluation protocol: whether it is a [SpeakerDiarizationProtocol],
    and the files of each of its subsets ([getattr(protocol, subset)()];
    [None] when the protocol has no such attribute). *)
Record Protocol `{Domain} := {
  is_SpeakerDiarizationProtocol : bool;
  subset_files : string → option (list item);
}.

(** What a file on disk holds: the sequence of records written to it. *)
Inductive data `{Domain} :=
| DYaml (y : yaml)
| DPickle (s : soft)
| DJson (h : hard)
| DEval (uri : string) (precision recall : Qc) (f_measure : pyfloat)
| DDer (epoch : nat) (now : string) (der : Qc)
| DFigure (f : figure)
| DResult (res : OptimizeResult).

(** Effects that are not file contents. *)
Inductive event :=
| ESleep (seconds : Z)
| ESeed (seed : Z)
| EFromDisk (architecture_yml weights_h5 : string).

Record world `{Domain} := {
  w_files : gmap string (list data);
  w_dirs : gset string;
  w_log : list event;
}.

(** ** The monad of the script: state and exceptions *)

Section monad.
Context `{Domain}.

Definition M (A : Type) : Type := world → result A * world.

#[global] Instance M_ret : MRet M := λ A a w, (Ok a, w).

#[global] Instance M_bind : MBind M := λ A B f m w,
  match m w with
  | (Ok a, w') => f a w'
  | (Raise e, w') => (Raise e, w')
  | (Running, w') => (Running, w')
  end.

Definition raise {A} (e : exn) : M A := λ w, (Raise e, w).

Definition running {A} : M A := λ w, (Running, w).

Definition lift {A} (r : result A) : M A := λ w, (r, w).

(** [try: m  except KeyError: handler] *)
Definition except_KeyError {A} (m : M A) (handler : M A) : M A := λ w,
  match m w with
  | (Raise (KeyError _), w') => handler w'
  | other => other
  end.

(** [try: m  except Exception: pass] *)
Definition except_Exception_pass (m : M unit) : M unit := λ w,
  match m w with
  | (Raise _, w') => (Ok tt, w')
  | other => other
  end.

Definition log_event (e : event) : M unit := λ w,
  (Ok tt, {| w_files := w_files w; w_dirs := w_dirs w;
             w_log := w_log w ++ [e] |}).

Definition set_file (path : string) (content : list data) : M unit := λ w,
  (Ok tt, {| w_files := <[path := content]> (w_files w); w_dirs := w_dirs w;
             w_log := w_log w |}).

Definition file_content (w : world) (path : string) : list data :=
  default [] (w_files w !! path).

(** [open(path, 'w')]: the file is created or truncated. *)
Definition open_w (path : string) : M unit := set_file path [].

(** [fp.write(record)] through a handle on [path]: the record goes after
    what the file holds. *)
Definition fp_write (path : string) (record : data) : M unit := λ w,
  set_file path (file_content w path ++ [record]) w.

(** [with open(path, 'w') as fp: dump(record, fp)] *)
Definition write_file (path : string) (record : data) : M unit :=
  open_w path;; fp_write path record.

(** [with open(path, 'a') as fp: fp.write(record)] *)
Definition append_file (path : string) (record : data) : M unit :=
  fp_write path record.

(** [with open(path, 'r') as fp: yaml.load(fp)] *)
Definition load_yaml (path : string) : M yaml := λ w,
  match w_files w !! path with
  | None => (Raise (IOError path), w)
  | Some [DYaml y] => (Ok y, w)
  | Some _ => (Raise (YAMLError path), w)
  end.

(** [os.makedirs(path)]: fails when the leaf exists. *)
Definition os_makedirs (path : string) : M unit := λ w,
  if bool_decide (path ∈ w_dirs w ∨ is_Some (w_files w !! path))
  then (Raise (OSError path), w)
  else (Ok tt, {| w_files := w_files w; w_dirs := {[path]} ∪ w_dirs w;
                  w_log := w_log w |}).

(** [mkdir_p(path)]: [os.makedirs] that passes when the path exists. *)
Definition mkdir_p (path : string) : M unit := λ w,
  if bool_decide (is_Some (w_files w !! path))
  then (Ok tt, w)
  else (Ok tt, {| w_files := w_files w; w_dirs := {[path]} ∪ w_dirs w;
                  w_log := w_log w |}).

(** [time.sleep(seconds)] *)
Definition time_sleep (seconds : Z) : M unit := log_event (ESleep seconds).

(** [d[key]] and [d.get(key, default)] on a YAML value. *)
Definition subscript (d : yaml) (key : string) : M yaml :=
  match d with
  | YDict kvs =>
      match kvs !! key with
      | Some v => mret v
      | None => raise (KeyError key)
      end
  | _ => raise (TypeError key)
  end.

Definition dict_get (d : yaml) (key : string) (dflt : yaml) : M yaml :=
  match d with
  | YDict kvs => mret (default dflt (kvs !! key))
  | _ => raise (AttributeError "get")
  end.

Definition as_str (y : yaml) : M string :=
  match y with YStr s => mret s | _ => raise (TypeError "str") end.

Definition as_float (y : yaml) : M Qc :=
  match y with
  | YFloat q => mret q
  | YInt z => mret (Qc_of_Z z)
  | _ => raise (TypeError "float")
  end.

(** [m] takes every world to one related to it by [R]: how frame
    properties of a computation are stated. *)
Definition preserves {A} (R : relation world) (m : M A) : Prop :=
  ∀ w, R w (m w).2.

(** [m] neither reads nor writes the world. *)
Definition pure {A} (m : M A) : Prop := ∃ r, ∀ w, m w = (r, w).

(** Relations between the world before and after. *)
Definition same_files : relation world :=
  λ w w', w_files w' = w_files w.

Definition untouched (path : string) : relation world :=
  λ w w', w_files w' !! path = w_files w !! path.

Definition grows (path : string) : relation world :=
  λ w w', file_content w path `prefix_of` file_content w' path.

(** A relation that holds between worlds with the same files. *)
Class FileRelation (R : relation world) : Prop :=
  file_relation : ∀ w w', w_files w' = w_files w → R w w'.

End monad.

(** ** The external framework *)

Class Framework `{Domain} := {
  (* pyannote.database *)
  get_unique_identifier : item → string;
  item_annotation : item → option reference;   (* item['annotation'] *)
  item_annotated : item → option timeline;     (* item['annotated'] *)
  get_annotated : item → timeline;
  (* pyannote.audio: getattr(features, name), applied to its parameters *)
  features_getattr : string → option (yaml → feature_extraction);
  from_disk : string → string → result sequence_labeling;
  aggregation_apply : SequenceLabelingAggregation → item → soft;
  (* Binarize(onset=..., offset=...).apply(soft, dimension=1) *)
  binarize_apply : Qc → Qc → soft → hard;
  (* pyannote.metrics *)
  DetectionErrorRate : Qc → Metric;            (* by collar *)
  DetectionPrecision : Metric;
  DetectionRecall : Metric;
  f_measure : Qc → Qc → Qc → Qc;               (* precision, recall, beta *)
  (* skopt.plots and matplotlib *)
  plot_convergence : OptimizeResult → result figure;
  plot_evaluations : OptimizeResult → result figure;
  plot_objective : OptimizeResult → result figure;
  plot_ders : list Qc → nat → Qc → nat → string → figure;
}.

(** ** Helpers of the standard library and numpy *)

Definition Qcabs (q : Qc) : Qc := if decide (q < 0)%Qc then (- q)%Qc else q.

Definition Qc_of_nat (n : nat) : Qc := Qc_of_Z (Z.of_nat n).

Definition Qcsum (l : list Qc) : Qc := foldr Qcplus 0%Qc l.

(** [np.mean]: [nan] on an empty list. *)
Definition np_mean (l : list Qc) : pyfloat :=
  match l with
  | [] => NaN
  | _ => Float (Qcsum l / Qc_of_nat (length l))%Qc
  end.

(** [np.min] and [np.argmin] (the first index of the minimum) of a list
    given by its head and tail. *)
Fixpoint np_min (q : Qc) (l : list Qc) : Qc :=
  match l with
  | [] => q
  | q' :: l' => np_min (if decide (q' < q)%Qc then q' else q) l'
  end.

Fixpoint np_argmin_from (i best : nat) (q : Qc) (l : list Qc) : nat :=
  match l with
  | [] => best
  | q' :: l' =>
      if decide (q' < q)%Qc then np_argmin_from (S i) (S i) q' l'
      else np_argmin_from (S i) best q l'
  end.

Definition np_argmin (q : Qc) (l : list Qc) : nat := np_argmin_from 0 0 q l.

(** ['Precomputed' in name] *)
Fixpoint str_contains (needle s : string) : bool :=
  String.prefix needle s ||
  match s with
  | "" => false
  | String _ s' => str_contains needle s'
  end.

(** [os.path.dirname] (posixpath): the part up to the last slash, with
    its trailing slashes removed unless it consists of slashes only. *)
Fixpoint lstrip_slashes (s : string) : string :=
  match s with
  | String "/" s' => lstrip_slashes s'
  | _ => s
  end.

Fixpoint from_first_slash (s : string) : string :=
  match s with
  | "" => ""
  | String c s' => if decide (c = "/"%char) then s else from_first_slash s'
  end.

Definition dirname (p : string) : string :=
  let head_rev := from_first_slash (String.rev p) in
  let stripped := lstrip_slashes head_rev in
  if decide (stripped = "") then String.rev head_rev else String.rev stripped.

(** ** Control flow *)

(** How one iteration of a loop ends: at its end or a [continue], or at a
    [break]. *)
Inductive ctl (S : Type) :=
| Continue (s : S)
| Break (s : S).
Arguments Continue {S} s.
Arguments Break {S} s.

(** Default collar of [DetectionErrorRate()]. *)
Definition default_collar : Qc := 0%Qc.

(** The module-level names bound when [test] is called in apply mode:
    the imports, the module's constant and functions, and the variables
    of the [__main__] block of that mode. *)
Definition module_globals : list string :=
  [ "time"; "yaml"; "pickle"; "os"; "datetime"; "functools"; "np"; "docopt";
    "matplotlib"; "plt"; "pyannote"; "SequenceLabeling";
    "SpeechActivityDetectionBatchGenerator"; "SequenceLabelingAggregation";
    "Binarize"; "get_database"; "FileFinder"; "get_unique_identifier";
    "get_annotated"; "SpeakerDiarizationProtocol"; "mkdir_p"; "SSMORMS3";
    "skopt"; "DetectionErrorRate"; "DetectionRecall"; "DetectionPrecision";
    "f_measure"; "WEIGHTS_H5"; "train"; "get_aggregation";
    "speech_activity_detection_xp"; "validate"; "tune"; "test";
    "arguments"; "db_yml"; "preprocessors"; "protocol"; "database_name";
    "task_name"; "protocol_name"; "database"; "subset"; "tune_dir"; "beta";
    "apply_dir" ].

(** What validation mode does not control: whether a weights file exists
    when the loop looks for it for the [k]-th time (training runs in
    another process), and the time of day then. *)
Record Environment := {
  isfile_at : nat → string → bool;
  now_at : nat → string;
}.

(** A dimension of the search space ([skopt.space]). *)
Inductive Dimension :=
| Integer (low high : Z)
| Real (low high : Qc) (prior : string).

(** * The script *)

Section script.
Context `{Framework}.

(** ** Python and library calls *)

(** [metric(reference, hypothesis, uem=uem)] on an instance whose
    accumulated components are [acc], and [abs(metric)]. *)
Definition metric_call (m : Metric) (acc : components m)
    (r : reference) (h : hard) (uem : timeline) : Qc * components m :=
  let detail := compute_components m r h uem in
  (compute_metric m detail, add_components m acc detail).

Definition metric_abs (m : Metric) (acc : components m) : Qc :=
  compute_metric m acc.

(** [getattr(protocol, subset)()] *)
Definition getattr_subset (protocol : Protocol) (subset : string) : M (list item) :=
  match subset_files protocol subset with
  | Some files => mret files
  | None => raise (AttributeError subset)
  end.

Definition subscript_annotation (file : item) : M reference :=
  match item_annotation file with
  | Some r => mret r
  | None => raise (KeyError "annotation")
  end.

Definition subscript_annotated (file : item) : M timeline :=
  match item_annotated file with
  | Some t => mret t
  | None => raise (KeyError "annotated")
  end.

(** Reading a local variable that may not have been assigned. *)
Definition load_local {A} (name : string) (v : option A) : M A :=
  match v with
  | Some a => mret a
  | None => raise (UnboundLocalError name)
  end.

(** A Python object, as far as [format] with [04d] tells them apart. *)
Inductive pyobj :=
| PyInt (z : Z)
| PyOther.

(** Reading a name that is not local to the function: it is looked up in
    the module ([module_globals] holds no integer). *)
Definition load_global (name : string) : M pyobj :=
  if bool_decide (name ∈ module_globals) then mret PyOther
  else raise (NameError name).

(** [WEIGHTS_H5.format(train_dir=train_dir, epoch=epoch)] on an object. *)
Definition format_WEIGHTS_H5 (train_dir : string) (epoch : pyobj) : M string :=
  match epoch with
  | PyInt z =>
      if decide (0 ≤ z)%Z then mret (WEIGHTS_H5 train_dir (Z.to_nat z))
      else mret (train_dir +:+ "/weights/-" +:+
                 zeros (3 - String.length (pretty (Z.to_nat (- z)))) +:+
                 pretty (Z.to_nat (- z)) +:+ ".h5")
  | PyOther => raise (TypeError "04d")
  end.

(** [SequenceLabeling.from_disk(architecture_yml, weights_h5)] *)
Definition SequenceLabeling_from_disk (architecture_yml weights_h5 : string)
    : M sequence_labeling :=
  log_event (EFromDisk architecture_yml weights_h5);;
  lift (from_disk architecture_yml weights_h5).

(** [plt.savefig(path, dpi=150)] *)
Definition savefig (path : string) (fig : figure) : M unit :=
  write_file path (DFigure fig).

(** [for a in l: body] over the local variables [s]. *)
Fixpoint for_each {A S} (l : list A) (body : A → S → M S) (s : S) : M S :=
  match l with
  | [] => mret s
  | a :: l' => s' ← body a s; for_each l' body s'
  end.

(** The first [n] iterations of [while True: body]. *)
Fixpoint loop_prefix {S} (n : nat) (body : S → M (ctl S)) (s : S) : M (ctl S) :=
  match n with
  | O => mret (Continue s)
  | S n =>
      c ← body s;
      match c with
      | Continue s' => loop_prefix n body s'
      | Break s' => mret (Break s')
      end
  end.

(** [while True: body], run for at most [fuel] iterations: the loop ends
    at a [break]; it is still [Running] when the fuel is spent. *)
Definition while_true {S} (fuel : nat) (body : S → M (ctl S)) (s : S) : M S :=
  c ← loop_prefix fuel body s;
  match c with
  | Continue _ => running
  | Break s' => mret s'
  end.

(** The configuration block that [validate], [tune] and [test] repeat
    (lines 283-299, 378-393, 497-513): [config.yml] two directories above
    [train_dir], the feature extraction it names, built with its
    parameters, and the duration and step of the sequences. *)
Definition load_configuration (train_dir : string)
    : M (string * feature_extraction * yaml * yaml) :=
  let config_dir := dirname (dirname train_dir) in
  let config_yml := config_dir +:+ "/config.yml" in
  config ← load_yaml config_yml;
  (* -- FEATURE EXTRACTION -- *)
  fe ← subscript config "feature_extraction";
  name ← subscript fe "name";
  feature_extraction_name ← as_str name;
  FeatureExtraction ←
    match features_getattr feature_extraction_name with
    | Some c => mret c
    | None => raise (AttributeError feature_extraction_name)
    end;
  fe ← subscript config "feature_extraction";
  params ← dict_get fe "params" (YDict ∅);
  let feature_extraction := FeatureExtraction params in
  (* -- SEQUENCE GENERATOR -- *)
  sequences ← subscript config "sequences";
  duration ← subscript sequences "duration";
  sequences ← subscript config "sequences";
  step ← subscript sequences "step";
  mret (feature_extraction_name, feature_extraction, duration, step).

(** ** [get_aggregation] (lines 239-252) *)
Definition get_aggregation (epoch : nat) (train_dir : string)
    (feature_extraction : feature_extraction) (duration step : yaml)
    : M SequenceLabelingAggregation :=
  let architecture_yml := train_dir +:+ "/architecture.yml" in
  let weights_h5 := WEIGHTS_H5 train_dir epoch in
  sequence_labeling ← SequenceLabeling_from_disk architecture_yml weights_h5;
  mret {| agg_sequence_labeling := sequence_labeling;
          agg_feature_extraction := feature_extraction;
          agg_duration := duration; agg_step := step;
          cache_preprocessed_ := None |}.

(** ** [speech_activity_detection_xp] (lines 255-277) *)
Definition speech_activity_detection_xp (aggregation : SequenceLabelingAggregation)
    (protocol : Protocol) (subset : string) (onset offset collar : Qc)
    : M (Qc * Qc * Qc) :=
  let detection_error_rate := DetectionErrorRate collar in
  files ← getattr_subset protocol subset;
  predictions ←
    for_each files (λ item (predictions : gmap string soft),
      let uri := get_unique_identifier item in
      let prediction := aggregation_apply aggregation item in
      mret (<[uri := prediction]> predictions)) ∅;
  files ← getattr_subset protocol subset;
  '(_, der) ←
    for_each files (λ item '(acc, _),
      let uri := get_unique_identifier item in
      reference ← subscript_annotation item;
      let uem := get_annotated item in
      prediction ←
        match predictions !! uri with
        | Some p => mret p
        | None => raise (KeyError uri)
        end;
      let hypothesis := binarize_apply onset offset prediction in
      let '(der, acc) :=
        metric_call detection_error_rate acc reference hypothesis uem in
      mret (acc, Some der))
    (init_components detection_error_rate, None);
  der ← load_local "der" der;
  mret (Qcabs der, onset, offset).

(** ** [validate] (lines 279-361) *)

(** The variables of the loop; [v_polls] counts the iterations begun and
    indexes the environment. *)
Record validate_locals := {
  v_epoch : nat;
  v_der : option Qc;
  v_onset : option Qc;
  v_offset : option Qc;
  v_ders : list Qc;
  v_polls : nat;
}.

(** The variables when the loop is entered: [epoch = 0], [ders = []]. *)
Definition validate_start : validate_locals :=
  {| v_epoch := 0; v_der := None; v_onset := None; v_offset := None;
     v_ders := []; v_polls := 0 |}.

Definition der_txt (validation_dir subset : string) : string :=
  validation_dir +:+ "/" +:+ subset +:+ ".der.txt".

Definition der_png (validation_dir subset : string) : string :=
  validation_dir +:+ "/" +:+ subset +:+ ".der.png".

(** One iteration of the [while True] of [validate] (lines 311-361). *)
Definition validate_iteration (env : Environment) (protocol : Protocol)
    (train_dir validation_dir subset feature_extraction_name : string)
    (feature_extraction : feature_extraction) (duration step : yaml)
    (l : validate_locals) : M (ctl validate_locals) :=
  let epoch := v_epoch l in
  (* wait until weight file is available *)
  let weights_h5 := WEIGHTS_H5 train_dir epoch in
  if negb (isfile_at env (v_polls l) weights_h5) then
    time_sleep 60;;
    mret (Continue {| v_epoch := epoch; v_der := v_der l; v_onset := v_onset l;
                      v_offset := v_offset l; v_ders := v_ders l;
                      v_polls := S (v_polls l) |})
  else
    let now := now_at env (v_polls l) in
    aggregation ← get_aggregation epoch train_dir feature_extraction duration step;
    let aggregation :=
      {| agg_sequence_labeling := agg_sequence_labeling aggregation;
         agg_feature_extraction := agg_feature_extraction aggregation;
         agg_duration := agg_duration aggregation;
         agg_step := agg_step aggregation;
         cache_preprocessed_ :=
           Some (negb (str_contains "Precomputed" feature_extraction_name)) |} in
    '(der, onset, offset) ←
      (if is_SpeakerDiarizationProtocol protocol then
         '(der, onset, offset) ←
           speech_activity_detection_xp aggregation protocol subset
             (Q2Qc (1 # 2)) (Q2Qc (1 # 2)) default_collar;
         mret (Some der, Some onset, Some offset)
       else mret (v_der l, v_onset l, v_offset l));
    der_value ← load_local "der" der;
    fp_write (der_txt validation_dir subset) (DDer epoch now der_value);;
    let ders := v_ders l ++ [der_value] in
    let best_epoch := match ders with [] => 0 | q :: qs => np_argmin q qs end in
    let best_value := match ders with [] => der_value | q :: qs => np_min q qs end in
    savefig (der_png validation_dir subset)
            (plot_ders ders best_epoch best_value epoch subset);;
    (* skip to next epoch *)
    mret (Continue {| v_epoch := epoch + 1; v_der := der; v_onset := onset;
                      v_offset := offset; v_ders := ders;
                      v_polls := S (v_polls l) |}).

Definition validate (env : Environment) (protocol : Protocol)
    (train_dir validation_dir subset : string) (fuel : nat) : M unit :=
  mkdir_p validation_dir;;
  '(feature_extraction_name, feature_extraction, duration, step) ←
    load_configuration train_dir;
  (* detection error rates *)
  let path := der_txt validation_dir subset in
  open_w path;;
  _ ← while_true fuel
        (validate_iteration env protocol train_dir validation_dir subset
           feature_extraction_name feature_extraction duration step)
        validate_start;
  mret tt.

(** ** [tune] (lines 364-489) *)

(** The prediction cache of the tuner: by epoch, then by uri. *)
Abbreviation predictions_cache := (gmap nat (gmap string soft)).

(** One file of the development subset in [objective_function]
    (lines 416-431): the variables are the cache and the accumulated
    components of [error]. *)
Definition objective_file (epoch : nat) (onset offset : Qc)
    (aggregation : SequenceLabelingAggregation) (dev_file : item)
    (s : predictions_cache * components (DetectionErrorRate default_collar))
    : M (predictions_cache * components (DetectionErrorRate default_collar)) :=
  let '(predictions, error) := s in
  let uri := get_unique_identifier dev_file in
  reference ← subscript_annotation dev_file;
  let uem := get_annotated dev_file in
  by_uri ←
    match predictions !! epoch with
    | Some by_uri => mret by_uri
    | None => raise (KeyError (pretty epoch))
    end;
  let '(prediction, predictions) :=
    match by_uri !! uri with
    | Some prediction => (prediction, predictions)
    | None =>
        let prediction := aggregation_apply aggregation dev_file in
        (prediction, <[epoch := <[uri := prediction]> by_uri]> predictions)
    end in
  let hypothesis := binarize_apply onset offset prediction in
  let '(_, error) :=
    metric_call (DetectionErrorRate default_collar) error reference hypothesis uem in
  mret (predictions, error).

(** [objective_function] (lines 397-433), a closure over the variables of
    [tune]; the dictionary [predictions] it updates is passed in and out. *)
Definition objective_function (protocol : Protocol)
    (train_dir subset architecture_yml : string)
    (feature_extraction : feature_extraction) (duration step : yaml)
    (parameters : nat * Qc * Qc) (predictions : predictions_cache)
    : M (Qc * predictions_cache) :=
  let '(epoch, onset, offset) := parameters in
  let weights_h5 := WEIGHTS_H5 train_dir epoch in
  sequence_labeling ← SequenceLabeling_from_disk architecture_yml weights_h5;
  let aggregation :=
    {| agg_sequence_labeling := sequence_labeling;
       agg_feature_extraction := feature_extraction;
       agg_duration := duration; agg_step := step;
       cache_preprocessed_ := None |} in
  let predictions :=
    match predictions !! epoch with
    | Some _ => predictions
    | None => <[epoch := ∅]> predictions
    end in
  (* no need to use collar during tuning *)
  let error := init_components (DetectionErrorRate default_collar) in
  dev_files ← getattr_subset protocol subset;
  '(predictions, error) ←
    for_each dev_files (objective_file epoch onset offset aggregation)
             (predictions, error);
  mret (Qcabs (metric_abs (DetectionErrorRate default_collar) error), predictions).

(** The prediction the cache holds for a file of an epoch. *)
Definition cached (predictions : predictions_cache) (epoch : nat) (uri : string)
    : option soft :=
  predictions !! epoch ≫= λ by_uri, by_uri !! uri.

(** The files of the tuning directory. *)
Definition tune_yml (tune_dir : string) : string := tune_dir +:+ "/tune.yml".
Definition convergence_png (tune_dir : string) : string :=
  tune_dir +:+ "/convergence.png".
Definition evaluation_png (tune_dir : string) : string :=
  tune_dir +:+ "/evaluation.png".
Definition objective_png (tune_dir : string) : string :=
  tune_dir +:+ "/objective.png".
Definition tune_gz (tune_dir : string) : string := tune_dir +:+ "/tune.gz".

(** The dictionary [params] that [callback] dumps to [tune.yml]. *)
Definition tune_params (nb_epoch : nat) (best : point) : yaml :=
  let '(epoch, onset, offset) := best in
  YDict (<["status" := YDict {["nb_epoch" := YInt (Z.of_nat nb_epoch)]}]>
        (<["epoch" := YInt epoch]>
        (<["onset" := YFloat onset]>
        (<["offset" := YFloat offset]> ∅)))).

(** [del d[key]] on the keys of a dictionary. *)
Definition del_key (key : string) (keys : gset string) : M (gset string) :=
  if bool_decide (key ∈ keys) then mret (keys ∖ {[key]})
  else raise (KeyError key).

(** What [callback] does past the convergence plot (lines 453-476). *)
Definition callback_tail (tune_dir : string) (res : OptimizeResult) : M unit :=
  let n_trials := length (func_vals res) in
  if bool_decide (0 < n_trials mod 10) then (mret tt : M unit)
  else
    (* plot evaluations *)
    fig ← lift (plot_evaluations res);
    savefig (evaluation_png tune_dir) fig;;
    except_Exception_pass
      ((* plot objective function *)
       fig ← lift (plot_objective res);
       savefig (objective_png tune_dir) fig);;
    (* save results so far *)
    args ← del_key "func" (specs_args res);
    args ← del_key "callback" args;
    write_file (tune_gz tune_dir)
      (DResult {| x := x res; func_vals := func_vals res;
                  x_iters := x_iters res; specs_args := args |}).

(** [callback] (lines 435-476), a closure over [tune_dir] and [nb_epoch]. *)
Definition callback (tune_dir : string) (nb_epoch : nat) (res : OptimizeResult)
    : M unit :=
  (* save best parameters so far *)
  let params := tune_params nb_epoch (x res) in
  write_file (tune_yml tune_dir) (DYaml params);;
  (* plot convergence *)
  fig ← lift (plot_convergence res);
  savefig (convergence_png tune_dir) fig;;
  callback_tail tune_dir res.

(** The call [skopt.gp_minimize(...)] that ends [tune]. *)
Record gp_minimize_call := {
  gp_func : nat * Qc * Qc → predictions_cache → M (Qc * predictions_cache);
  gp_dimensions : list Dimension;
  gp_callback : OptimizeResult → M unit;
  n_calls : nat;
  n_random_starts : nat;
  gp_x0 : point;
  random_state : Z;
  verbose : bool;
}.

(** [os.path.isfile] on the files of the model. *)
Definition os_path_isfile (w : world) : string → bool :=
  isfile_in (dom (w_files w)).

(** [tune], up to the call of the optimizer, which it returns. *)
Definition tune (protocol : Protocol) (train_dir tune_dir subset : string)
    (fuel : nat) : M gp_minimize_call :=
  log_event (ESeed 1337);;
  os_makedirs tune_dir;;
  let architecture_yml := train_dir +:+ "/architecture.yml" in
  nb_epoch ← (λ w,
    match scan_epochs (os_path_isfile w) train_dir fuel 0 with
    | Some nb_epoch => (Ok nb_epoch, w)
    | None => (Running, w)
    end);
  '(feature_extraction_name, feature_extraction, duration, step) ←
    load_configuration train_dir;
  let epoch := Integer 0 (Z.of_nat nb_epoch - 1) in
  let onset := Real 0 1 "uniform" in
  let offset := Real 0 1 "uniform" in
  mret {| gp_func :=
            objective_function protocol train_dir subset architecture_yml
              feature_extraction duration step;
          gp_dimensions := [epoch; onset; offset];
          gp_callback := callback tune_dir nb_epoch;
          n_calls := 1000; n_random_starts := 10;
          gp_x0 := (Z.of_nat nb_epoch - 1, Q2Qc (1 # 2), Q2Qc (1 # 2))%Z;
          random_state := 1337; verbose := true |}.

(** ** [test] (lines 492-580) *)

Definition HARD_JSON (apply_dir uri : string) : string :=
  apply_dir +:+ "/" +:+ uri +:+ ".hard.json".
Definition SOFT_PKL (apply_dir uri : string) : string :=
  apply_dir +:+ "/" +:+ uri +:+ ".soft.pkl".
Definition eval_txt (apply_dir : string) : string := apply_dir +:+ "/eval.txt".

(** The variables of the scoring loop: the accumulated components of
    [precision] and [recall], and the list [fscore]. *)
Record scoring_locals := {
  s_precision : components DetectionPrecision;
  s_recall : components DetectionRecall;
  s_fscore : list Qc;
}.

(** One test file (lines 543-572). *)
Definition score_file (aggregation : SequenceLabelingAggregation)
    (onset offset : Qc) (apply_dir : string) (beta : Qc)
    (test_file : item) (s : scoring_locals) : M scoring_locals :=
  let soft := aggregation_apply aggregation test_file in
  let hard := binarize_apply onset offset soft in
  let uri := get_unique_identifier test_file in
  let path := SOFT_PKL apply_dir uri in
  mkdir_p (dirname path);;
  write_file path (DPickle soft);;
  let path := HARD_JSON apply_dir uri in
  mkdir_p (dirname path);;
  write_file path (DJson hard);;
  annotations ←
    except_KeyError
      (reference ← subscript_annotation test_file;
       uem ← subscript_annotated test_file;
       mret (Some (reference, uem)))
      (mret None);
  match annotations with
  | None => mret s (* continue *)
  | Some (reference, uem) =>
      let '(p, precision) :=
        metric_call DetectionPrecision (s_precision s) reference hard uem in
      let '(r, recall) :=
        metric_call DetectionRecall (s_recall s) reference hard uem in
      let f := f_measure p r beta in
      let fscore := s_fscore s ++ [f] in
      append_file (eval_txt apply_dir) (DEval uri p r (Float f));;
      mret {| s_precision := precision; s_recall := recall; s_fscore := fscore |}
  end.

(** The scoring part of [test] (lines 532-580). *)
Definition test_scoring (aggregation : SequenceLabelingAggregation)
    (onset offset : Qc) (protocol : Protocol) (apply_dir subset : string)
    (beta : Qc) : M unit :=
  test_files ← getattr_subset protocol subset;
  s ← for_each test_files (score_file aggregation onset offset apply_dir beta)
        {| s_precision := init_components DetectionPrecision;
           s_recall := init_components DetectionRecall;
           s_fscore := [] |};
  let p := metric_abs DetectionPrecision (s_precision s) in
  let r := metric_abs DetectionRecall (s_recall s) in
  let f := np_mean (s_fscore s) in
  append_file (eval_txt apply_dir) (DEval "ALL" p r f).

(** *** What the scoring is expected to write

    The quantities the properties of the scoring loop are stated with:
    they follow the words of the specification, not the loop. *)

(** The reference and annotated region of a file that has both. *)
Definition scored (file : item) : option (reference * timeline) :=
  match item_annotation file, item_annotated file with
  | Some r, Some uem => Some (r, uem)
  | _, _ => None
  end.

(** The components of a metric on a scored file. *)
Definition file_components (m : Metric)
    (aggregation : SequenceLabelingAggregation) (onset offset : Qc)
    (file : item) : option (components m) :=
  match scored file with
  | Some (r, uem) =>
      Some (compute_components m r
              (binarize_apply onset offset (aggregation_apply aggregation file))
              uem)
  | None => None
  end.

(** The value of a metric on one file. *)
Definition file_metric (m : Metric)
    (aggregation : SequenceLabelingAggregation) (onset offset : Qc)
    (file : item) : option Qc :=
  compute_metric m <$> file_components m aggregation onset offset file.

(** The F-measure of one file. *)
Definition file_f_measure (aggregation : SequenceLabelingAggregation)
    (onset offset beta : Qc) (file : item) : option Qc :=
  match file_metric DetectionPrecision aggregation onset offset file,
        file_metric DetectionRecall aggregation onset offset file with
  | Some p, Some r => Some (f_measure p r beta)
  | _, _ => None
  end.

(** The line of [eval.txt] of one file. *)
Definition eval_line (aggregation : SequenceLabelingAggregation)
    (onset offset beta : Qc) (file : item) : option data :=
  match file_metric DetectionPrecision aggregation onset offset file,
        file_metric DetectionRecall aggregation onset offset file with
  | Some p, Some r =>
      Some (DEval (get_unique_identifier file) p r (Float (f_measure p r beta)))
  | _, _ => None
  end.

(** The micro-average of a metric over files: the metric of the sum of
    their components. *)
Definition micro_average (m : Metric)
    (aggregation : SequenceLabelingAggregation) (onset offset : Qc)
    (files : list item) : Qc :=
  compute_metric m
    (foldl (add_components m) (init_components m)
       (omap (file_components m aggregation onset offset) files)).

(** The micro-averaged F-measure: the F-measure of the micro-averaged
    precision and recall. *)
Definition micro_f_measure (aggregation : SequenceLabelingAggregation)
    (onset offset beta : Qc) (files : list item) : Qc :=
  f_measure (micro_average DetectionPrecision aggregation onset offset files)
            (micro_average DetectionRecall aggregation onset offset files)
            beta.

(** The mean of the F-measures of the files. *)
Definition mean_f_measure (aggregation : SequenceLabelingAggregation)
    (onset offset beta : Qc) (files : list item) : pyfloat :=
  np_mean (omap (file_f_measure aggregation onset offset beta) files).

(** The variables of the scoring loop after one more file. *)
Definition scoring_step (aggregation : SequenceLabelingAggregation)
    (onset offset beta : Qc) (s : scoring_locals) (file : item)
    : scoring_locals :=
  match scored file with
  | Some (r, uem) =>
      let hard := binarize_apply onset offset (aggregation_apply aggregation file) in
      let cp := compute_components DetectionPrecision r hard uem in
      let cr := compute_components DetectionRecall r hard uem in
      {| s_precision := add_components DetectionPrecision (s_precision s) cp;
         s_recall := add_components DetectionRecall (s_recall s) cr;
         s_fscore :=
           s_fscore s ++
           [f_measure (compute_metric DetectionPrecision cp)
                      (compute_metric DetectionRecall cr) beta] |}
  | None => s
  end.

Definition test (protocol : Protocol) (tune_dir apply_dir subset : string)
    (beta : Qc) : M unit :=
  os_makedirs apply_dir;;
  let train_dir := dirname (dirname tune_dir) in
  '(feature_extraction_name, feature_extraction, duration, step) ←
    load_configuration train_dir;
  (* -- HYPER-PARAMETERS -- *)
  let tune_yml := tune_yml tune_dir in
  tune ← load_yaml tune_yml;
  let architecture_yml := train_dir +:+ "/architecture.yml" in
  (* [epoch] is no variable of [test]: the name is read from the module *)
  epoch ← load_global "epoch";
  weights_h5 ← format_WEIGHTS_H5 train_dir epoch;
  sequence_labeling ← SequenceLabeling_from_disk architecture_yml weights_h5;
  let aggregation :=
    {| agg_sequence_labeling := sequence_labeling;
       agg_feature_extraction := feature_extraction;
       agg_duration := duration; agg_step := step;
       cache_preprocessed_ := None |} in
  onset ← subscript tune "onset";
  onset ← as_float onset;
  offset ← subscript tune "offset";
  offset ← as_float offset;
  test_scoring aggregation onset offset protocol apply_dir subset beta.

End script.

(** * More of the script *)

(** ** [train]: the samples of an epoch (lines 186-188, 224-227) *)

Definition batch_size : Z := 8192.

(** [batch_size * int(np.ceil((seconds_per_epoch / step) / batch_size))];
    [None] when [step] is 0: the division, or the conversion of its
    infinite or undefined result to an integer, raises. *)
Definition samples_per_epoch (seconds_per_epoch step : Qc) : option Z :=
  if decide (step = 0)%Qc then None
  else Some (batch_size *
             Qceiling ((seconds_per_epoch / step) / Qc_of_Z batch_size)%Qc)%Z.

(** ** The command line (lines 583-638) *)

(** A format string with named fields, and [str.format] with keyword
    arguments: a field without argument raises [KeyError]. *)
Inductive piece :=
| Literal (s : string)
| Field (name : string).

Fixpoint str_format (template : list piece) (kwargs : gmap string string)
    : result string :=
  match template with
  | [] => Ok ""
  | Literal s :: template =>
      match str_format template kwargs with
      | Ok rest => Ok (s +:+ rest)
      | other => other
      end
  | Field name :: template =>
      match kwargs !! name with
      | Some value =>
          match str_format template kwargs with
          | Ok rest => Ok (value +:+ rest)
          | other => other
          end
      | None => Raise (KeyError name)
      end
  end.

(** [TRAIN_DIR = '{experiment_dir}/train/{protocol}.{subset}/{path}'] *)
Definition TRAIN_DIR : list piece :=
  [Field "experiment_dir"; Literal "/train/"; Field "protocol"; Literal ".";
   Field "subset"; Literal "/"; Field "path"].

(** The directories of the other modes (lines 619, 629, 637). *)
Definition main_validation_dir (train_dir protocol : string) : string :=
  train_dir +:+ "/validation/" +:+ protocol.

Definition main_tune_dir (train_dir protocol subset : string) : string :=
  train_dir +:+ "/tune/" +:+ protocol +:+ "." +:+ subset.

Definition main_apply_dir (tune_dir protocol subset : string) : string :=
  tune_dir +:+ "/apply/" +:+ protocol +:+ "." +:+ subset.

(** What [docopt] returns: the mode, the options and the positional
    arguments (those of the other modes are not read). *)
Record Arguments := {
  arg_train : bool;
  arg_validation : bool;
  arg_tune : bool;
  arg_apply : bool;
  arg_database : string;           (* --database *)
  arg_subset : option string;      (* --subset *)
  arg_recall : string;             (* --recall *)
  arg_experiment_dir : string;     (* <experiment_dir> *)
  arg_train_dir : string;          (* <train_dir> *)
  arg_tune_dir : string;           (* <tune_dir> *)
  arg_protocol : string;           (* <database.task.protocol> *)
}.

(** Names without a slash, and directories written without a trailing
    slash: what the layout of the directories relies on. *)
Fixpoint slash_free (s : string) : bool :=
  match s with
  | "" => true
  | String c s' => negb (Ascii.eqb c "/") && slash_free s'
  end.

Definition proper_dir (d : string) : bool :=
  match String.rev d with
  | "" => false
  | String c _ => negb (Ascii.eqb c "/")
  end.

(** The last character of a string. *)
Definition str_last (s : string) : option ascii :=
  match String.rev s with
  | "" => None
  | String c _ => Some c
  end.

Section command_line.
Context `{Framework}.

(** What the [__main__] block takes from outside: the protocol named on
    the command line ([get_database] and [get_protocol], lines 587-595),
    the training of [train], [float] on the text of [--recall], and what
    validation mode waits for. *)
Context (get_protocol : string → string → M Protocol).
Context (train : Protocol → string → string → string → M unit).
Context (float : string → M Qc).
Context (env : Environment) (fuel : nat).

(** The [__main__] block (lines 583-638): the four [if]s in turn, sharing
    the variable [subset]. *)
Definition main (arguments : Arguments) : M unit :=
  protocol ← get_protocol (arg_database arguments) (arg_protocol arguments);
  let subset := arg_subset arguments in
  subset ←
    (if arg_train arguments then
       let experiment_dir := arg_experiment_dir arguments in
       let subset := default "train" subset in
       train_dir ←
         lift (str_format TRAIN_DIR
                 (<["experiment_dir" := experiment_dir]>
                 (<["protocol" := arg_protocol arguments]>
                 (<["subset" := subset]> ∅))));
       train protocol experiment_dir train_dir subset;;
       mret (Some subset)
     else mret subset);
  subset ←
    (if arg_validation arguments then
       let train_dir := arg_train_dir arguments in
       let subset := default "development" subset in
       let validation_dir :=
         main_validation_dir train_dir (arg_protocol arguments) in
       validate env protocol train_dir validation_dir subset fuel;;
       mret (Some subset)
     else mret subset);
  subset ←
    (if arg_tune arguments then
       let train_dir := arg_train_dir arguments in
       let subset := default "development" subset in
       beta ← float (arg_recall arguments);
       let tune_dir := main_tune_dir train_dir (arg_protocol arguments) subset in
       _ ← tune protocol train_dir tune_dir subset fuel;
       mret (Some subset)
     else mret subset);
  if arg_apply arguments then
    let tune_dir := arg_tune_dir arguments in
    let subset := default "test" subset in
    beta ← float (arg_recall arguments);
    let apply_dir := main_apply_dir tune_dir (arg_protocol arguments) subset in
    test protocol tune_dir apply_dir subset beta
  else mret tt.

(** ** Quantities the further properties are stated with *)

(** The epoch and the value of a line of [der.txt]. *)
Definition der_entry (record : data) : option (nat * Qc) :=
  match record with
  | DDer epoch _ der => Some (epoch, der)
  | _ => None
  end.

(** The detection error of one development file with the prediction of
    the given aggregation, as [objective_function] and
    [speech_activity_detection_xp] compute it. *)
Definition dev_components (collar : Qc)
    (aggregation : SequenceLabelingAggregation) (onset offset : Qc)
    (file : item) : option (components (DetectionErrorRate collar)) :=
  match item_annotation file with
  | Some reference =>
      Some (compute_components (DetectionErrorRate collar) reference
              (binarize_apply onset offset (aggregation_apply aggregation file))
              (get_annotated file))
  | None => None
  end.

(** The detection error rate, in absolute value, of a file whose
    reference is [r]. *)
Definition file_der (collar : Qc)
    (aggregation : SequenceLabelingAggregation) (onset offset : Qc)
    (file : item) (r : reference) : Qc :=
  Qcabs (compute_metric (DetectionErrorRate collar)
           (compute_components (DetectionErrorRate collar) r
              (binarize_apply onset offset (aggregation_apply aggregation file))
              (get_annotated file))).

(** The aggregation that [validate] applies at one epoch (lines 319-330),
    given the network loaded for it. *)
Definition validation_aggregation (feature_extraction_name : string)
    (feature_extraction : feature_extraction) (duration step : yaml)
    (sequence_labeling : sequence_labeling) : SequenceLabelingAggregation :=
  {| agg_sequence_labeling := sequence_labeling;
     agg_feature_extraction := feature_extraction;
     agg_duration := duration; agg_step := step;
     cache_preprocessed_ :=
       Some (negb (str_contains "Precomputed" feature_extraction_name)) |}.

End command_line.

(** * A frame-level framework

    An instance of the external framework on which the script runs on
    concrete inputs: a file is a list of frame scores, annotations are
    sets of frame indices, and the detection metrics count frames. *)

Module Frames.

Record file := {
  uri : string;
  scores : list Qc;
  annotation : option (list nat);
  annotated : option (list nat);
}.

#[global] Instance domain : Domain := {|
  item := file;
  reference := list nat;
  timeline := list nat;
  soft := list Qc;
  hard := list nat;
  figure := list Qc;
  feature_extraction := string;
  sequence_labeling := string;
|}.

(** Hysteresis thresholding: a frame turns active above [onset] and
    inactive below [offset]. *)
Fixpoint binarize (onset offset : Qc) (active : bool) (i : nat)
    (l : list Qc) : list nat :=
  match l with
  | [] => []
  | q :: l' =>
      let active' :=
        if active then negb (bool_decide (q < offset)%Qc)
        else bool_decide (onset < q)%Qc in
      (if active' then [i] else []) ++ binarize onset offset active' (S i) l'
  end.

Definition inter (a b : list nat) : list nat := filter (λ i, i ∈ b) a.
Definition minus (a b : list nat) : list nat := filter (λ i, i ∉ b) a.
Definition count (a : list nat) : Qc := Qc_of_nat (length a).

Definition ratio (num den : Qc) : Qc :=
  if decide (den = 0)%Qc then 1%Qc else (num / den)%Qc.

Definition pair_add (a b : Qc * Qc) : Qc * Qc :=
  (a.1 + b.1, a.2 + b.2)%Qc.

(** components: retrieved, relevant retrieved *)
Definition precision : Metric := {|
  components := Qc * Qc;
  init_components := (0, 0)%Qc;
  add_components := pair_add;
  compute_components r h uem :=
    (count (inter h uem), count (inter (inter h r) uem));
  compute_metric c := ratio c.2 c.1;
|}.

(** components: relevant, relevant retrieved *)
Definition recall : Metric := {|
  components := Qc * Qc;
  init_components := (0, 0)%Qc;
  add_components := pair_add;
  compute_components r h uem :=
    (count (inter r uem), count (inter (inter h r) uem));
  compute_metric c := ratio c.2 c.1;
|}.

(** components: total, miss + false alarm *)
Definition error_rate (collar : Qc) : Metric := {|
  components := Qc * Qc;
  init_components := (0, 0)%Qc;
  add_components := pair_add;
  compute_components r h uem :=
    (count (inter r uem),
     count (minus (inter r uem) h) + count (minus (inter h uem) r))%Qc;
  compute_metric c :=
    if decide (c.1 = 0)%Qc
    then (if decide (c.2 = 0)%Qc then 0 else 1)%Qc
    else (c.2 / c.1)%Qc;
|}.

Definition f_beta (p r beta : Qc) : Qc :=
  if decide (p + r = 0)%Qc then 0%Qc
  else ((1 + beta * beta) * p * r / (beta * beta * p + r))%Qc.

#[global] Instance framework : Framework := {|
  get_unique_identifier := uri;
  item_annotation := annotation;
  item_annotated := annotated;
  get_annotated f := default (seq 0 (length (scores f))) (annotated f);
  features_getattr name :=
    if bool_decide (name ∈ ["YaafeMFCC"; "Precomputed"])
    then Some (λ _, name) else None;
  from_disk _ weights_h5 := Ok weights_h5;
  aggregation_apply _ f := scores f;
  binarize_apply onset offset s := binarize onset offset false 0 s;
  DetectionErrorRate := error_rate;
  DetectionPrecision := precision;
  DetectionRecall := recall;
  f_measure := f_beta;
  plot_convergence res := Ok (func_vals res);
  plot_evaluations res := Ok (func_vals res);
  plot_objective res :=
    match x_iters res with
    | [] => Raise (ExternalError "plot_objective")
    | _ => Ok (func_vals res)
    end;
  plot_ders ders _ _ _ _ := ders;
|}.

(** An experiment directory. *)
Definition train_dir : string := "xp/train/Etape.SpeakerDiarization.TV.train".
Definition validation_dir : string :=
  train_dir +:+ "/validation/Etape.SpeakerDiarization.TV".
Definition tune_dir : string :=
  train_dir +:+ "/tune/Etape.SpeakerDiarization.TV.development".
Definition apply_dir : string :=
  tune_dir +:+ "/apply/Etape.SpeakerDiarization.TV.test".

Definition config : yaml :=
  YDict (<["feature_extraction" :=
             YDict (<["name" := YStr "YaafeMFCC"]>
                   (<["params" := YDict {["e" := YBool false]}]> ∅))]>
        (<["sequences" :=
             YDict (<["duration" := YFloat (Q2Qc (32 # 10))]>
                   (<["step" := YFloat (Q2Qc (8 # 10))]> ∅))]> ∅)).

Definition q (n d : Z) : Qc := Q2Qc (Qmake n (Z.to_pos d)).

(** Two files: the first is detected perfectly, the second not at all. *)
Definition file_a : file :=
  {| uri := "a"; scores := [q 9 10];
     annotation := Some [0]; annotated := Some [0] |}.
Definition file_b : file :=
  {| uri := "b";
     scores := [q 9 10; q 9 10; q 9 10; q 1 10; q 1 10; q 1 10];
     annotation := Some [3; 4; 5]; annotated := Some [0; 1; 2; 3; 4; 5] |}.
(** A file without reference. *)
Definition file_c : file :=
  {| uri := "c"; scores := [q 9 10; q 1 10];
     annotation := None; annotated := Some [0; 1] |}.

Definition protocol (sd : bool) (files : list file) : Protocol :=
  {| is_SpeakerDiarizationProtocol := sd;
     subset_files name :=
       if bool_decide (name ∈ ["train"; "development"; "test"])
       then Some files else None |}.

(** The disk after training three epochs. *)
Definition trained : world :=
  {| w_files :=
       <["xp/config.yml" := [DYaml config] ]>
       (<[WEIGHTS_H5 train_dir 0 := [] ]>
       (<[WEIGHTS_H5 train_dir 1 := [] ]>
       (<[WEIGHTS_H5 train_dir 2 := [] ]> ∅)));
     w_dirs := {[train_dir]};
     w_log := [] |}.

(** The same disk with the [der.txt] of an earlier validation run. *)
Definition validated_before : world :=
  {| w_files :=
       <[der_txt validation_dir "development" := [DDer 0 "yesterday" (q 1 4)] ]>
         (w_files trained);
     w_dirs := w_dirs trained;
     w_log := [] |}.

(** The disk after tuning chose epoch 2. *)
Definition tuned : world :=
  {| w_files :=
       <[tune_yml tune_dir := [DYaml (tune_params 3 (2%Z, q 1 2, q 1 2))] ]>
         (w_files trained);
     w_dirs := {[tune_dir]} ∪ w_dirs trained;
     w_log := [] |}.

(** Every weights file is there from the start. *)
Definition all_there : Environment :=
  {| isfile_at _ _ := true; now_at _ := "now" |}.

(** The weights of epoch 0 appear at the third look. *)
Definition late : Environment :=
  {| isfile_at k _ := bool_decide (2 ≤ k); now_at _ := "now" |}.

Definition aggregation : SequenceLabelingAggregation :=
  {| agg_sequence_labeling := WEIGHTS_H5 train_dir 2;
     agg_feature_extraction := "YaafeMFCC";
     agg_duration := YFloat (q 32 10); agg_step := YFloat (q 8 10);
     cache_preprocessed_ := None |}.

(** The optimizer's result after one trial and after ten. *)
Definition after_trials (n : nat) : OptimizeResult :=
  {| x := (2%Z, q 1 2, q 1 2);
     func_vals := replicate n (q 3 2);
     x_iters := replicate n (2%Z, q 1 2, q 1 2);
     specs_args := {["func"; "callback"]} |}.

(** A result on which [plot_objective] fails. *)
Definition unplottable : OptimizeResult :=
  {| x := (2%Z, q 1 2, q 1 2);
     func_vals := replicate 10 (q 3 2);
     x_iters := [];
     specs_args := {["func"; "callback"]} |}.

End Frames.

(** * Properties *)

Section paths.

Lemma string_app_cons (c : ascii) (a b : string) :
  String c a +:+ b = String c (a +:+ b).
Proof. reflexivity. Qed.

Lemma string_app_assoc (a b c : string) :
  (a +:+ b) +:+ c = a +:+ (b +:+ c).
Proof.
  induction a as [|x a IH]; [done|].
  by rewrite !string_app_cons, IH.
Qed.

Lemma digit_of_pretty_N_char (d : N) :
  (d < 10)%N → digit_of (pretty_N_char d) = Some d.
Proof.
  intros Hd.
  assert (d ∈ [0; 1; 2; 3; 4; 5; 6; 7; 8; 9]%N) as Hin.
  { rewrite !elem_of_cons. lia. }
  repeat (apply elem_of_cons in Hin as [->|Hin]; [reflexivity|]).
  by apply elem_of_nil in Hin.
Qed.

Lemma read_dec_pretty_N_go (x : N) (s : string) :
  read_dec 0 (pretty_N_go x s) = read_dec x s.
Proof.
  revert s. induction (N.lt_wf_0 x) as [x _ IH]; intros s.
  destruct (decide (x = 0)%N) as [->|Hx]; [by rewrite pretty_N_go_0|].
  rewrite pretty_N_go_step by lia.
  rewrite IH by (apply N.div_lt; lia). simpl.
  rewrite digit_of_pretty_N_char by (apply N.mod_lt; lia).
  f_equal. pose proof (N.div_mod x 10). lia.
Qed.

Lemma read_dec_pretty (n : nat) (s : string) :
  digit_of (default "."%char (head (String.list_ascii_of_string s))) = None →
  read_dec 0 (pretty n +:+ s) = N.of_nat n.
Proof.
  intros Hs. unfold pretty, pretty_nat, pretty, pretty_N.
  assert (∀ x t, pretty_N_go x t +:+ s = pretty_N_go x (t +:+ s)) as Happ.
  { intros x. induction (N.lt_wf_0 x) as [x _ IH]; intros t.
    destruct (decide (x = 0)%N) as [->|Hx]; [by rewrite !pretty_N_go_0|].
    rewrite (pretty_N_go_step x t), (pretty_N_go_step x (t +:+ s)) by lia.
    by rewrite IH by (apply N.div_lt; lia). }
  assert (∀ a, read_dec a s = a) as Hstop.
  { intros a. destruct s as [|c s]; [done|]. simpl in *. by rewrite Hs. }
  case_decide as Hn.
  - rewrite Hn. simpl. by rewrite Hstop.
  - rewrite Happ, read_dec_pretty_N_go. apply Hstop.
Qed.

Lemma read_dec_zeros (k : nat) (s : string) :
  read_dec 0 (zeros k +:+ s) = read_dec 0 s.
Proof. induction k as [|k IH]; [done|]. simpl. exact IH. Qed.

Lemma read_dec_fmt04d (n : nat) :
  read_dec 0 (fmt04d n +:+ ".h5") = N.of_nat n.
Proof.
  unfold fmt04d.
  rewrite string_app_assoc, read_dec_zeros. by apply read_dec_pretty.
Qed.

(** Distinct epochs are stored in distinct weight files. *)
#[global] Instance WEIGHTS_H5_inj (train_dir : string) :
  Inj (=) (=) (WEIGHTS_H5 train_dir).
Proof.
  intros n m Heq. unfold WEIGHTS_H5 in Heq.
  apply (inj (String.app train_dir)) in Heq.
  apply (inj (String.app "/weights/")) in Heq.
  apply (f_equal (read_dec 0)) in Heq.
  rewrite !read_dec_fmt04d in Heq. lia.
Qed.

End paths.

(** ** The epoch scanner *)

Section scanner.
Context (train_dir : string).

Lemma scan_epochs_found (isfile : string → bool) (k : nat) :
  ∀ fuel n,
    k < fuel →
    (∀ j, j < k → isfile (WEIGHTS_H5 train_dir (n + j)) = true) →
    isfile (WEIGHTS_H5 train_dir (n + k)) = false →
    scan_epochs isfile train_dir fuel n = Some (n + k).
Proof.
  induction k as [|k IH]; intros fuel n Hfuel Hbelow Hgap.
  - destruct fuel as [|fuel]; [lia|]. simpl.
    rewrite Nat.add_0_r in Hgap. rewrite Hgap. simpl. f_equal. lia.
  - destruct fuel as [|fuel]; [lia|]. simpl.
    pose proof (Hbelow 0 ltac:(lia)) as H0. rewrite Nat.add_0_r in H0.
    rewrite H0. simpl.
    replace (n + S k) with ((n + 1) + k) in * by lia.
    apply IH; [lia| |done].
    intros j Hj. replace (n + 1 + j) with (n + S j) by lia.
    apply Hbelow. lia.
Qed.

(** Below any bound, a predicate holds everywhere or fails at a least
    index. *)
Lemma bounded_first_gap (P : nat → bool) (n : nat) :
  (∀ j, j < n → P j = true) ∨
  (∃ k, k < n ∧ P k = false ∧ ∀ j, j < k → P j = true).
Proof.
  induction n as [|n [Hall|(k & ? & ? & ?)]].
  - left. intros j Hj. lia.
  - destruct (P n) eqn:Hn.
    + left. intros j Hj. destruct (decide (j = n)) as [->|]; [done|].
      apply Hall. lia.
    + right. exists n. repeat split; [lia|done..].
  - right. exists k. repeat split; [lia|done..].
Qed.

(** Finitely many files cannot hold the checkpoints of all epochs: the
    first missing epoch is at most the number of files. *)
Lemma gap_within_size (files : gset string) :
  ∃ k, k ≤ size files ∧
       (WEIGHTS_H5 train_dir k ∉ files) ∧
       ∀ e, e < k → WEIGHTS_H5 train_dir e ∈ files.
Proof.
  destruct (bounded_first_gap
              (λ e, isfile_in files (WEIGHTS_H5 train_dir e)) (S (size files)))
    as [Hall|(k & Hk & Hgap & Hbelow)].
  - exfalso.
    set (paths := WEIGHTS_H5 train_dir <$> seq 0 (S (size files))).
    assert (NoDup paths) as Hnodup.
    { apply (NoDup_fmap_2 _), NoDup_seq. }
    assert (list_to_set paths ⊆ files) as Hsub.
    { intros p [e [-> He]]%elem_of_list_to_set%list_elem_of_fmap.
      apply elem_of_seq in He.
      eapply bool_decide_eq_true, (Hall e). lia. }
    apply subseteq_size in Hsub.
    rewrite size_list_to_set in Hsub by done.
    unfold paths in Hsub. rewrite length_fmap, length_seq in Hsub. lia.
  - exists k. split; [lia|]. split.
    + by apply bool_decide_eq_false in Hgap.
    + intros e He. by eapply bool_decide_eq_true, (Hbelow e).
Qed.

End scanner.

(** C3. For every finite set of existing files the scanner, started at
    epoch 0, stops (any fuel above the number of files is enough) and
    returns the smallest epoch whose weights file does not exist; epochs
    above that first gap are never looked at: whenever epochs [0..n-1]
    exist and [n] is missing the answer is [n], whatever else exists. *)
Theorem scan_epochs_smallest_missing (files : gset string) (train_dir : string) :
  (∃ next,
      (∀ fuel, size files < fuel →
               scan_epochs (isfile_in files) train_dir fuel 0 = Some next) ∧
      (WEIGHTS_H5 train_dir next ∉ files) ∧
      (∀ e, e < next → WEIGHTS_H5 train_dir e ∈ files)) ∧
  (∀ n fuel,
      n < fuel →
      (∀ e, e < n → WEIGHTS_H5 train_dir e ∈ files) →
      WEIGHTS_H5 train_dir n ∉ files →
      scan_epochs (isfile_in files) train_dir fuel 0 = Some n).
Proof.
  assert (∀ n fuel,
      n < fuel →
      (∀ e, e < n → WEIGHTS_H5 train_dir e ∈ files) →
      WEIGHTS_H5 train_dir n ∉ files →
      scan_epochs (isfile_in files) train_dir fuel 0 = Some n) as Hchar.
  { intros n fuel Hfuel Hbelow Hgap.
    apply (scan_epochs_found train_dir (isfile_in files) n fuel 0 Hfuel).
    - intros j Hj. apply bool_decide_eq_true. simpl. by apply Hbelow.
    - apply bool_decide_eq_false. by simpl. }
  split; [|exact Hchar].
  destruct (gap_within_size train_dir files) as (next & Hnext & Hmiss & Hbelow).
  exists next. repeat split; [|done..].
  intros fuel Hfuel. apply Hchar; [lia|done..].
Qed.

(** ** Running the monad *)

Section running.
Context `{Domain}.

Lemma bind_run {A B} (m : M A) (f : A → M B) (w : world) :
  (m ≫= f) w =
  match m w with
  | (Ok a, w') => f a w'
  | (Raise e, w') => (Raise e, w')
  | (Running, w') => (Running, w')
  end.
Proof. reflexivity. Qed.

Lemma bind_Ok_inv {A B} (m : M A) (f : A → M B) (w w'' : world) (b : B) :
  (m ≫= f) w = (Ok b, w'') →
  ∃ a w', m w = (Ok a, w') ∧ f a w' = (Ok b, w'').
Proof.
  rewrite bind_run. destruct (m w) as [[a| |] w'] eqn:Hm; [eauto|done..].
Qed.

Lemma bind_Ok {A B} (m : M A) (f : A → M B) (w w' : world) (a : A) :
  m w = (Ok a, w') → (m ≫= f) w = f a w'.
Proof. intros Hm. by rewrite bind_run, Hm. Qed.

Lemma bind_Raise {A B} (m : M A) (f : A → M B) (w w' : world) (e : exn) :
  m w = (Raise e, w') → (m ≫= f) w = (Raise e, w').
Proof. intros Hm. by rewrite bind_run, Hm. Qed.

Lemma bind_Running {A B} (m : M A) (f : A → M B) (w w' : world) :
  m w = (Running, w') → (m ≫= f) w = (Running, w').
Proof. intros Hm. by rewrite bind_run, Hm. Qed.

Lemma mret_run {A} (a : A) (w : world) : (mret a : M A) w = (Ok a, w).
Proof. reflexivity. Qed.

(** The last iteration of a loop prefix. *)
Lemma loop_prefix_succ {S} (body : S → M (ctl S)) (n : nat) (s : S) (w : world) :
  loop_prefix (Datatypes.S n) body s w =
  match loop_prefix n body s w with
  | (Ok (Continue s'), w') => body s' w'
  | other => other
  end.
Proof.
  revert s w. induction n as [|n IH]; intros s w.
  - cbn [loop_prefix]. rewrite bind_run, mret_run.
    destruct (body s w) as [[[s'|s']| |] w']; reflexivity.
  - change (loop_prefix (Datatypes.S (Datatypes.S n)) body s w)
      with ((c ← body s;
             match c with
             | Continue s' => loop_prefix (Datatypes.S n) body s'
             | Break s' => mret (Break s')
             end) w).
    change (loop_prefix (Datatypes.S n) body s w)
      with ((c ← body s;
             match c with
             | Continue s' => loop_prefix n body s'
             | Break s' => mret (Break s')
             end) w).
    rewrite !bind_run.
    destruct (body s w) as [[[s'|s']| |] w']; [apply IH|reflexivity..].
Qed.

(** A loop whose body never breaks never ends. *)
Lemma loop_prefix_no_break {S} (body : S → M (ctl S)) :
  (∀ s w s' w', body s w ≠ (Ok (Break s'), w')) →
  ∀ n s w s' w', loop_prefix n body s w ≠ (Ok (Break s'), w').
Proof.
  intros Hbody n. induction n as [|n IH]; intros s w s' w'; [done|].
  rewrite loop_prefix_succ.
  destruct (loop_prefix n body s w) as [[[s1|s1]| |] w1] eqn:Hn;
    [apply Hbody|by destruct (IH s w s1 w1)|done..].
Qed.

Lemma while_true_no_break {S} (body : S → M (ctl S)) :
  (∀ s w s' w', body s w ≠ (Ok (Break s'), w')) →
  ∀ fuel s w s', (while_true fuel body s w).1 ≠ Ok s'.
Proof.
  intros Hbody fuel s w s'. unfold while_true. rewrite bind_run.
  pose proof (loop_prefix_no_break body Hbody fuel s w) as Hn.
  destruct (loop_prefix fuel body s w) as [[[s1|s1]| |] w1]; [done| |done..].
  by destruct (Hn s1 w1).
Qed.

(** What every iteration does to the world, the loop prefix does. *)
Lemma loop_prefix_world {S} (body : S → M (ctl S)) (R : relation world) :
  Reflexive R → Transitive R →
  (∀ s w, R w (body s w).2) →
  ∀ n s w, R w (loop_prefix n body s w).2.
Proof.
  intros ?? Hbody n. induction n as [|n IH]; intros s w; [done|].
  rewrite loop_prefix_succ. specialize (IH s w).
  destruct (loop_prefix n body s w) as [[[s1|s1]| |] w1]; [|done..].
  simpl in IH. etrans; [exact IH|apply Hbody].
Qed.

End running.

(** ** What a computation does to the world *)

Section effects.
Context `{Framework}.

Context (R : relation world) `{!Reflexive R} `{!Transitive R}.

Lemma preserves_ret {A} (a : A) : preserves R (mret a : M A).
Proof. intros w. reflexivity. Qed.

Lemma preserves_raise {A} (e : exn) : preserves R (raise e : M A).
Proof. intros w. reflexivity. Qed.

Lemma preserves_running {A} : preserves R (running : M A).
Proof. intros w. reflexivity. Qed.

Lemma preserves_lift {A} (r : result A) : preserves R (lift r).
Proof. intros w. reflexivity. Qed.

Lemma preserves_bind {A B} (m : M A) (f : A → M B) :
  preserves R m → (∀ a, preserves R (f a)) → preserves R (m ≫= f).
Proof.
  intros Hm Hf w. rewrite bind_run. specialize (Hm w).
  destruct (m w) as [[a| |] w']; [|done..].
  etrans; [exact Hm|apply Hf].
Qed.

Lemma preserves_except_KeyError {A} (m handler : M A) :
  preserves R m → preserves R handler → preserves R (except_KeyError m handler).
Proof.
  intros Hm Hh w. unfold except_KeyError. specialize (Hm w).
  destruct (m w) as [[a|[]|] w']; try done.
  etrans; [exact Hm|apply Hh].
Qed.

Lemma preserves_except_Exception_pass (m : M unit) :
  preserves R m → preserves R (except_Exception_pass m).
Proof.
  intros Hm w. unfold except_Exception_pass. specialize (Hm w).
  by destruct (m w) as [[a|e|] w'].
Qed.

Lemma preserves_for_each {A S} (l : list A) (body : A → S → M S) (s : S) :
  (∀ a s, preserves R (body a s)) → preserves R (for_each l body s).
Proof.
  intros Hbody. revert s. induction l as [|a l IH]; intros s.
  - apply preserves_ret.
  - apply preserves_bind; [apply Hbody|apply IH].
Qed.

Lemma preserves_loop_prefix {S} (n : nat) (body : S → M (ctl S)) (s : S) :
  (∀ s, preserves R (body s)) → preserves R (loop_prefix n body s).
Proof.
  intros Hbody. revert s. induction n as [|n IH]; intros s.
  - apply preserves_ret.
  - apply preserves_bind; [apply Hbody|].
    intros [s'|s']; [apply IH|apply preserves_ret].
Qed.

Lemma preserves_while_true {S} (fuel : nat) (body : S → M (ctl S)) (s : S) :
  (∀ s, preserves R (body s)) → preserves R (while_true fuel body s).
Proof.
  intros Hbody. apply preserves_bind; [by apply preserves_loop_prefix|].
  intros [s'|s']; [apply preserves_running|apply preserves_ret].
Qed.

(** Computations that read only. *)
Lemma preserves_load_yaml (path : string) : preserves R (load_yaml path).
Proof.
  intros w. unfold load_yaml.
  destruct (w_files w !! path) as [[|[] []]|]; reflexivity.
Qed.

Lemma preserves_subscript (d : yaml) (key : string) : preserves R (subscript d key).
Proof.
  intros w. unfold subscript. destruct d; try reflexivity.
  destruct (_ !! _); reflexivity.
Qed.

Lemma preserves_dict_get (d : yaml) (key : string) (dflt : yaml) :
  preserves R (dict_get d key dflt).
Proof. intros w. destruct d; reflexivity. Qed.

Lemma preserves_as_str (y : yaml) : preserves R (as_str y).
Proof. intros w. destruct y; reflexivity. Qed.

Lemma preserves_as_float (y : yaml) : preserves R (as_float y).
Proof. intros w. destruct y; reflexivity. Qed.

Lemma preserves_getattr_subset (protocol : Protocol) (subset : string) :
  preserves R (getattr_subset protocol subset).
Proof. intros w. unfold getattr_subset. destruct (subset_files _ _); reflexivity. Qed.

Lemma preserves_subscript_annotation (file : item) :
  preserves R (subscript_annotation file).
Proof. intros w. unfold subscript_annotation. destruct (item_annotation _); reflexivity. Qed.

Lemma preserves_subscript_annotated (file : item) :
  preserves R (subscript_annotated file).
Proof. intros w. unfold subscript_annotated. destruct (item_annotated _); reflexivity. Qed.

Lemma preserves_load_local {A} (name : string) (v : option A) :
  preserves R (load_local name v).
Proof. intros w. destruct v; reflexivity. Qed.

Lemma preserves_load_global (name : string) : preserves R (load_global name).
Proof. intros w. unfold load_global. case_bool_decide; reflexivity. Qed.

Lemma preserves_format_WEIGHTS_H5 (train_dir : string) (epoch : pyobj) :
  preserves R (format_WEIGHTS_H5 train_dir epoch).
Proof. intros w. destruct epoch; [|reflexivity]. simpl. case_decide; reflexivity. Qed.

Lemma preserves_del_key (key : string) (keys : gset string) :
  preserves R (del_key key keys).
Proof. intros w. unfold del_key. case_bool_decide; reflexivity. Qed.

End effects.

Create HintDb preserves.

#[global] Hint Resolve preserves_ret preserves_raise preserves_running
  preserves_lift preserves_load_yaml preserves_subscript preserves_dict_get
  preserves_as_str preserves_as_float preserves_getattr_subset
  preserves_subscript_annotation preserves_subscript_annotated
  preserves_load_local preserves_load_global preserves_format_WEIGHTS_H5
  preserves_del_key : preserves.

(** Goes through a computation bind by bind. *)
Ltac preserves_step :=
  lazymatch goal with
  | |- preserves _ (_ ≫= _) =>
      apply preserves_bind; [apply _..| |intros ?]
  | |- preserves _ (for_each _ _ _) =>
      apply preserves_for_each; [apply _..|intros ? ?]
  | |- preserves _ (while_true _ _ _) =>
      apply preserves_while_true; [apply _..|intros ?]
  | |- preserves _ (except_KeyError _ _) =>
      apply preserves_except_KeyError; [apply _..| |]
  | |- preserves _ (except_Exception_pass _) =>
      apply preserves_except_Exception_pass; [apply _..|]
  | |- preserves _ (match ?x with _ => _ end) => destruct x
  | |- preserves _ (let '(_, _) := ?x in _) => destruct x
  | |- preserves _ (if ?b then _ else _) => destruct b
  | |- preserves _ _ => solve [eauto with preserves]
  end.

Ltac preserves_auto := repeat preserves_step.

(** ** Files *)

Section files.
Context `{Framework}.

#[global] Instance same_files_refl : Reflexive same_files.
Proof. by intros w. Qed.
#[global] Instance same_files_trans : Transitive same_files.
Proof. unfold same_files. intros w1 w2 w3 H12 H23. congruence. Qed.
#[global] Instance same_files_rel : FileRelation same_files.
Proof. by intros w w'. Qed.

#[global] Instance untouched_refl path : Reflexive (untouched path).
Proof. by intros w. Qed.
#[global] Instance untouched_trans path : Transitive (untouched path).
Proof. unfold untouched. intros w1 w2 w3 H12 H23. congruence. Qed.
#[global] Instance untouched_rel path : FileRelation (untouched path).
Proof. unfold untouched. intros w w' Hw. by rewrite Hw. Qed.

#[global] Instance grows_refl path : Reflexive (grows path).
Proof. intros w. unfold grows. reflexivity. Qed.
#[global] Instance grows_trans path : Transitive (grows path).
Proof. unfold grows. intros w1 w2 w3 H12 H23. etrans; [exact H12|exact H23]. Qed.
#[global] Instance grows_rel path : FileRelation (grows path).
Proof. unfold grows, file_content. intros w w' Hw. by rewrite Hw. Qed.

Lemma untouched_content (path : string) (w w' : world) :
  untouched path w w' → file_content w' path = file_content w path.
Proof. unfold untouched, file_content. by intros ->. Qed.

Lemma untouched_grows (path : string) (w w' : world) :
  untouched path w w' → grows path w w'.
Proof. unfold grows. intros Hu. by rewrite (untouched_content _ _ _ Hu). Qed.

Context (R : relation world) `{!FileRelation R}.

Lemma preserves_log_event (e : event) : preserves R (log_event e).
Proof. intros w. by apply file_relation. Qed.

Lemma preserves_time_sleep (seconds : Z) : preserves R (time_sleep seconds).
Proof. apply preserves_log_event. Qed.

Lemma preserves_mkdir_p (path : string) : preserves R (mkdir_p path).
Proof. intros w. unfold mkdir_p. case_bool_decide; by apply file_relation. Qed.

Lemma preserves_os_makedirs (path : string) : preserves R (os_makedirs path).
Proof. intros w. unfold os_makedirs. case_bool_decide; by apply file_relation. Qed.

Lemma preserves_from_disk (architecture_yml weights_h5 : string) :
  preserves R (SequenceLabeling_from_disk architecture_yml weights_h5).
Proof.
  intros w. unfold SequenceLabeling_from_disk. rewrite bind_run. simpl.
  unfold lift. by apply file_relation.
Qed.

End files.

#[global] Hint Resolve preserves_log_event preserves_time_sleep
  preserves_mkdir_p preserves_os_makedirs preserves_from_disk : preserves.
#[global] Hint Extern 0 (@FileRelation _ _) => apply _ : preserves.
#[global] Hint Extern 0 (Reflexive _) => apply _ : preserves.
#[global] Hint Extern 0 (Transitive _) => apply _ : preserves.

Section writes.
Context `{Framework}.

Lemma file_content_set_file (path path' : string) (c : list data) (w : world) :
  file_content (set_file path c w).2 path' =
  if decide (path = path') then c else file_content w path'.
Proof.
  unfold file_content, set_file. simpl. rewrite lookup_insert.
  by case_decide.
Qed.

Lemma preserves_untouched_set_file (path path' : string) (c : list data) :
  path ≠ path' → preserves (untouched path') (set_file path c).
Proof. intros Hne w. unfold untouched. simpl. by rewrite lookup_insert_ne. Qed.

Lemma preserves_untouched_fp_write (path path' : string) (r : data) :
  path ≠ path' → preserves (untouched path') (fp_write path r).
Proof. intros Hne w. by apply preserves_untouched_set_file. Qed.

Lemma preserves_untouched_write_file (path path' : string) (r : data) :
  path ≠ path' → preserves (untouched path') (write_file path r).
Proof.
  intros Hne. apply preserves_bind; [apply _..| |intros _].
  - by apply preserves_untouched_set_file.
  - by apply preserves_untouched_fp_write.
Qed.

Lemma preserves_grows_fp_write (path path' : string) (r : data) :
  preserves (grows path') (fp_write path r).
Proof.
  intros w. unfold grows, fp_write. rewrite file_content_set_file.
  case_decide as Hp; [subst; by apply prefix_app_r|done].
Qed.

Lemma preserves_grows_write_file (path path' : string) (r : data) :
  path ≠ path' → preserves (grows path') (write_file path r).
Proof.
  intros Hne w. apply untouched_grows.
  by apply preserves_untouched_write_file.
Qed.

Lemma write_file_run (path : string) (r : data) (w : world) :
  write_file path r w = set_file path [r] w.
Proof.
  unfold write_file, open_w, fp_write. rewrite bind_run. simpl.
  unfold set_file, file_content. simpl.
  by rewrite lookup_insert_eq, insert_insert_eq.
Qed.

End writes.

(** ** Validation mode *)

Section validation.
Context `{Framework}.
Context (env : Environment) (protocol : Protocol).
Context (train_dir validation_dir subset : string).

Lemma der_png_ne_der_txt :
  der_png validation_dir subset ≠ der_txt validation_dir subset.
Proof.
  unfold der_png, der_txt. intros Heq.
  do 3 apply (inj (String.app _)) in Heq. discriminate.
Qed.

Section frame.
Context (R : relation world).
Context `{!Reflexive R} `{!Transitive R} `{!FileRelation R}.

Lemma preserves_load_configuration (dir : string) :
  preserves R (load_configuration dir).
Proof. unfold load_configuration. preserves_auto. Qed.

Lemma preserves_get_aggregation epoch dir fe duration step :
  preserves R (get_aggregation epoch dir fe duration step).
Proof. unfold get_aggregation. preserves_auto. Qed.

Lemma preserves_speech_activity_detection_xp aggregation onset offset collar :
  preserves R (speech_activity_detection_xp aggregation protocol subset
                 onset offset collar).
Proof. unfold speech_activity_detection_xp. preserves_auto. Qed.
End frame.

(** An iteration keeps what [der.txt] holds. *)
Lemma validate_iteration_grows name fe duration step (l : validate_locals) :
  preserves (grows (der_txt validation_dir subset))
    (validate_iteration env protocol train_dir validation_dir subset
       name fe duration step l).
Proof.
  unfold validate_iteration.
  destruct (negb _).
  - preserves_auto.
  - apply preserves_bind; [apply _..| |intros aggregation].
    { apply preserves_get_aggregation; apply _. }
    apply preserves_bind; [apply _..| |intros [[der onset] offset]].
    { destruct (is_SpeakerDiarizationProtocol protocol); [|preserves_auto].
      apply preserves_bind; [apply _..| |intros [[? ?] ?]; preserves_auto].
      apply preserves_speech_activity_detection_xp; apply _. }
    apply preserves_bind; [apply _..| |intros der_value]; [preserves_auto|].
    apply preserves_bind; [apply _..| |intros _].
    { apply preserves_grows_fp_write. }
    apply preserves_bind; [apply _..| |intros _; preserves_auto].
    apply preserves_grows_write_file, der_png_ne_der_txt.
Qed.

(** The body of the loop has no [break] and no [return]. *)
Lemma validate_iteration_no_break name fe duration step l w l' w' :
  validate_iteration env protocol train_dir validation_dir subset
    name fe duration step l w ≠ (Ok (Break l'), w').
Proof.
  unfold validate_iteration. destruct (negb _).
  - rewrite bind_run. simpl. discriminate.
  - intros Hrun.
    apply bind_Ok_inv in Hrun as (aggregation & w1 & _ & Hrun).
    apply bind_Ok_inv in Hrun as ([[der onset] offset] & w2 & _ & Hrun).
    apply bind_Ok_inv in Hrun as (der_value & w3 & _ & Hrun).
    apply bind_Ok_inv in Hrun as ([] & w4 & _ & Hrun).
    apply bind_Ok_inv in Hrun as ([] & w5 & _ & Hrun).
    discriminate.
Qed.

(** [validate], seen as its setup followed by a prefix of its loop. *)
Lemma validate_unfold (fuel : nat) (w : world) :
  validate env protocol train_dir validation_dir subset fuel w =
  match (mkdir_p validation_dir;; load_configuration train_dir) w with
  | (Ok (name, fe, duration, step), w1) =>
      match loop_prefix fuel
              (validate_iteration env protocol train_dir validation_dir
                 subset name fe duration step)
              validate_start
              (open_w (der_txt validation_dir subset) w1).2 with
      | (Ok (Continue _), w2) => (Running, w2)
      | (Ok (Break _), w2) => (Ok tt, w2)
      | (Raise e, w2) => (Raise e, w2)
      | (Running, w2) => (Running, w2)
      end
  | (Raise e, w1) => (Raise e, w1)
  | (Running, w1) => (Running, w1)
  end.
Proof.
  unfold validate. rewrite !bind_run.
  destruct (mkdir_p validation_dir w) as [[[]| |] w0]; [|done..].
  rewrite bind_run.
  destruct (load_configuration train_dir w0)
    as [[[[[name fe] duration] step]| |] w1]; [|done..].
  rewrite bind_run.
  destruct (open_w (der_txt validation_dir subset) w1)
    as [[[]| |] w1'] eqn:Hopen; [|discriminate Hopen..].
  unfold while_true. rewrite !bind_run. cbn [snd].
  destruct (loop_prefix _ _ _ _) as [[[l|l]| |] w2]; reflexivity.
Qed.

End validation.

Section validation_loop.
Context `{Framework}.
Context (env : Environment) (protocol : Protocol).
Context (train_dir validation_dir subset name : string).
Context (fe : feature_extraction) (duration step : yaml).

Local Abbreviation body :=
  (validate_iteration env protocol train_dir validation_dir subset
     name fe duration step).

(** While the weights file is missing the loop sleeps one minute and
    looks again, with nothing else changed. *)
Lemma validate_iteration_sleeps (l : validate_locals) (w : world) :
  isfile_at env (v_polls l) (WEIGHTS_H5 train_dir (v_epoch l)) = false →
  body l w =
  (Ok (Continue {| v_epoch := v_epoch l; v_der := v_der l;
                   v_onset := v_onset l; v_offset := v_offset l;
                   v_ders := v_ders l; v_polls := S (v_polls l) |}),
   {| w_files := w_files w; w_dirs := w_dirs w;
      w_log := w_log w ++ [ESleep 60] |}).
Proof. intros Hmiss. unfold validate_iteration. by rewrite Hmiss. Qed.

(** Without a [SpeakerDiarizationProtocol], [der] stays unassigned: an
    iteration that finds the weights raises at the write. *)
Lemma validate_iteration_unbound (l : validate_locals) (w : world) sl :
  is_SpeakerDiarizationProtocol protocol = false →
  v_der l = None →
  isfile_at env (v_polls l) (WEIGHTS_H5 train_dir (v_epoch l)) = true →
  from_disk (train_dir +:+ "/architecture.yml")
            (WEIGHTS_H5 train_dir (v_epoch l)) = Ok sl →
  (body l w).1 = Raise (UnboundLocalError "der").
Proof.
  intros Hsd Hder Hfile Hdisk. unfold validate_iteration.
  rewrite Hfile, Hsd, Hder. cbn [negb].
  unfold get_aggregation, SequenceLabeling_from_disk.
  rewrite !bind_run. cbn. unfold lift. by rewrite Hdisk.
Qed.

(** Without a [SpeakerDiarizationProtocol] an iteration writes no file,
    and goes on only after a sleep. *)
Lemma validate_iteration_not_sd (l : validate_locals) (w : world) :
  is_SpeakerDiarizationProtocol protocol = false →
  v_der l = None →
  same_files w (body l w).2 ∧
  ∀ l' w', body l w = (Ok (Continue l'), w') →
           v_der l' = None ∧ v_epoch l' = v_epoch l ∧
           v_polls l' = S (v_polls l) ∧
           isfile_at env (v_polls l) (WEIGHTS_H5 train_dir (v_epoch l)) = false.
Proof.
  intros Hsd Hder.
  destruct (isfile_at env (v_polls l) (WEIGHTS_H5 train_dir (v_epoch l)))
    eqn:Hfile.
  - unfold validate_iteration. rewrite Hfile, Hsd, Hder. cbn [negb].
    unfold get_aggregation, SequenceLabeling_from_disk.
    rewrite !bind_run. cbn. unfold lift.
    destruct (from_disk _ _); cbn; split; done.
  - rewrite validate_iteration_sleeps by done. split; [done|].
    intros l' w' [= <- <-]. done.
Qed.

Lemma loop_not_sd (n : nat) (l : validate_locals) (w : world) :
  is_SpeakerDiarizationProtocol protocol = false →
  v_der l = None →
  same_files w (loop_prefix n body l w).2.
Proof.
  intros Hsd. revert l w. induction n as [|n IH]; intros l w Hder; [done|].
  cbn [loop_prefix]. rewrite bind_run.
  destruct (validate_iteration_not_sd l w Hsd Hder) as [Hfiles Hnext].
  destruct (body l w) as [[[l'|l']| |] w'] eqn:Hbody; try exact Hfiles.
  destruct (Hnext l' w' eq_refl) as (Hder' & _).
  etrans; [exact Hfiles|]. by apply IH.
Qed.

Lemma loop_unbound (k : nat) :
  ∀ fuel l w sl,
    is_SpeakerDiarizationProtocol protocol = false →
    v_der l = None →
    k < fuel →
    (∀ j, j < k →
          isfile_at env (v_polls l + j) (WEIGHTS_H5 train_dir (v_epoch l)) = false) →
    isfile_at env (v_polls l + k) (WEIGHTS_H5 train_dir (v_epoch l)) = true →
    from_disk (train_dir +:+ "/architecture.yml")
              (WEIGHTS_H5 train_dir (v_epoch l)) = Ok sl →
    (loop_prefix fuel body l w).1 = Raise (UnboundLocalError "der").
Proof.
  induction k as [|k IH]; intros fuel l w sl Hsd Hder Hfuel Hmiss Hfile Hdisk;
    (destruct fuel as [|fuel]; [lia|]); cbn [loop_prefix]; rewrite bind_run.
  - rewrite Nat.add_0_r in Hfile.
    pose proof (validate_iteration_unbound l w sl Hsd Hder Hfile Hdisk) as Hb.
    destruct (body l w) as [r w']. simpl in Hb. by subst r.
  - pose proof (Hmiss 0 ltac:(lia)) as Hfirst. rewrite Nat.add_0_r in Hfirst.
    rewrite validate_iteration_sleeps by done.
    eapply IH; cbn; [done|done|lia| | |done].
    + intros j Hj. rewrite <- Nat.add_succ_r. apply Hmiss. lia.
    + by rewrite <- Nat.add_succ_r.
Qed.

End validation_loop.

(** C7. While the weights file of the current epoch is missing, an
    iteration of the loop of [validate] sleeps 60 seconds and looks again
    for the same epoch; and [validate] never returns: whatever the fuel
    and the world, its outcome is an exception or a loop still running. *)
Theorem validate_never_returns `{Framework} (env : Environment)
    (protocol : Protocol) (train_dir validation_dir subset : string) :
  (∀ name fe duration step l w,
      isfile_at env (v_polls l) (WEIGHTS_H5 train_dir (v_epoch l)) = false →
      validate_iteration env protocol train_dir validation_dir subset
        name fe duration step l w =
      (Ok (Continue {| v_epoch := v_epoch l; v_der := v_der l;
                       v_onset := v_onset l; v_offset := v_offset l;
                       v_ders := v_ders l; v_polls := S (v_polls l) |}),
       {| w_files := w_files w; w_dirs := w_dirs w;
          w_log := w_log w ++ [ESleep 60] |})) ∧
  (∀ fuel w a,
      (validate env protocol train_dir validation_dir subset fuel w).1 ≠ Ok a).
Proof.
  split.
  - intros. by apply validate_iteration_sleeps.
  - intros fuel w a. rewrite validate_unfold.
    destruct ((mkdir_p validation_dir;; load_configuration train_dir) w)
      as [[[[[name fe] duration] step]| |] w1]; [|done..].
    pose proof (loop_prefix_no_break _
                  (validate_iteration_no_break env protocol train_dir
                     validation_dir subset name fe duration step)
                  fuel validate_start
                  (open_w (der_txt validation_dir subset) w1).2) as Hnb.
    destruct (loop_prefix _ _ _ _) as [[[l|l]| |] w2]; [done| |done..].
    by destruct (Hnb l w2).
Qed.

(** C4, as amended. [validate] opens [der.txt] in write mode: a run whose
    setup (directory and configuration) succeeds starts its loop from an
    empty file, whatever an earlier run left there; within the run, every further iteration keeps the lines
    written so far and writes after them. *)
Theorem validate_der_txt_within_run `{Framework} (env : Environment)
    (protocol : Protocol) (train_dir validation_dir subset : string)
    (fuel : nat) (w : world) :
  let path := der_txt validation_dir subset in
  let run n := validate env protocol train_dir validation_dir subset n w in
  (∀ configuration w1,
      (mkdir_p validation_dir;; load_configuration train_dir) w
      = (Ok configuration, w1) →
      file_content (run 0).2 path = []) ∧
  file_content (run fuel).2 path `prefix_of` file_content (run (S fuel)).2 path.
Proof.
  cbv beta zeta. rewrite !validate_unfold.
  destruct ((mkdir_p validation_dir;; load_configuration train_dir) w)
    as [[[[[name fe] duration] step]| |] w1]; [|by split..].
  split.
  - intros _ _ _. cbn [loop_prefix]. rewrite mret_run. cbn [snd].
    unfold open_w. rewrite file_content_set_file. by case_decide.
  - rewrite loop_prefix_succ.
    destruct (loop_prefix fuel _ _ _) as [[[l|l]| |] w2]; [|done..].
    pose proof (validate_iteration_grows env protocol train_dir validation_dir
                  subset name fe duration step l w2) as Hgrows.
    unfold grows in Hgrows.
    by destruct (validate_iteration _ _ _ _ _ _ _ _ _ _ _) as [[[l'|l']| |] w3].
Qed.

(** C10. When the protocol is no [SpeakerDiarizationProtocol], [validate]
    writes no DER line (the files are those it found, with at most an
    empty [der.txt]), and, once its setup has succeeded, the first
    iteration that finds the weights of epoch 0 fails at the write of
    [der.txt] with [der] unassigned. *)
Theorem validate_needs_SpeakerDiarizationProtocol `{Framework}
    (env : Environment) (protocol : Protocol)
    (train_dir validation_dir subset : string) (fuel : nat) (w : world) :
  is_SpeakerDiarizationProtocol protocol = false →
  let run n := validate env protocol train_dir validation_dir subset n w in
  let weights_h5 := WEIGHTS_H5 train_dir 0 in
  (w_files (run fuel).2 = w_files w ∨
   w_files (run fuel).2 = <[der_txt validation_dir subset := []]> (w_files w)) ∧
  (∀ k sl configuration w1,
      (mkdir_p validation_dir;; load_configuration train_dir) w
      = (Ok configuration, w1) →
      k < fuel →
      (∀ j, j < k → isfile_at env j weights_h5 = false) →
      isfile_at env k weights_h5 = true →
      from_disk (train_dir +:+ "/architecture.yml") weights_h5 = Ok sl →
      (run fuel).1 = Raise (UnboundLocalError "der")).
Proof.
  intros Hsd. cbv beta zeta. rewrite !validate_unfold.
  pose proof (preserves_bind same_files (mkdir_p validation_dir)
                (λ _, load_configuration train_dir)
                ltac:(eauto with preserves)
                ltac:(intros; apply preserves_load_configuration; apply _) w)
    as Hsetup.
  destruct ((mkdir_p validation_dir;; load_configuration train_dir) w)
    as [[[[[name fe] duration] step]| |] w1]; [|by split; [left|]..].
  unfold same_files in Hsetup. simpl in Hsetup.
  split.
  - right.
    pose proof (loop_not_sd env protocol train_dir validation_dir subset name
                  fe duration step fuel validate_start
                  (open_w (der_txt validation_dir subset) w1).2 Hsd eq_refl)
      as Hloop.
    unfold same_files in Hloop.
    destruct (loop_prefix _ _ _ _) as [[[l|l]| |] w2]; simpl in *;
      by rewrite Hloop, Hsetup.
  - intros k sl _ _ _ Hk Hmiss Hfile Hdisk.
    pose proof (loop_unbound env protocol train_dir validation_dir subset name
                  fe duration step k fuel validate_start
                  (open_w (der_txt validation_dir subset) w1).2 sl Hsd eq_refl
                  Hk Hmiss Hfile Hdisk) as Hloop.
    destruct (loop_prefix _ _ _ _) as [[[l|l]| |] w2]; simpl in *; congruence.
Qed.

(** C4, witness: a run over the disk left by an earlier validation opens
    an empty [der.txt] and then only adds to it. *)
Lemma validate_der_txt_within_run_witness :
  let path := der_txt Frames.validation_dir "development" in
  let run n :=
    validate Frames.all_there (Frames.protocol true [Frames.file_a; Frames.file_b])
      Frames.train_dir Frames.validation_dir "development" n
      Frames.validated_before in
  file_content (run 0).2 path = [] ∧
  file_content (run 1).2 path `prefix_of` file_content (run 2).2 path.
Proof.
  destruct (validate_der_txt_within_run Frames.all_there
              (Frames.protocol true [Frames.file_a; Frames.file_b])
              Frames.train_dir Frames.validation_dir "development" 1
              Frames.validated_before) as [Hopen Hgrows].
  split; [|exact Hgrows].
  eapply Hopen. vm_compute. reflexivity.
Defined.

(** C4, counterexample: the DER line of an earlier run is gone after two
    epochs of a new run, so what the file held is not preserved. *)
Lemma validate_discards_earlier_der_txt :
  let path := der_txt Frames.validation_dir "development" in
  let after :=
    (validate Frames.all_there (Frames.protocol true [Frames.file_a; Frames.file_b])
       Frames.train_dir Frames.validation_dir "development" 2
       Frames.validated_before).2 in
  file_content Frames.validated_before path
  = [DDer 0 "yesterday" (Frames.q 1 4)] ∧
  ¬ (file_content Frames.validated_before path `prefix_of`
     file_content after path).
Proof.
  split; [reflexivity|].
  intros [lines Hlines]. vm_compute in Hlines. discriminate Hlines.
Qed.

(** C10, witness: with a protocol of another kind, [validate] sleeps
    until the weights of epoch 0 are there and then fails on [der]. *)
Lemma validate_needs_SpeakerDiarizationProtocol_witness :
  is_SpeakerDiarizationProtocol (Frames.protocol false [Frames.file_a]) = false ∧
  (validate Frames.late (Frames.protocol false [Frames.file_a])
     Frames.train_dir Frames.validation_dir "development" 3 Frames.trained).1
  = Raise (UnboundLocalError "der").
Proof.
  split; [reflexivity|].
  eapply (proj2 (validate_needs_SpeakerDiarizationProtocol Frames.late
                   (Frames.protocol false [Frames.file_a])
                   Frames.train_dir Frames.validation_dir "development" 3
                   Frames.trained eq_refl)) with (k := 2).
  - vm_compute. reflexivity.
  - lia.
  - intros j Hj. apply bool_decide_eq_false. lia.
  - reflexivity.
  - reflexivity.
Defined.

(** ** Tune mode: the objective function *)

Section purity.
Context `{Domain}.

Lemma pure_ret {A} (a : A) : pure (mret a : M A).
Proof. by exists (Ok a). Qed.

Lemma pure_raise {A} (e : exn) : pure (raise e : M A).
Proof. by exists (Raise e). Qed.

Lemma pure_bind {A B} (m : M A) (f : A → M B) :
  pure m → (∀ a, pure (f a)) → pure (m ≫= f).
Proof.
  intros [r Hm] Hf. destruct r as [a|e|].
  - destruct (Hf a) as [r' Hfa]. exists r'. intros w.
    by rewrite bind_run, Hm, Hfa.
  - exists (Raise e). intros w. by rewrite bind_run, Hm.
  - exists Running. intros w. by rewrite bind_run, Hm.
Qed.

Lemma pure_for_each {A S} (l : list A) (body : A → S → M S) (s : S) :
  (∀ a s, pure (body a s)) → pure (for_each l body s).
Proof.
  intros Hbody. revert s. induction l as [|a l IH]; intros s.
  - apply pure_ret.
  - apply pure_bind; [apply Hbody|apply IH].
Qed.

End purity.

Section objective.
Context `{Framework}.
Context (protocol : Protocol) (train_dir subset architecture_yml : string).
Context (fe : feature_extraction) (duration step : yaml).
Context (epoch : nat) (onset offset : Qc).
Context (aggregation : SequenceLabelingAggregation).

Local Abbreviation DER := (DetectionErrorRate default_collar).
Local Abbreviation file_step :=
  (objective_file epoch onset offset aggregation).

(** The components [error] gains on a file whose prediction is [p]. *)
Local Abbreviation detail dev_file r p :=
  (compute_components DER r (binarize_apply onset offset p)
     (get_annotated dev_file)).

Lemma pure_objective_file dev_file s : pure (file_step dev_file s).
Proof.
  unfold objective_file. destruct s as [predictions error].
  apply pure_bind; [|intros reference].
  { unfold subscript_annotation. destruct (item_annotation _);
      [apply pure_ret|apply pure_raise]. }
  apply pure_bind; [|intros by_uri].
  { destruct (_ !! _); [apply pure_ret|apply pure_raise]. }
  destruct (by_uri !! _); cbn; apply pure_ret.
Qed.

(** A file whose prediction is cached: the cache is left as it is. *)
Lemma objective_file_hit dev_file predictions error w r p :
  item_annotation dev_file = Some r →
  cached predictions epoch (get_unique_identifier dev_file) = Some p →
  file_step dev_file (predictions, error) w =
  (Ok (predictions, add_components DER error (detail dev_file r p)), w).
Proof.
  intros Hr Hp. unfold cached in Hp.
  destruct (predictions !! epoch) as [by_uri|] eqn:Hepoch; [|done].
  simpl in Hp. unfold objective_file, subscript_annotation.
  rewrite Hr, Hepoch. repeat (rewrite bind_run, mret_run). by rewrite Hp.
Qed.

(** What a file that goes through does: it had a reference, the cache
    gains at most its own prediction, which is the one the file used. *)
Lemma objective_file_Ok dev_file predictions error w predictions' error' w' :
  file_step dev_file (predictions, error) w = (Ok (predictions', error'), w') →
  ∃ r p,
    item_annotation dev_file = Some r ∧
    cached predictions' epoch (get_unique_identifier dev_file) = Some p ∧
    error' = add_components DER error (detail dev_file r p) ∧
    is_Some (predictions' !! epoch) ∧
    (∀ uri q, cached predictions epoch uri = Some q →
              cached predictions' epoch uri = Some q).
Proof.
  unfold objective_file, subscript_annotation. intros Hrun.
  destruct (item_annotation dev_file) as [r|] eqn:Hr; [|done].
  destruct (predictions !! epoch) as [by_uri|] eqn:Hepoch; [|done].
  repeat (rewrite bind_run, mret_run in Hrun).
  destruct (by_uri !! get_unique_identifier dev_file) as [p|] eqn:Hp.
  - injection Hrun as <- <- <-. exists r, p. repeat split; [|by eauto|done].
    unfold cached. by rewrite Hepoch.
  - injection Hrun as <- <- <-.
    exists r, (aggregation_apply aggregation dev_file). repeat split.
    + unfold cached. rewrite lookup_insert_eq. simpl.
      by rewrite lookup_insert_eq.
    + rewrite lookup_insert_eq. by eauto.
    + intros uri q. unfold cached. rewrite Hepoch, lookup_insert_eq. simpl.
      intros Hq. rewrite lookup_insert_ne; [done|]. congruence.
Qed.

(** A loop that went through can be run again from any cache that holds
    at least what it left: the cache stays and the same components are
    added. *)
Lemma objective_loop_again (files : list item) :
  ∀ predictions error w predictions' error' w',
    for_each files file_step (predictions, error) w
    = (Ok (predictions', error'), w') →
    (is_Some (predictions !! epoch) → is_Some (predictions' !! epoch)) ∧
    (∀ uri q, cached predictions epoch uri = Some q →
              cached predictions' epoch uri = Some q) ∧
    ∃ details,
      error' = foldl (add_components DER) error details ∧
      ∀ predictions2 error2 w2,
        (∀ uri q, cached predictions' epoch uri = Some q →
                  cached predictions2 epoch uri = Some q) →
        for_each files file_step (predictions2, error2) w2
        = (Ok (predictions2, foldl (add_components DER) error2 details), w2).
Proof.
  induction files as [|dev_file files IH];
    intros predictions error w predictions' error' w' Hrun.
  - injection Hrun as <- <- <-. do 2 (split; [done|]). by exists [].
  - cbn [for_each] in Hrun.
    apply bind_Ok_inv in Hrun as ([predictions1 error1] & w1 & Hfile & Hrest).
    apply objective_file_Ok in Hfile as (r & p & Hr & Hp & -> & Hsome & Hkeep).
    apply IH in Hrest as (Hsome' & Hkeep' & details & -> & Hagain).
    do 2 (split; [by eauto|]).
    exists (detail dev_file r p :: details). split; [done|].
    intros predictions2 error2 w2 Hext. cbn [for_each].
    rewrite (bind_Ok _ _ _ _ _
               (objective_file_hit dev_file predictions2 error2 w2 r p Hr
                  (Hext _ _ (Hkeep' _ _ Hp)))).
    by apply Hagain.
Qed.

End objective.

Section objective_function.
Context `{Framework}.

Lemma SequenceLabeling_from_disk_run architecture_yml weights_h5 (w : world) :
  SequenceLabeling_from_disk architecture_yml weights_h5 w =
  (from_disk architecture_yml weights_h5,
   {| w_files := w_files w; w_dirs := w_dirs w;
      w_log := w_log w ++ [EFromDisk architecture_yml weights_h5] |}).
Proof. reflexivity. Qed.

Lemma getattr_subset_Ok protocol subset (w w' : world) files :
  getattr_subset protocol subset w = (Ok files, w') →
  subset_files protocol subset = Some files ∧ w' = w.
Proof.
  unfold getattr_subset. destruct (subset_files _ _); [|done].
  by intros [= -> ->].
Qed.

End objective_function.

(** C9. An evaluation of the objective function that returns a score
    returns that score again on the same parameters: from the same cache
    in any state of the disk, and from the cache the first evaluation
    left behind, which a second evaluation leaves as it is. *)
Theorem objective_function_deterministic `{Framework} (protocol : Protocol)
    (train_dir subset architecture_yml : string) (fe : feature_extraction)
    (duration step : yaml) (parameters : nat * Qc * Qc)
    (predictions predictions' : gmap nat (gmap string soft)) (score : Qc)
    (w w' : world) :
  objective_function protocol train_dir subset architecture_yml fe duration
    step parameters predictions w = (Ok (score, predictions'), w') →
  (∀ w2, (objective_function protocol train_dir subset architecture_yml fe
            duration step parameters predictions w2).1
         = Ok (score, predictions')) ∧
  (∀ w2, (objective_function protocol train_dir subset architecture_yml fe
            duration step parameters predictions' w2).1
         = Ok (score, predictions')).
Proof.
  destruct parameters as [[epoch onset] offset]. unfold objective_function.
  intros Hrun.
  rewrite bind_run, SequenceLabeling_from_disk_run in Hrun.
  destruct (from_disk architecture_yml (WEIGHTS_H5 train_dir epoch))
    as [sl| |] eqn:Hdisk; [|done..].
  apply bind_Ok_inv in Hrun as (files & w1 & Hfiles & Hrun).
  apply getattr_subset_Ok in Hfiles as [Hfiles ->].
  apply bind_Ok_inv in Hrun as ([cache error] & w2 & Hloop & Hrun).
  injection Hrun as <- <- <-.
  set (aggregation := {| agg_sequence_labeling := sl;
                         agg_feature_extraction := fe;
                         agg_duration := duration; agg_step := step;
                         cache_preprocessed_ := None |}) in *.
  assert (getattr_subset protocol subset = mret files) as Hget.
  { unfold getattr_subset. by rewrite Hfiles. }
  split; intros w3; rewrite bind_run, SequenceLabeling_from_disk_run, Hdisk;
    rewrite Hget, bind_run, mret_run.
  - destruct (pure_for_each files
                (objective_file epoch onset offset aggregation)
                (match predictions !! epoch with
                 | Some _ => predictions
                 | None => <[epoch:=∅]> predictions
                 end,
                 init_components (DetectionErrorRate default_collar))
                (pure_objective_file epoch onset offset aggregation))
      as [r Hr].
    rewrite Hr in Hloop. injection Hloop as -> _.
    by rewrite bind_run, Hr.
  - apply objective_loop_again in Hloop as (Hsome & _ & details & -> & Hagain).
    destruct Hsome as [by_uri Hepoch].
    { destruct (predictions !! epoch) eqn:Hp; [rewrite Hp; by eauto|].
      rewrite lookup_insert_eq. by eauto. }
    rewrite Hepoch, bind_run. rewrite Hagain; [done|auto].
Qed.

(** C9, witness: the objective at epoch 2, onset 0.5, offset 0.5, from an
    empty cache, and again from the cache it filled. *)
Lemma objective_function_deterministic_witness :
  ∃ score predictions' w',
    objective_function (Frames.protocol true [Frames.file_a; Frames.file_b])
      Frames.train_dir "development"
      (Frames.train_dir +:+ "/architecture.yml") "YaafeMFCC"
      (YFloat (Frames.q 32 10)) (YFloat (Frames.q 8 10))
      (2, Frames.q 1 2, Frames.q 1 2) ∅ Frames.trained
    = (Ok (score, predictions'), w') ∧
    score = Frames.q 3 2 ∧
    (objective_function (Frames.protocol true [Frames.file_a; Frames.file_b])
       Frames.train_dir "development"
       (Frames.train_dir +:+ "/architecture.yml") "YaafeMFCC"
       (YFloat (Frames.q 32 10)) (YFloat (Frames.q 8 10))
       (2, Frames.q 1 2, Frames.q 1 2) predictions' w').1
    = Ok (score, predictions').
Proof.
  eexists _, _, _. split; [vm_compute; reflexivity|].
  split; [apply Qc_is_canon; reflexivity|].
  eapply (proj2 (objective_function_deterministic _ _ _ _ _ _ _ _ ∅ _ _
                   Frames.trained _ _)).
  Unshelve. 2: { vm_compute. reflexivity. }
Defined.

(** ** Tune mode: the call of the optimizer and its callback *)

Section strings.

Lemma string_length_app (a b : string) :
  String.length (a +:+ b) = String.length a + String.length b.
Proof.
  induction a as [|c a IH]; [done|].
  rewrite string_app_cons. simpl. by rewrite IH.
Qed.

(** Two paths under one directory differ when their names do. *)
Lemma path_ne (dir name1 name2 : string) :
  name1 ≠ name2 → dir +:+ name1 ≠ dir +:+ name2.
Proof. intros Hne Heq. by apply (inj (String.app dir)) in Heq. Qed.

Lemma path_ne_length (dir name1 name2 : string) :
  String.length name1 ≠ String.length name2 → dir +:+ name1 ≠ dir +:+ name2.
Proof. intros Hne. apply path_ne. congruence. Qed.

End strings.

(** Proves that two of the script's paths differ. *)
Ltac solve_path_ne :=
  unfold tune_yml, convergence_png, evaluation_png, objective_png, tune_gz,
    der_txt, der_png, SOFT_PKL, HARD_JSON, eval_txt;
  first
    [ apply path_ne; discriminate
    | apply path_ne_length;
      rewrite ?string_length_app; simpl; lia ].

#[global] Hint Extern 1 (@preserves _ _ (@untouched _ _) (@write_file _ _ _)) =>
  apply preserves_untouched_write_file; solve_path_ne : preserves.
#[global] Hint Extern 1 (@preserves _ _ (@untouched _ _) (@savefig _ _ _)) =>
  apply preserves_untouched_write_file; solve_path_ne : preserves.

Section tuning.
Context `{Framework}.
Context (tune_dir : string) (nb_epoch : nat) (res : OptimizeResult).

Lemma file_content_write_file path r (w : world) :
  file_content (write_file path r w).2 path = [r].
Proof.
  rewrite write_file_run, file_content_set_file. by case_decide.
Qed.

(** A computation that starts with a write of [path] and then leaves
    [path] alone ends with that write in [path]. *)
Lemma write_then_untouched {A} path r (m : M A) (w : world) :
  preserves (untouched path) m →
  file_content ((write_file path r;; m) w).2 path = [r].
Proof.
  intros Hm. rewrite bind_run.
  destruct (write_file path r w) as [[[]| |] w1] eqn:Hw;
    [|rewrite write_file_run in Hw; discriminate Hw..].
  rewrite (untouched_content _ _ _ (Hm _)).
  replace w1 with (write_file path r w).2 by (by rewrite Hw).
  apply file_content_write_file.
Qed.

End tuning.

Section callback_effects.
Context `{Framework}.
Context (tune_dir : string) (nb_epoch : nat) (res : OptimizeResult).

Lemma bind_snd {A B} (m : M A) (f : A → M B) (w w1 : world) (a : A) :
  m w = (Ok a, w1) → ((m ≫= f) w).2 = (f a w1).2.
Proof. intros Hm. by rewrite bind_run, Hm. Qed.

Lemma write_file_Ok path r (w : world) :
  write_file path r w = (Ok tt, (write_file path r w).2).
Proof. by rewrite write_file_run. Qed.

Lemma callback_tail_skip (w : world) :
  length (func_vals res) mod 10 ≠ 0 →
  callback_tail tune_dir res w = (Ok tt, w).
Proof.
  intros Hn. unfold callback_tail. rewrite bool_decide_true by lia. done.
Qed.

Lemma callback_tail_every_10th :
  length (func_vals res) mod 10 = 0 →
  callback_tail tune_dir res =
  (fig ← lift (plot_evaluations res);
   savefig (evaluation_png tune_dir) fig;;
   except_Exception_pass
     (fig ← lift (plot_objective res);
      savefig (objective_png tune_dir) fig);;
   args ← del_key "func" (specs_args res);
   args ← del_key "callback" args;
   write_file (tune_gz tune_dir)
     (DResult {| x := x res; func_vals := func_vals res;
                 x_iters := x_iters res; specs_args := args |})).
Proof.
  intros Hn. unfold callback_tail. rewrite bool_decide_false by lia. done.
Qed.

Lemma callback_tail_untouched path :
  path ≠ evaluation_png tune_dir → path ≠ objective_png tune_dir →
  path ≠ tune_gz tune_dir →
  preserves (untouched path) (callback_tail tune_dir res).
Proof.
  intros Hev Hobj Hgz. unfold callback_tail, savefig.
  repeat first
    [ apply preserves_untouched_write_file; congruence
    | preserves_step ].
Qed.

(** The dump of the results leaves the plots alone. *)
Lemma callback_dump_untouched path :
  path ≠ tune_gz tune_dir →
  preserves (untouched path)
    (args ← del_key "func" (specs_args res);
     args ← del_key "callback" args;
     write_file (tune_gz tune_dir)
       (DResult {| x := x res; func_vals := func_vals res;
                   x_iters := x_iters res; specs_args := args |})).
Proof.
  intros Hgz.
  repeat first
    [ apply preserves_untouched_write_file; congruence
    | preserves_step ].
Qed.

(** On a trial that is no multiple of 10 only [tune.yml] and the
    convergence plot are written. *)
Lemma callback_skip_untouched path :
  length (func_vals res) mod 10 ≠ 0 →
  path ≠ tune_yml tune_dir → path ≠ convergence_png tune_dir →
  preserves (untouched path) (callback tune_dir nb_epoch res).
Proof.
  intros Hn Hyml Hpng. unfold callback, savefig.
  apply preserves_bind; [apply _..| |intros _].
  { apply preserves_untouched_write_file. congruence. }
  apply preserves_bind; [apply _..|eauto with preserves|intros fig].
  apply preserves_bind; [apply _..| |intros _].
  { apply preserves_untouched_write_file. congruence. }
  intros w'. by rewrite callback_tail_skip.
Qed.

Lemma callback_snd (w : world) fig :
  plot_convergence res = Ok fig →
  (callback tune_dir nb_epoch res w).2 =
  ((savefig (convergence_png tune_dir) fig;; callback_tail tune_dir res)
     (write_file (tune_yml tune_dir)
        (DYaml (tune_params nb_epoch (x res))) w).2).2.
Proof.
  intros Hconv. unfold callback. rewrite Hconv.
  rewrite (bind_snd _ _ _ _ _ (write_file_Ok _ _ _)).
  by rewrite bind_run.
Qed.

Lemma callback_tail_snd (w : world) fig :
  length (func_vals res) mod 10 = 0 →
  plot_evaluations res = Ok fig →
  (callback_tail tune_dir res w).2 =
  ((except_Exception_pass
      (fig ← lift (plot_objective res);
       savefig (objective_png tune_dir) fig);;
    args ← del_key "func" (specs_args res);
    args ← del_key "callback" args;
    write_file (tune_gz tune_dir)
      (DResult {| x := x res; func_vals := func_vals res;
                  x_iters := x_iters res; specs_args := args |}))
     (write_file (evaluation_png tune_dir) (DFigure fig) w).2).2.
Proof.
  intros Hn Hev. rewrite callback_tail_every_10th by done. rewrite Hev.
  rewrite bind_run. unfold lift at 1. cbn beta iota.
  unfold savefig.
  by rewrite (bind_snd _ _ _ _ _ (write_file_Ok (evaluation_png tune_dir) _ _)).
Qed.

Lemma except_pass_savefig path fig (w : world) :
  plot_objective res = Ok fig →
  except_Exception_pass
    (fig ← lift (plot_objective res); savefig path fig) w
  = write_file path (DFigure fig) w.
Proof.
  intros Hobj. unfold except_Exception_pass. rewrite Hobj, bind_run.
  unfold lift, savefig. by rewrite write_file_run.
Qed.

Lemma except_pass_fails path e (w : world) :
  plot_objective res = Raise e →
  except_Exception_pass
    (fig ← lift (plot_objective res); savefig path fig) w
  = (Ok tt, w).
Proof. intros Hobj. unfold except_Exception_pass. by rewrite Hobj. Qed.

End callback_effects.

(** C6, as amended. After every trial [callback] writes the best point so
    far to [tune.yml] and regenerates the convergence plot; the plot of
    the evaluations and, when it can be drawn, the plot of the objective
    are regenerated exactly when the number of trials is a multiple of
    10: on any other trial they and [tune.gz] are left as they were. *)
Theorem callback_every_trial_and_every_10th `{Framework} (tune_dir : string)
    (nb_epoch : nat) (res : OptimizeResult) (w : world) :
  let n_trials := length (func_vals res) in
  let after := (callback tune_dir nb_epoch res w).2 in
  file_content after (tune_yml tune_dir)
  = [DYaml (tune_params nb_epoch (x res))] ∧
  (∀ fig, plot_convergence res = Ok fig →
          file_content after (convergence_png tune_dir) = [DFigure fig]) ∧
  (n_trials mod 10 ≠ 0 →
   untouched (evaluation_png tune_dir) w after ∧
   untouched (objective_png tune_dir) w after ∧
   untouched (tune_gz tune_dir) w after) ∧
  (n_trials mod 10 = 0 →
   ∀ fig fig', plot_convergence res = Ok fig → plot_evaluations res = Ok fig' →
     file_content after (evaluation_png tune_dir) = [DFigure fig'] ∧
     ∀ fig'', plot_objective res = Ok fig'' →
              file_content after (objective_png tune_dir) = [DFigure fig'']).
Proof.
  cbv zeta. repeat split.
  - unfold callback. apply write_then_untouched.
    apply preserves_bind; [apply _..|eauto with preserves|intros fig].
    apply preserves_bind; [apply _..|eauto with preserves|intros _].
    apply callback_tail_untouched; solve_path_ne.
  - intros fig Hconv. rewrite (callback_snd _ _ _ _ fig Hconv).
    unfold savefig. apply write_then_untouched.
    apply callback_tail_untouched; solve_path_ne.
  - apply callback_skip_untouched; [done|solve_path_ne..].
  - apply callback_skip_untouched; [done|solve_path_ne..].
  - apply callback_skip_untouched; [done|solve_path_ne..].
  - rewrite (callback_snd _ _ _ _ fig) by done. unfold savefig.
    rewrite (bind_snd _ _ _ _ _ (write_file_Ok (convergence_png tune_dir) _ _)).
    rewrite (callback_tail_snd _ _ _ fig') by done.
    match goal with
    | |- file_content (?m ?w0).2 _ = _ =>
        assert (preserves (untouched (evaluation_png tune_dir)) m) as Hrest
    end.
    { apply preserves_bind; [apply _..| |intros _].
      - apply preserves_except_Exception_pass; [apply _..|].
        apply preserves_bind; [apply _..|eauto with preserves|intros ?].
        apply preserves_untouched_write_file. solve_path_ne.
      - apply callback_dump_untouched. solve_path_ne. }
    rewrite (untouched_content _ _ _ (Hrest _)).
    apply file_content_write_file.
  - intros fig'' Hobj.
    rewrite (callback_snd _ _ _ _ fig) by done. unfold savefig.
    rewrite (bind_snd _ _ _ _ _ (write_file_Ok (convergence_png tune_dir) _ _)).
    rewrite (callback_tail_snd _ _ _ fig') by done.
    rewrite bind_run. erewrite except_pass_savefig by done.
    rewrite write_file_Ok.
    rewrite (untouched_content _ _ _
               (callback_dump_untouched tune_dir res (objective_png tune_dir)
                  ltac:(solve_path_ne) _)).
    apply file_content_write_file.
Qed.

(** C6, witness: after the tenth trial the two plots are regenerated. *)
Lemma callback_every_trial_and_every_10th_witness :
  let after :=
    (callback Frames.tune_dir 3 (Frames.after_trials 10) Frames.trained).2 in
  length (func_vals (Frames.after_trials 10)) mod 10 = 0 ∧
  file_content after (evaluation_png Frames.tune_dir)
  = [DFigure (func_vals (Frames.after_trials 10))] ∧
  file_content after (objective_png Frames.tune_dir)
  = [DFigure (func_vals (Frames.after_trials 10))].
Proof.
  destruct (callback_every_trial_and_every_10th Frames.tune_dir 3
              (Frames.after_trials 10) Frames.trained)
    as (_ & _ & _ & Htenth).
  destruct (Htenth eq_refl _ _ eq_refl eq_refl) as [Hevaluation Hobjective].
  split; [reflexivity|]. split; [exact Hevaluation|].
  exact (Hobjective _ eq_refl).
Defined.

(** C6, counterexample: the convergence plot is regenerated after the
    first trial, which is no tenth trial. *)
Lemma callback_plots_convergence_on_first_trial :
  let after :=
    (callback Frames.tune_dir 3 (Frames.after_trials 1) Frames.trained).2 in
  length (func_vals (Frames.after_trials 1)) mod 10 ≠ 0 ∧
  file_content Frames.trained (convergence_png Frames.tune_dir) = [] ∧
  file_content after (convergence_png Frames.tune_dir)
  = [DFigure (func_vals (Frames.after_trials 1))].
Proof.
  split; [vm_compute; discriminate|]. split; reflexivity.
Qed.

(** ** Tune mode: the call of the optimizer *)

Section scan_result.

(** What an answer of the scanner means. *)
Lemma scan_epochs_Some (isfile : string → bool) (train_dir : string) :
  ∀ fuel start n,
    scan_epochs isfile train_dir fuel start = Some n →
    start ≤ n ∧
    isfile (WEIGHTS_H5 train_dir n) = false ∧
    ∀ e, start ≤ e < n → isfile (WEIGHTS_H5 train_dir e) = true.
Proof.
  induction fuel as [|fuel IH]; intros start n Hscan; [done|].
  simpl in Hscan.
  destruct (isfile (WEIGHTS_H5 train_dir start)) eqn:Hstart; simpl in Hscan.
  - apply IH in Hscan as (Hle & Hgap & Hbelow).
    split; [lia|]. split; [done|].
    intros e He. destruct (decide (e = start)) as [->|]; [done|].
    apply Hbelow. lia.
  - injection Hscan as <-. split; [lia|]. split; [done|].
    intros e He. lia.
Qed.

End scan_result.

(** C5. When [tune] reaches the optimizer, the call has a budget of 1000
    trials of which 10 are random starts, the seed 1337 (also given to
    numpy), and the domains [0 .. nb_epoch - 1] for the epoch and the
    uniform reals of [0, 1] for onset and offset, where [nb_epoch] is
    what the scanner returned: the number of consecutive checkpoints. *)
Theorem tune_optimizer_call `{Framework} (protocol : Protocol)
    (train_dir tune_dir subset : string) (fuel : nat) (w w' : world)
    (call : gp_minimize_call) :
  tune protocol train_dir tune_dir subset fuel w = (Ok call, w') →
  ∃ nb_epoch,
    scan_epochs (os_path_isfile w) train_dir fuel 0 = Some nb_epoch ∧
    (WEIGHTS_H5 train_dir nb_epoch ∉ dom (w_files w)) ∧
    (∀ e, e < nb_epoch → WEIGHTS_H5 train_dir e ∈ dom (w_files w)) ∧
    n_calls call = 1000 ∧
    n_random_starts call = 10 ∧
    random_state call = 1337%Z ∧
    ESeed 1337 ∈ w_log w' ∧
    gp_dimensions call =
      [Integer 0 (Z.of_nat nb_epoch - 1);
       Real 0 1 "uniform"; Real 0 1 "uniform"].
Proof.
  unfold tune. intros Hrun.
  apply bind_Ok_inv in Hrun as ([] & w1 & Hseed & Hrun).
  apply bind_Ok_inv in Hrun as ([] & w2 & Hmk & Hrun).
  apply bind_Ok_inv in Hrun as (nb_epoch & w3 & Hscan & Hrun).
  apply bind_Ok_inv in Hrun as ([[[name fe] duration] step] & w4 & Hcfg & Hrun).
  injection Hrun as <- <-.
  injection Hseed as <-.
  assert (w_files w2 = w_files w ∧ w_log w2 = w_log w ++ [ESeed 1337])
    as [Hfiles2 Hlog2].
  { unfold os_makedirs in Hmk. case_bool_decide; [done|].
    by injection Hmk as <-. }
  destruct (scan_epochs (os_path_isfile w2) train_dir fuel 0)
    as [n|] eqn:Hn; [|done].
  injection Hscan as -> <-.
  assert (os_path_isfile w2 = os_path_isfile w) as Hisfile.
  { unfold os_path_isfile. by rewrite Hfiles2. }
  rewrite Hisfile in Hn.
  pose proof (@preserves_load_configuration _ _ eq _ _ train_dir w2) as Hsame.
  rewrite Hcfg in Hsame. simpl in Hsame. subst w4.
  apply scan_epochs_Some in Hn as Hspec. destruct Hspec as (_ & Hgap & Hbelow).
  exists nb_epoch. split; [done|].
  split. { by apply bool_decide_eq_false in Hgap. }
  split. { intros e He. eapply bool_decide_eq_true, (Hbelow e). lia. }
  do 3 (split; [done|]).
  split; [|done].
  rewrite Hlog2. apply elem_of_app. right. by apply list_elem_of_singleton.
Qed.

(** C5, witness: tuning after three epochs of training searches the
    epochs 0 to 2. *)
Lemma tune_optimizer_call_witness :
  ∃ call w',
    tune (Frames.protocol true [Frames.file_a; Frames.file_b])
      Frames.train_dir Frames.tune_dir "development" 4 Frames.trained
    = (Ok call, w') ∧
    n_calls call = 1000 ∧ n_random_starts call = 10 ∧
    random_state call = 1337%Z ∧
    gp_dimensions call =
      [Integer 0 2; Real 0 1 "uniform"; Real 0 1 "uniform"].
Proof.
  assert (is_Ok (tune (Frames.protocol true [Frames.file_a; Frames.file_b])
                   Frames.train_dir Frames.tune_dir "development" 4
                   Frames.trained).1 = true) as Hok
    by (vm_compute; reflexivity).
  destruct (tune _ _ _ _ _ _) as [[call| |] w'] eqn:Hrun;
    [|discriminate Hok..].
  exists call, w'. split; [reflexivity|].
  destruct (tune_optimizer_call _ _ _ _ _ _ _ _ Hrun)
    as (nb_epoch & Hscan & _ & _ & Hcalls & Hstarts & Hstate & _ & Hdims).
  vm_compute in Hscan. injection Hscan as <-.
  repeat split; assumption.
Defined.

(** ** Apply mode: the scoring loop *)

Section scoring.
Context `{Framework}.
Context (aggregation : SequenceLabelingAggregation).
Context (onset offset beta : Qc) (apply_dir : string).

Local Abbreviation eval := (eval_txt apply_dir).
Local Abbreviation step := (scoring_step aggregation onset offset beta).

Lemma mkdir_p_run dir (w : world) :
  ∃ w', mkdir_p dir w = (Ok tt, w') ∧ w_files w' = w_files w.
Proof. unfold mkdir_p. case_bool_decide; eauto. Qed.

Lemma try_annotations (file : item) (w : world) :
  except_KeyError
    (reference ← subscript_annotation file;
     uem ← subscript_annotated file;
     mret (Some (reference, uem)))
    (mret None) w
  = (Ok (scored file), w).
Proof.
  unfold except_KeyError, scored, subscript_annotation, subscript_annotated.
  rewrite bind_run.
  destruct (item_annotation file) as [r|]; [|done].
  rewrite mret_run, bind_run.
  by destruct (item_annotated file) as [uem|].
Qed.

Lemma eval_line_scored (file : item) r uem :
  scored file = Some (r, uem) →
  eval_line aggregation onset offset beta file =
  let hard := binarize_apply onset offset (aggregation_apply aggregation file) in
  let p := compute_metric DetectionPrecision
             (compute_components DetectionPrecision r hard uem) in
  let q := compute_metric DetectionRecall
             (compute_components DetectionRecall r hard uem) in
  Some (DEval (get_unique_identifier file) p q (Float (f_measure p q beta))).
Proof.
  intros Hs. unfold eval_line, file_metric, file_components. by rewrite Hs.
Qed.

Lemma eval_line_unscored (file : item) :
  scored file = None → eval_line aggregation onset offset beta file = None.
Proof.
  intros Hs. unfold eval_line, file_metric, file_components. by rewrite Hs.
Qed.

(** One file: the variables move by [scoring_step] and [eval.txt] gains
    the line of the file, if it has one. *)
Lemma score_file_run (file : item) (s : scoring_locals) (w : world) :
  ∃ w',
    score_file aggregation onset offset apply_dir beta file s w
    = (Ok (step s file), w') ∧
    file_content w' eval =
    file_content w eval
    ++ option_list (eval_line aggregation onset offset beta file).
Proof.
  unfold score_file.
  destruct (mkdir_p_run
              (dirname (SOFT_PKL apply_dir (get_unique_identifier file))) w)
    as (w1 & Hmk1 & Hfiles1).
  rewrite (bind_Ok _ _ _ _ _ Hmk1).
  rewrite (bind_Ok _ _ _ _ _ (write_file_Ok _ _ _)).
  set (w2 := (write_file _ _ w1).2).
  destruct (mkdir_p_run
              (dirname (HARD_JSON apply_dir (get_unique_identifier file))) w2)
    as (w3 & Hmk3 & Hfiles3).
  rewrite (bind_Ok _ _ _ _ _ Hmk3).
  rewrite (bind_Ok _ _ _ _ _ (write_file_Ok _ _ _)).
  set (w4 := (write_file _ _ w3).2).
  assert (file_content w4 eval = file_content w eval) as Hcontent.
  { unfold w4. rewrite write_file_run, file_content_set_file.
    case_decide as Hp; [by destruct (ltac:(solve_path_ne) : HARD_JSON apply_dir (get_unique_identifier file) ≠ eval)|].
    unfold file_content at 1. rewrite Hfiles3. fold (file_content w2 eval).
    unfold w2. rewrite write_file_run, file_content_set_file.
    case_decide as Hq; [by destruct (ltac:(solve_path_ne) : SOFT_PKL apply_dir (get_unique_identifier file) ≠ eval)|].
    unfold file_content. by rewrite Hfiles1. }
  rewrite (bind_Ok _ _ _ _ _ (try_annotations file w4)).
  unfold scoring_step.
  destruct (scored file) as [[r uem]|] eqn:Hscored.
  - rewrite (eval_line_scored file r uem Hscored).
    unfold metric_call. cbn beta iota zeta.
    eexists. split.
    { rewrite bind_run. unfold append_file, fp_write, set_file. reflexivity. }
    unfold file_content at 1. cbn [w_files]. rewrite lookup_insert_eq.
    cbn [default]. by rewrite Hcontent.
  - rewrite (eval_line_unscored file Hscored). exists w4.
    split; [done|]. by rewrite Hcontent, app_nil_r.
Qed.

(** The whole loop. *)
Lemma score_files_run (files : list item) :
  ∀ (s : scoring_locals) (w : world),
    ∃ w',
      for_each files (score_file aggregation onset offset apply_dir beta) s w
      = (Ok (foldl step s files), w') ∧
      file_content w' eval =
      file_content w eval
      ++ omap (eval_line aggregation onset offset beta) files.
Proof.
  induction files as [|file files IH]; intros s w.
  - exists w. split; [done|]. by rewrite app_nil_r.
  - destruct (score_file_run file s w) as (w1 & Hfile & Hline).
    destruct (IH (step s file) w1) as (w' & Hfiles & Hlines).
    exists w'. cbn [for_each foldl]. rewrite (bind_Ok _ _ _ _ _ Hfile).
    split; [done|]. rewrite Hlines, Hline, <- app_assoc. f_equal.
    cbn [omap list_omap]. by destruct (eval_line _ _ _ _ file).
Qed.

End scoring.

Section scoring_totals.
Context `{Framework}.
Context (aggregation : SequenceLabelingAggregation).
Context (onset offset beta : Qc) (apply_dir : string).

Local Abbreviation step := (scoring_step aggregation onset offset beta).

Lemma file_f_measure_scored (file : item) r uem :
  scored file = Some (r, uem) →
  file_f_measure aggregation onset offset beta file =
  let hard := binarize_apply onset offset (aggregation_apply aggregation file) in
  Some (f_measure
          (compute_metric DetectionPrecision
             (compute_components DetectionPrecision r hard uem))
          (compute_metric DetectionRecall
             (compute_components DetectionRecall r hard uem))
          beta).
Proof.
  intros Hs. unfold file_f_measure, file_metric, file_components.
  by rewrite Hs.
Qed.

(** The variables after the loop, in the words of the specification. *)
Lemma scoring_totals (files : list item) :
  ∀ s : scoring_locals,
    s_precision (foldl step s files) =
    foldl (add_components DetectionPrecision) (s_precision s)
      (omap (file_components DetectionPrecision aggregation onset offset) files) ∧
    s_recall (foldl step s files) =
    foldl (add_components DetectionRecall) (s_recall s)
      (omap (file_components DetectionRecall aggregation onset offset) files) ∧
    s_fscore (foldl step s files) =
    s_fscore s ++ omap (file_f_measure aggregation onset offset beta) files.
Proof.
  induction files as [|file files IH]; intros s.
  - cbn. by rewrite app_nil_r.
  - cbn [foldl omap list_omap].
    destruct (IH (step s file)) as (Hp & Hr & Hf).
    rewrite Hp, Hr, Hf. unfold scoring_step, file_components.
    destruct (scored file) as [[r uem]|] eqn:Hs.
    + rewrite (file_f_measure_scored file r uem Hs).
      cbn. by rewrite <- app_assoc.
    + unfold file_f_measure, file_metric, file_components. by rewrite Hs.
Qed.

(** The scoring loop and its last line. *)
Lemma test_scoring_run (protocol : Protocol) (subset : string)
    (files : list item) (w : world) :
  subset_files protocol subset = Some files →
  ∃ w',
    test_scoring aggregation onset offset protocol apply_dir subset beta w
    = (Ok tt, w') ∧
    file_content w' (eval_txt apply_dir) =
    file_content w (eval_txt apply_dir)
    ++ omap (eval_line aggregation onset offset beta) files
    ++ [DEval "ALL"
          (micro_average DetectionPrecision aggregation onset offset files)
          (micro_average DetectionRecall aggregation onset offset files)
          (mean_f_measure aggregation onset offset beta files)].
Proof.
  intros Hfiles. unfold test_scoring, getattr_subset. rewrite Hfiles.
  rewrite bind_run, mret_run.
  destruct (score_files_run aggregation onset offset beta apply_dir files
              {| s_precision := init_components DetectionPrecision;
                 s_recall := init_components DetectionRecall;
                 s_fscore := [] |} w) as (w1 & Hloop & Hlines).
  rewrite (bind_Ok _ _ _ _ _ Hloop).
  destruct (scoring_totals files
              {| s_precision := init_components DetectionPrecision;
                 s_recall := init_components DetectionRecall;
                 s_fscore := [] |}) as (Hp & Hr & Hf).
  unfold metric_abs. rewrite Hp, Hr, Hf. cbn [s_precision s_recall s_fscore].
  rewrite app_nil_l.
  eexists. split.
  { unfold append_file, fp_write, set_file. reflexivity. }
  unfold file_content at 1. cbn [w_files]. rewrite lookup_insert_eq.
  cbn [default]. rewrite Hlines, <- app_assoc. done.
Qed.

End scoring_totals.

(** A float known by the rational it is equal to. *)
Lemma pyfloat_is (a : pyfloat) (q : Qc) :
  match a with Float x => (x == q)%Q | NaN => False end → a = Float q.
Proof. destruct a as [x|]; [|done]. intros Hx. f_equal. by apply Qc_is_canon. Qed.

(** C1, as amended. The scoring loop of apply mode writes one line for
    every file that has a reference and an annotated region and then a
    last line with uri "ALL": its precision and recall are the
    micro-averages over those files, and its F-measure is the mean of
    their F-measures ([nan] when there is none). *)
Theorem test_scoring_ALL_line `{Framework}
    (aggregation : SequenceLabelingAggregation) (onset offset beta : Qc)
    (protocol : Protocol) (apply_dir subset : string) (files : list item)
    (w : world) :
  subset_files protocol subset = Some files →
  let run :=
    test_scoring aggregation onset offset protocol apply_dir subset beta w in
  run.1 = Ok tt ∧
  file_content run.2 (eval_txt apply_dir) =
  file_content w (eval_txt apply_dir)
  ++ omap (eval_line aggregation onset offset beta) files
  ++ [DEval "ALL"
        (micro_average DetectionPrecision aggregation onset offset files)
        (micro_average DetectionRecall aggregation onset offset files)
        (mean_f_measure aggregation onset offset beta files)].
Proof.
  intros Hfiles. cbv zeta.
  destruct (test_scoring_run aggregation onset offset beta apply_dir protocol
              subset files w Hfiles) as (w' & -> & Hcontent).
  by split.
Qed.

(** C1, witness: two test files. *)
Lemma test_scoring_ALL_line_witness :
  let files := [Frames.file_a; Frames.file_b] in
  let run :=
    test_scoring Frames.aggregation (Frames.q 1 2) (Frames.q 1 2)
      (Frames.protocol true files) Frames.apply_dir "test" 1%Qc Frames.tuned in
  subset_files (Frames.protocol true files) "test" = Some files ∧
  run.1 = Ok tt ∧
  last (file_content run.2 (eval_txt Frames.apply_dir)) =
  Some (DEval "ALL"
          (micro_average DetectionPrecision Frames.aggregation
             (Frames.q 1 2) (Frames.q 1 2) files)
          (micro_average DetectionRecall Frames.aggregation
             (Frames.q 1 2) (Frames.q 1 2) files)
          (mean_f_measure Frames.aggregation
             (Frames.q 1 2) (Frames.q 1 2) 1%Qc files)).
Proof.
  cbv zeta. split; [reflexivity|].
  destruct (test_scoring_ALL_line Frames.aggregation (Frames.q 1 2)
              (Frames.q 1 2) 1%Qc
              (Frames.protocol true [Frames.file_a; Frames.file_b])
              Frames.apply_dir "test" [Frames.file_a; Frames.file_b]
              Frames.tuned eq_refl) as [Hok Hcontent].
  split; [exact Hok|].
  rewrite Hcontent, !app_assoc. apply last_snoc.
Defined.

(** C1, counterexample: with one file detected perfectly and one not at
    all, precision and recall of the "ALL" line are the micro-averages
    (1/4) but its F-measure is the mean 1/2 of the F-measures 1 and 0,
    not the micro-averaged F-measure 1/4. *)
Lemma test_scoring_ALL_f_measure_is_not_micro :
  let files := [Frames.file_a; Frames.file_b] in
  let run :=
    test_scoring Frames.aggregation (Frames.q 1 2) (Frames.q 1 2)
      (Frames.protocol true files) Frames.apply_dir "test" 1%Qc Frames.tuned in
  ∃ f_all,
    last (file_content run.2 (eval_txt Frames.apply_dir)) =
    Some (DEval "ALL"
            (micro_average DetectionPrecision Frames.aggregation
               (Frames.q 1 2) (Frames.q 1 2) files)
            (micro_average DetectionRecall Frames.aggregation
               (Frames.q 1 2) (Frames.q 1 2) files)
            (Float f_all)) ∧
    f_all = Frames.q 1 2 ∧
    micro_f_measure Frames.aggregation (Frames.q 1 2) (Frames.q 1 2) 1%Qc files
    = Frames.q 1 4 ∧
    f_all ≠ micro_f_measure Frames.aggregation (Frames.q 1 2) (Frames.q 1 2)
              1%Qc files.
Proof.
  cbv zeta.
  destruct (test_scoring_run Frames.aggregation (Frames.q 1 2) (Frames.q 1 2)
              1%Qc Frames.apply_dir
              (Frames.protocol true [Frames.file_a; Frames.file_b])
              "test" [Frames.file_a; Frames.file_b]
              Frames.tuned eq_refl) as (w' & -> & Hcontent).
  cbn [snd]. rewrite Hcontent, !app_assoc, last_snoc.
  assert (mean_f_measure Frames.aggregation (Frames.q 1 2) (Frames.q 1 2) 1%Qc
            [Frames.file_a; Frames.file_b] = Float (Frames.q 1 2)) as ->.
  { apply pyfloat_is. vm_compute. reflexivity. }
  assert (micro_f_measure Frames.aggregation (Frames.q 1 2) (Frames.q 1 2) 1%Qc
            [Frames.file_a; Frames.file_b] = Frames.q 1 4) as Hmicro.
  { apply Qc_is_canon. reflexivity. }
  exists (Frames.q 1 2). split; [done|]. split; [done|]. split; [done|].
  rewrite Hmicro. intros Heq. apply (f_equal this) in Heq. discriminate Heq.
Qed.

(** ** What is skipped and what is ignored *)

Section skipping.
Context `{Framework}.

Lemma scored_None (file : item) :
  item_annotation file = None ∨ item_annotated file = None →
  scored file = None.
Proof.
  unfold scored. intros [-> | ->]; [done|].
  by destruct (item_annotation file).
Qed.

Lemma omap_skip {A B} (f : A → option B) (before after : list A) (a : A) :
  f a = None → omap f (before ++ a :: after) = omap f (before ++ after).
Proof.
  intros Ha. rewrite !omap_app. cbn [omap list_omap]. by rewrite Ha.
Qed.

(** The scoring of a file without reference or annotated region leaves
    [eval.txt] and the averages as if the file were not there. *)
Lemma test_scoring_skips (aggregation : SequenceLabelingAggregation)
    (onset offset beta : Qc) (protocol without : Protocol)
    (apply_dir subset : string) (before after : list item) (file : item)
    (w : world) :
  subset_files protocol subset = Some (before ++ file :: after) →
  subset_files without subset = Some (before ++ after) →
  item_annotation file = None ∨ item_annotated file = None →
  (test_scoring aggregation onset offset protocol apply_dir subset beta w).1
  = Ok tt ∧
  file_content
    (test_scoring aggregation onset offset protocol apply_dir subset beta w).2
    (eval_txt apply_dir) =
  file_content
    (test_scoring aggregation onset offset without apply_dir subset beta w).2
    (eval_txt apply_dir).
Proof.
  intros Hfiles Hwithout Hfile. apply scored_None in Hfile.
  destruct (test_scoring_run aggregation onset offset beta apply_dir protocol
              subset _ w Hfiles) as (w1 & -> & H1).
  destruct (test_scoring_run aggregation onset offset beta apply_dir without
              subset _ w Hwithout) as (w2 & -> & H2).
  split; [done|]. cbn [snd]. rewrite H1, H2.
  unfold micro_average, mean_f_measure.
  rewrite !(omap_skip _ before after file); [done|..];
    unfold file_f_measure, eval_line, file_metric, file_components;
    by rewrite Hfile.
Qed.

(** [callback] on a tenth trial whose objective plot cannot be drawn. *)
Lemma callback_objective_plot_fails (tune_dir : string) (nb_epoch : nat)
    (res : OptimizeResult) (w : world) fig fig' e :
  length (func_vals res) mod 10 = 0 →
  plot_convergence res = Ok fig →
  plot_evaluations res = Ok fig' →
  plot_objective res = Raise e →
  "func" ∈ specs_args res → "callback" ∈ specs_args res →
  callback tune_dir nb_epoch res w =
  (Ok tt,
   (write_file (tune_gz tune_dir)
      (DResult {| x := x res; func_vals := func_vals res;
                  x_iters := x_iters res;
                  specs_args := specs_args res ∖ {["func"]} ∖ {["callback"]} |})
      (write_file (evaluation_png tune_dir) (DFigure fig')
         (write_file (convergence_png tune_dir) (DFigure fig)
            (write_file (tune_yml tune_dir)
               (DYaml (tune_params nb_epoch (x res))) w).2).2).2).2).
Proof.
  intros Hn Hconv Hev Hobj Hfunc Hcallback. unfold callback, savefig.
  rewrite (bind_Ok _ _ _ _ _ (write_file_Ok _ _ _)).
  rewrite Hconv, bind_run. unfold lift at 1. cbn beta iota.
  rewrite (bind_Ok _ _ _ _ _ (write_file_Ok _ _ _)).
  rewrite callback_tail_every_10th by done.
  rewrite Hev, bind_run. unfold lift at 1. cbn beta iota. unfold savefig.
  rewrite (bind_Ok _ _ _ _ _ (write_file_Ok (evaluation_png tune_dir) _ _)).
  rewrite bind_run. unfold except_Exception_pass at 1.
  rewrite Hobj, bind_run. unfold lift at 1. cbn beta iota.
  unfold del_key. rewrite bool_decide_true by done.
  rewrite bind_run, mret_run.
  rewrite bool_decide_true by set_solver.
  rewrite bind_run, mret_run.
  apply write_file_Ok.
Qed.

End skipping.

(** C8. In the scoring loop of apply mode a test file without reference
    annotation or without annotated region is skipped: no error is
    raised, and [eval.txt] ends as it does when the file is not in the
    subset (no line for it, the following files scored as usual).  In
    tune mode a failure of the objective plot is ignored: [callback]
    still returns, having left [objective.png] alone and dumped the
    results. *)
Theorem skipped_file_and_ignored_plot `{Framework} :
  (∀ (aggregation : SequenceLabelingAggregation) (onset offset beta : Qc)
     (protocol : Protocol) (apply_dir subset : string)
     (before after : list item) (file : item) (w : world),
      subset_files protocol subset = Some (before ++ file :: after) →
      item_annotation file = None ∨ item_annotated file = None →
      let without :=
        {| is_SpeakerDiarizationProtocol :=
             is_SpeakerDiarizationProtocol protocol;
           subset_files := λ _, Some (before ++ after) |} in
      (test_scoring aggregation onset offset protocol apply_dir subset beta w).1
      = Ok tt ∧
      file_content
        (test_scoring aggregation onset offset protocol apply_dir subset beta w).2
        (eval_txt apply_dir) =
      file_content
        (test_scoring aggregation onset offset without apply_dir subset beta w).2
        (eval_txt apply_dir)) ∧
  (∀ (tune_dir : string) (nb_epoch : nat) (res : OptimizeResult) (w : world)
     fig fig' e,
      length (func_vals res) mod 10 = 0 →
      plot_convergence res = Ok fig →
      plot_evaluations res = Ok fig' →
      plot_objective res = Raise e →
      "func" ∈ specs_args res → "callback" ∈ specs_args res →
      let run := callback tune_dir nb_epoch res w in
      run.1 = Ok tt ∧
      untouched (objective_png tune_dir) w run.2 ∧
      file_content run.2 (tune_gz tune_dir) =
      [DResult {| x := x res; func_vals := func_vals res;
                  x_iters := x_iters res;
                  specs_args := specs_args res ∖ {["func"]} ∖ {["callback"]} |}]).
Proof.
  split.
  - intros * Hfiles Hfile. cbv zeta.
    by apply (test_scoring_skips _ _ _ _ _ _ _ _ before after file).
  - intros * Hn Hconv Hev Hobj Hfunc Hcallback. cbv zeta.
    rewrite (callback_objective_plot_fails _ _ _ _ fig fig' e) by done.
    split; [done|]. cbn [snd]. split.
    + unfold untouched. rewrite !write_file_run. cbn [set_file snd w_files].
      rewrite !lookup_insert_ne; [done|solve_path_ne..].
    + apply file_content_write_file.
Qed.

(** C8, witness: file [c] has no reference; the objective of the result
    [unplottable] cannot be plotted. *)
Lemma skipped_file_and_ignored_plot_witness :
  let run files :=
    test_scoring Frames.aggregation (Frames.q 1 2) (Frames.q 1 2)
      (Frames.protocol true files) Frames.apply_dir "test" 1%Qc Frames.tuned in
  let tenth := callback Frames.tune_dir 3 Frames.unplottable Frames.trained in
  (item_annotation Frames.file_c = None ∧
   (run [Frames.file_a; Frames.file_c; Frames.file_b]).1 = Ok tt ∧
   file_content (run [Frames.file_a; Frames.file_c; Frames.file_b]).2
     (eval_txt Frames.apply_dir) =
   file_content (run [Frames.file_a; Frames.file_b]).2
     (eval_txt Frames.apply_dir)) ∧
  (plot_objective Frames.unplottable
   = Raise (ExternalError "plot_objective") ∧
   tenth.1 = Ok tt ∧
   untouched (objective_png Frames.tune_dir) Frames.trained tenth.2).
Proof.
  cbv zeta. destruct (@skipped_file_and_ignored_plot _ Frames.framework)
    as [Hskip Hignore].
  split.
  - split; [reflexivity|].
    exact (Hskip Frames.aggregation (Frames.q 1 2) (Frames.q 1 2) 1%Qc
             (Frames.protocol true [Frames.file_a; Frames.file_c; Frames.file_b])
             Frames.apply_dir "test" [Frames.file_a] [Frames.file_b]
             Frames.file_c Frames.tuned eq_refl (or_introl eq_refl)).
  - split; [reflexivity|].
    destruct (Hignore Frames.tune_dir 3 Frames.unplottable Frames.trained
                _ _ _ eq_refl eq_refl eq_refl eq_refl
                ltac:(vm_compute; reflexivity) ltac:(vm_compute; reflexivity))
      as (Hok & Huntouched & _).
    by split.
Defined.

(** ** Apply mode: the checkpoint that is loaded *)

Section apply_mode.
Context `{Framework}.

(** No module-level name [epoch] exists when [test] runs. *)
Lemma load_global_epoch (w : world) :
  load_global "epoch" w = (Raise (NameError "epoch"), w).
Proof.
  unfold load_global.
  assert (bool_decide ("epoch" ∈ module_globals) = false) as ->
    by (vm_compute; reflexivity).
  reflexivity.
Qed.

(** [test] stops before any weights are loaded, whatever it is given. *)
Lemma test_loads_no_weights (protocol : Protocol)
    (tune_dir apply_dir subset : string) (beta : Qc) (w : world) :
  (∀ a, (test protocol tune_dir apply_dir subset beta w).1 ≠ Ok a) ∧
  w_log (test protocol tune_dir apply_dir subset beta w).2 = w_log w.
Proof.
  unfold test. rewrite bind_run.
  assert (w_log (os_makedirs apply_dir w).2 = w_log w) as Hlog0.
  { unfold os_makedirs. by case_bool_decide. }
  destruct (os_makedirs apply_dir w) as [[[]| |] w0]; [|done..].
  simpl in Hlog0. rewrite bind_run.
  pose proof (@preserves_load_configuration _ _ eq _ _
                (dirname (dirname tune_dir)) w0) as Hsame.
  destruct (load_configuration _ w0)
    as [[[[[name fe] duration] step]| |] w1]; simpl in Hsame; subst w1;
    [|done..].
  rewrite bind_run.
  pose proof (@preserves_load_yaml _ eq _ (tune_yml tune_dir) w0) as Hsame.
  destruct (load_yaml _ w0) as [[tune| |] w1]; simpl in Hsame; subst w1;
    [|done..].
  rewrite bind_run, load_global_epoch. done.
Qed.

End apply_mode.

(** C2, on the code as it is. With a [tune.yml] whose tuned epoch is 2,
    [test] does not load the weights of epoch 2: it reads the name
    [epoch], which is bound neither in [test] nor in the module, and
    raises [NameError] before any weights file is loaded. *)
Theorem test_reads_undefined_epoch :
  let run :=
    test (Frames.protocol true [Frames.file_a; Frames.file_b])
      Frames.tune_dir Frames.apply_dir "test" 1%Qc Frames.tuned in
  ((tune ← load_yaml (tune_yml Frames.tune_dir); subscript tune "epoch")
     Frames.tuned).1 = Ok (YInt 2) ∧
  run.1 = Raise (NameError "epoch") ∧
  w_log run.2 = [].
Proof.
  cbv zeta. split; [vm_compute; reflexivity|].
  split; [vm_compute; reflexivity|].
  by rewrite (proj2 (test_loads_no_weights _ _ _ _ _ _)).
Qed.

(** * Further properties *)

(** ** Paths and directories *)

Section string_reversal.

Lemma string_app_nil_r (s : string) : s +:+ "" = s.
Proof. induction s as [|c s IH]; [done|]. by rewrite string_app_cons, IH. Qed.

Lemma rev_app_app (a b c : string) :
  String.rev_app (a +:+ b) c = String.rev_app b (String.rev_app a c).
Proof.
  revert c. induction a as [|x a IH]; intros c; [done|].
  rewrite string_app_cons. simpl. apply IH.
Qed.

Lemma rev_app_rev_app (a b c : string) :
  String.rev_app (String.rev_app a b) c = String.rev_app b (a +:+ c).
Proof.
  revert b. induction a as [|x a IH]; intros b; [done|].
  simpl. rewrite IH. simpl. by rewrite string_app_cons.
Qed.

Lemma string_rev_involutive (s : string) : String.rev (String.rev s) = s.
Proof.
  unfold String.rev. rewrite rev_app_rev_app. simpl. apply string_app_nil_r.
Qed.

Lemma from_first_slash_rev_app (name rest : string) :
  slash_free name = true →
  from_first_slash (String.rev_app name rest) = from_first_slash rest.
Proof.
  revert rest. induction name as [|c name IH]; intros rest Hfree; [done|].
  simpl in Hfree. apply andb_true_iff in Hfree as [Hc Hfree].
  simpl. rewrite IH by done. simpl.
  case_decide as Heq; [|done]. subst c. done.
Qed.

(** [dirname] undoes the joining of a directory and a name. *)
Lemma dirname_join (dir name : string) :
  proper_dir dir = true → slash_free name = true →
  dirname (dir +:+ "/" +:+ name) = dir.
Proof.
  intros Hdir Hname. unfold dirname, String.rev.
  assert (String.rev_app (dir +:+ "/" +:+ name) ""
          = String.rev_app name (String "/" (String.rev dir))) as ->.
  { rewrite !rev_app_app. reflexivity. }
  rewrite from_first_slash_rev_app by done.
  change (from_first_slash (String "/" (String.rev dir)))
    with (String "/" (String.rev dir)).
  change (lstrip_slashes (String "/" (String.rev dir)))
    with (lstrip_slashes (String.rev dir)).
  unfold proper_dir in Hdir.
  destruct (String.rev dir) as [|c rest] eqn:Hrev; [done|].
  assert (lstrip_slashes (String c rest) = String c rest) as ->.
  { simpl. destruct c as [[] [] [] [] [] [] [] []]; try done. }
  rewrite decide_False by done.
  fold (String.rev (String c rest)). rewrite <- Hrev.
  apply string_rev_involutive.
Qed.

Lemma proper_dir_join (dir name : string) :
  name ≠ "" → slash_free name = true → proper_dir (dir +:+ "/" +:+ name) = true.
Proof.
  intros Hne Hfree. unfold proper_dir, String.rev.
  assert (String.rev_app (dir +:+ "/" +:+ name) ""
          = String.rev_app name (String "/" (String.rev dir))) as ->.
  { rewrite !rev_app_app. reflexivity. }
  assert (∀ rest, ∃ c tail,
             String.rev_app name rest = String c tail ∧
             (c = "/"%char → False)) as Hhead.
  { clear dir. induction name as [|x name IH]; [done|].
    intros rest. simpl in Hfree. apply andb_true_iff in Hfree as [Hx Hfree].
    destruct name as [|y name'].
    - simpl. exists x, rest. split; [done|]. intros ->. done.
    - simpl. destruct (IH ltac:(done) Hfree (String x rest))
        as (c & tail & Hc & Hslash).
      exists c, tail. split; [exact Hc|exact Hslash]. }
  destruct (Hhead (String "/" (String.rev dir))) as (c & tail & -> & Hc).
  destruct (Ascii.eqb_spec c "/"); [by destruct Hc|done].
Qed.

End string_reversal.

Section layout.
Context `{Framework}.

Lemma slash_free_app (a b : string) :
  slash_free (a +:+ b) = slash_free a && slash_free b.
Proof.
  induction a as [|c a IH]; [done|].
  rewrite string_app_cons. simpl. rewrite IH. by rewrite andb_assoc.
Qed.

Lemma dirname_trailing_slash (dir : string) :
  proper_dir dir = true → dirname (dir +:+ "/") = dir.
Proof. intros Hdir. by apply (dirname_join dir ""). Qed.

Lemma load_configuration_missing (train_dir : string) (w : world) :
  w_files w !! (dirname (dirname train_dir) +:+ "/config.yml") = None →
  load_configuration train_dir w =
  (Raise (IOError (dirname (dirname train_dir) +:+ "/config.yml")), w).
Proof.
  intros Hnone. unfold load_configuration. rewrite bind_run.
  unfold load_yaml. by rewrite Hnone.
Qed.

End layout.

(** X1. The weights files of two epochs are the same file only when the
    epochs are the same, also beyond epoch 9999 where the number takes
    more than four digits. *)
Theorem weights_paths_distinct (train_dir : string) (epoch epoch' : nat) :
  WEIGHTS_H5 train_dir epoch = WEIGHTS_H5 train_dir epoch' ↔ epoch = epoch'.
Proof. split; [apply (inj (WEIGHTS_H5 train_dir))|by intros ->]. Qed.

(** X2. More checkpoints never make the scanner report fewer epochs: if
    every existing file of one disk exists on another, the number of
    epochs found on the first is at most the number found on the second. *)
Theorem scan_epochs_monotone (files files' : gset string) (train_dir : string)
    (fuel fuel' n n' : nat) :
  files ⊆ files' →
  scan_epochs (isfile_in files) train_dir fuel 0 = Some n →
  scan_epochs (isfile_in files') train_dir fuel' 0 = Some n' →
  n ≤ n'.
Proof.
  intros Hsub Hscan Hscan'.
  apply scan_epochs_Some in Hscan as (_ & _ & Hbelow).
  apply scan_epochs_Some in Hscan' as (_ & Hgap' & _).
  destruct (decide (n ≤ n')) as [|Hlt]; [done|exfalso].
  apply bool_decide_eq_false in Hgap'. apply Hgap', Hsub.
  eapply bool_decide_eq_true, (Hbelow n'). lia.
Qed.

(** X3. The directories fit together: [config.yml] is looked for in the
    experiment directory when [train_dir] is
    [<experiment_dir>/train/<name>], and the train directory that apply
    mode derives from the tune directory of tune mode is the one tune
    mode was given; directories are written without trailing slash and
    names hold no slash. *)
Theorem directory_layout (experiment_dir name train_dir protocol subset : string) :
  proper_dir experiment_dir = true →
  slash_free name = true → name ≠ "" →
  proper_dir train_dir = true →
  slash_free protocol = true → slash_free subset = true →
  dirname (dirname (experiment_dir +:+ "/train/" +:+ name)) = experiment_dir ∧
  dirname (dirname (main_tune_dir train_dir protocol subset)) = train_dir.
Proof.
  intros Hxp Hname Hne Htrain Hprotocol Hsubset. split.
  - replace (experiment_dir +:+ "/train/" +:+ name)
      with ((experiment_dir +:+ "/" +:+ "train") +:+ "/" +:+ name)
      by (by rewrite !string_app_assoc).
    rewrite dirname_join; [|by apply proper_dir_join|done].
    by apply dirname_join.
  - unfold main_tune_dir.
    replace (train_dir +:+ "/tune/" +:+ protocol +:+ "." +:+ subset)
      with ((train_dir +:+ "/" +:+ "tune") +:+ "/" +:+
            (protocol +:+ "." +:+ subset))
      by (by rewrite !string_app_assoc).
    rewrite dirname_join; [|by apply proper_dir_join|].
    + by apply dirname_join.
    + rewrite !slash_free_app, Hprotocol, Hsubset. done.
Qed.

(** X3, witness. *)
Lemma directory_layout_witness :
  dirname (dirname ("xp" +:+ "/train/" +:+ "Etape.SpeakerDiarization.TV.train"))
  = "xp" ∧
  dirname (dirname (main_tune_dir Frames.train_dir
                      "Etape.SpeakerDiarization.TV" "development"))
  = Frames.train_dir.
Proof.
  apply directory_layout; (reflexivity || discriminate).
Defined.

(** X4. With a trailing slash on [train_dir], [config.yml] is looked for
    one directory too low, in [<experiment_dir>/train]: when it is not
    there, loading the configuration fails with that path. *)
Theorem trailing_slash_misplaces_config `{Framework}
    (experiment_dir name : string) (w : world) :
  proper_dir experiment_dir = true →
  slash_free name = true → name ≠ "" →
  w_files w !! (experiment_dir +:+ "/train" +:+ "/config.yml") = None →
  load_configuration (experiment_dir +:+ "/train/" +:+ name +:+ "/") w =
  (Raise (IOError (experiment_dir +:+ "/train" +:+ "/config.yml")), w).
Proof.
  intros Hxp Hname Hne Hnone.
  assert (dirname (dirname (experiment_dir +:+ "/train/" +:+ name +:+ "/"))
          = experiment_dir +:+ "/train") as Hdir.
  { replace (experiment_dir +:+ "/train/" +:+ name +:+ "/")
      with (((experiment_dir +:+ "/" +:+ "train") +:+ "/" +:+ name) +:+ "/")
      by (by rewrite !string_app_assoc).
    rewrite dirname_trailing_slash
      by (apply proper_dir_join; [done|done]).
    rewrite dirname_join; [|by apply proper_dir_join|done].
    reflexivity. }
  rewrite load_configuration_missing; rewrite Hdir, string_app_assoc; done.
Qed.

(** X4, witness: the configuration of the trained experiment is not
    found through the train directory written with a slash at its end. *)
Lemma trailing_slash_misplaces_config_witness :
  w_files Frames.trained !! "xp/config.yml" = Some [DYaml Frames.config] ∧
  load_configuration ("xp" +:+ "/train/" +:+
                      "Etape.SpeakerDiarization.TV.train" +:+ "/")
    Frames.trained
  = (Raise (IOError ("xp" +:+ "/train" +:+ "/config.yml")), Frames.trained).
Proof.
  split; [reflexivity|].
  apply trailing_slash_misplaces_config; (reflexivity || discriminate).
Defined.

(** X2, witness: one checkpoint against two. *)
Lemma scan_epochs_monotone_witness :
  let files : gset string := {[WEIGHTS_H5 "xp" 0]} in
  let files' : gset string := {[WEIGHTS_H5 "xp" 0; WEIGHTS_H5 "xp" 1]} in
  files ⊆ files' ∧
  scan_epochs (isfile_in files) "xp" 3 0 = Some 1 ∧
  scan_epochs (isfile_in files') "xp" 3 0 = Some 2 ∧
  1 ≤ 2.
Proof.
  cbv zeta.
  assert (({[WEIGHTS_H5 "xp" 0]} : gset string)
          ⊆ {[WEIGHTS_H5 "xp" 0; WEIGHTS_H5 "xp" 1]}) as Hsub by set_solver.
  assert (scan_epochs (isfile_in {[WEIGHTS_H5 "xp" 0]}) "xp" 3 0 = Some 1)
    as Hscan by (vm_compute; reflexivity).
  assert (scan_epochs
            (isfile_in {[WEIGHTS_H5 "xp" 0; WEIGHTS_H5 "xp" 1]}) "xp" 3 0
          = Some 2) as Hscan' by (vm_compute; reflexivity).
  split; [exact Hsub|]. split; [exact Hscan|]. split; [exact Hscan'|].
  exact (scan_epochs_monotone _ _ _ _ _ _ _ Hsub Hscan Hscan').
Defined.

(** ** Train mode *)

(** X5. The number of samples of an epoch is the number of sequences the
    annotated duration gives at the step of the configuration, rounded
    up to a whole number of batches of 8192; a step of 0 gives no number
    (the computation raises). *)
Theorem samples_per_epoch_rounds_up (seconds_per_epoch step : Qc) :
  (step = 0%Qc → samples_per_epoch seconds_per_epoch step = None) ∧
  (step ≠ 0%Qc →
   ∃ batches : Z,
     samples_per_epoch seconds_per_epoch step = Some (batch_size * batches)%Z ∧
     (seconds_per_epoch / step ≤ Qc_of_Z (batch_size * batches))%Qc ∧
     (Qc_of_Z (batch_size * (batches - 1)) < seconds_per_epoch / step)%Qc).
Proof.
  unfold samples_per_epoch. split; intros Hstep.
  - by rewrite decide_True.
  - rewrite decide_False by done.
    remember (seconds_per_epoch / step)%Qc as sequences eqn:Hsequences.
    clear Hsequences.
    remember (sequences / Qc_of_Z batch_size)%Qc as x eqn:Hx.
    exists (Qceiling x). split; [done|].
    assert (0 < Qc_of_Z batch_size)%Qc as Hpos.
    { rewrite <- Z2Qc_inj_0. by apply Z2Qc_inj_lt. }
    assert (sequences = Qc_of_Z batch_size * x)%Qc as Hs.
    { subst x. field. intros Hzero. rewrite Hzero in Hpos.
      by apply Qclt_not_le in Hpos. }
    rewrite Hs. clear Hs Hx.
    rewrite !Z2Qc_inj_mul. split.
    + apply Qcmult_le_mono_pos_l; [done|].
      apply (Qle_ceiling x).
    + apply Qcmult_lt_mono_pos_l; [done|].
      apply (Qceiling_lt x).
Qed.

(** X5, witness: 100000 seconds at a step of 0.8 seconds are 125000
    sequences, rounded up to 16 batches. *)
Lemma samples_per_epoch_rounds_up_witness :
  Frames.q 8 10 ≠ 0%Qc ∧
  samples_per_epoch (Qc_of_Z 100000) (Frames.q 8 10) = Some (8192 * 16)%Z.
Proof.
  split; [done|].
  destruct (proj2 (samples_per_epoch_rounds_up (Qc_of_Z 100000) (Frames.q 8 10))
              ltac:(done)) as (batches & Hsamples & _).
  assert (samples_per_epoch (Qc_of_Z 100000) (Frames.q 8 10)
          = Some 131072%Z) as Hvalue by (vm_compute; reflexivity).
  rewrite Hsamples in Hvalue |- *. injection Hvalue as Hvalue.
  unfold batch_size in *. do 2 f_equal. lia.
Defined.

(** ** The command line *)

Lemma str_format_TRAIN_DIR (experiment_dir protocol subset : string) :
  str_format TRAIN_DIR
    (<["experiment_dir" := experiment_dir]>
    (<["protocol" := protocol]>
    (<["subset" := subset]> ∅)))
  = Raise (KeyError "path").
Proof.
  unfold TRAIN_DIR. cbn [str_format].
  rewrite lookup_insert_eq.
  rewrite lookup_insert_ne, lookup_insert_eq by done.
  rewrite !lookup_insert_ne, lookup_insert_eq by done.
  rewrite !lookup_insert_ne, lookup_empty by done.
  reflexivity.
Qed.

(** X6. Train mode never trains: once the protocol is loaded, formatting
    [TRAIN_DIR], whose field [path] is given no value, raises
    [KeyError], whatever the arguments; [train] is not called and the
    later modes are not reached. *)
Theorem train_mode_raises_KeyError `{Framework}
    (get_protocol : string → string → M Protocol)
    (train : Protocol → string → string → string → M unit)
    (float : string → M Qc) (env : Environment) (fuel : nat)
    (arguments : Arguments) (protocol : Protocol) (w w1 : world) :
  arg_train arguments = true →
  get_protocol (arg_database arguments) (arg_protocol arguments) w
  = (Ok protocol, w1) →
  main get_protocol train float env fuel arguments w
  = (Raise (KeyError "path"), w1).
Proof.
  intros Htrain Hprotocol. unfold main.
  rewrite (bind_Ok _ _ _ _ _ Hprotocol), Htrain.
  rewrite str_format_TRAIN_DIR. reflexivity.
Qed.

(** X6, witness: a training that would write a checkpoint is never
    started. *)
Lemma train_mode_raises_KeyError_witness :
  let arguments :=
    {| arg_train := true; arg_validation := false; arg_tune := false;
       arg_apply := false; arg_database := "db.yml"; arg_subset := None;
       arg_recall := "1.0"; arg_experiment_dir := "xp"; arg_train_dir := "";
       arg_tune_dir := ""; arg_protocol := "Etape.SpeakerDiarization.TV" |} in
  let get_protocol (_ _ : string) : M Protocol :=
    mret (Frames.protocol true [Frames.file_a]) in
  let train (_ : Protocol) (_ train_dir _ : string) : M unit :=
    write_file (WEIGHTS_H5 train_dir 0) (DYaml (YInt 0)) in
  main get_protocol train (λ _, mret 1%Qc) Frames.all_there 1 arguments
    Frames.trained
  = (Raise (KeyError "path"), Frames.trained).
Proof.
  cbv zeta.
  apply (train_mode_raises_KeyError _ _ _ _ _ _
           (Frames.protocol true [Frames.file_a])); reflexivity.
Defined.

(** ** [speech_activity_detection_xp] *)

Section experiment.
Context `{Framework}.
Context (aggregation : SequenceLabelingAggregation) (onset offset collar : Qc).

Local Abbreviation DER := (DetectionErrorRate collar).
Local Abbreviation remember_prediction :=
  (λ (predictions : gmap string soft) (file : item),
     <[get_unique_identifier file := aggregation_apply aggregation file]>
       predictions).
Local Abbreviation score_with := (λ (predictions : gmap string soft),
  λ (file : item) '((acc, _) : components DER * option Qc),
    let uri := get_unique_identifier file in
    reference ← subscript_annotation file;
    let uem := get_annotated file in
    prediction ←
      match predictions !! uri with
      | Some p => mret p
      | None => raise (KeyError uri)
      end;
    let hypothesis := binarize_apply onset offset prediction in
    let '(der, acc) := metric_call DER acc reference hypothesis uem in
    (mret (acc, Some der) : M (components DER * option Qc))).

Lemma for_each_app {A S} (l1 l2 : list A) (body : A → S → M S) (s : S)
    (w : world) :
  for_each (l1 ++ l2) body s w =
  (s' ← for_each l1 body s; for_each l2 body s') w.
Proof.
  revert s w. induction l1 as [|a l1 IH]; intros s w; [done|].
  simpl. rewrite !bind_run. destruct (body a s w) as [[s'| |] w']; [|done..].
  rewrite IH. by rewrite bind_run.
Qed.

Lemma xp_predictions (files : list item) :
  ∀ (predictions : gmap string soft) (w : world),
    for_each files
      (λ file predictions,
         let uri := get_unique_identifier file in
         let prediction := aggregation_apply aggregation file in
         mret (<[uri := prediction]> predictions)) predictions w
    = (Ok (foldl remember_prediction predictions files), w).
Proof.
  induction files as [|file files IH]; intros predictions w; [done|].
  simpl. rewrite bind_run, mret_run. apply IH.
Qed.

Lemma predictions_of_all (files : list item) (predictions : gmap string soft)
    (file : item) :
  file ∈ files →
  is_Some (foldl remember_prediction predictions files
             !! get_unique_identifier file).
Proof.
  induction files as [|last files IH] using rev_ind; [by intros ?%elem_of_nil|].
  intros Hin. rewrite foldl_app. simpl.
  destruct (decide (get_unique_identifier last = get_unique_identifier file))
    as [->|Hne].
  - rewrite lookup_insert_eq. by eexists.
  - rewrite lookup_insert_ne by done. apply IH.
    apply elem_of_app in Hin as [|Hlast]; [done|].
    apply list_elem_of_singleton in Hlast. by subst.
Qed.

Lemma xp_scores (predictions : gmap string soft) (files : list item) :
  ∀ (acc : components DER) (der : option Qc) (w : world),
    Forall (λ file, is_Some (item_annotation file)) files →
    Forall (λ file, is_Some (predictions !! get_unique_identifier file)) files →
    ∃ acc' der',
      for_each files (score_with predictions) (acc, der) w
      = (Ok (acc', der'), w) ∧
      (files = [] → der' = der).
Proof.
  induction files as [|file files IH]; intros acc der w Hannotated Hpredicted.
  { by exists acc, der. }
  apply Forall_cons in Hannotated as [[r Hr] Hannotated].
  apply Forall_cons in Hpredicted as [[p Hp] Hpredicted].
  simpl. rewrite bind_run. unfold subscript_annotation at 1.
  rewrite Hr, bind_run, mret_run, bind_run, Hp, mret_run.
  unfold metric_call. rewrite mret_run.
  destruct (IH (add_components DER acc
                  (compute_components DER r (binarize_apply onset offset p)
                     (get_annotated file)))
              (Some (compute_metric DER
                       (compute_components DER r (binarize_apply onset offset p)
                          (get_annotated file)))) w Hannotated Hpredicted)
    as (acc' & der' & Hrun & _).
  exists acc', der'. split; [exact Hrun|done].
Qed.

Lemma xp_score_one (predictions : gmap string soft) (file : item)
    (acc : components DER) (der : option Qc) (w : world) r p :
  item_annotation file = Some r →
  predictions !! get_unique_identifier file = Some p →
  for_each [file] (score_with predictions) (acc, der) w =
  (Ok (add_components DER acc
         (compute_components DER r (binarize_apply onset offset p)
            (get_annotated file)),
       Some (compute_metric DER
               (compute_components DER r (binarize_apply onset offset p)
                  (get_annotated file)))), w).
Proof.
  intros Hr Hp. simpl. rewrite bind_run. unfold subscript_annotation.
  rewrite Hr, bind_run, mret_run, bind_run, Hp, mret_run.
  unfold metric_call. by rewrite !mret_run.
Qed.

Lemma xp_unfold (protocol : Protocol) (subset : string) (files : list item)
    (w : world) :
  subset_files protocol subset = Some files →
  speech_activity_detection_xp aggregation protocol subset onset offset collar w
  = ('(_, der) ←
       for_each files
         (score_with (foldl remember_prediction ∅ files))
         (init_components DER, None);
     der ← load_local "der" der;
     mret (Qcabs der, onset, offset)) w.
Proof.
  intros Hfiles. unfold speech_activity_detection_xp, getattr_subset.
  rewrite Hfiles. rewrite bind_run, mret_run, bind_run, xp_predictions.
  by rewrite bind_run, mret_run.
Qed.

(** The value returned is that of the last file. *)
Lemma xp_last_file (protocol : Protocol) (subset : string)
    (init : list item) (last : item) (r : reference) (w : world) :
  subset_files protocol subset = Some (init ++ [last]) →
  Forall (λ file, is_Some (item_annotation file)) init →
  item_annotation last = Some r →
  speech_activity_detection_xp aggregation protocol subset onset offset collar w
  = (Ok (file_der collar aggregation onset offset last r, onset, offset), w).
Proof.
  intros Hfiles Hinit Hlast.
  rewrite (xp_unfold _ _ (init ++ [last])) by done.
  rewrite bind_run, for_each_app, bind_run.
  destruct (xp_scores (foldl remember_prediction ∅ (init ++ [last]))
              init (init_components DER) None w)
    as (acc & der & -> & _).
  { done. }
  { apply Forall_forall. intros file Hin.
    apply predictions_of_all, elem_of_app. by left. }
  rewrite (xp_score_one _ _ _ _ _ r (aggregation_apply aggregation last)).
  - reflexivity.
  - done.
  - rewrite foldl_app. simpl. apply lookup_insert_eq.
Qed.

End experiment.

(** X7. The error rate that [speech_activity_detection_xp] returns is
    that of the last file of the subset alone: [der] is overwritten at
    every file, and the accumulated metric is not read. Every file of
    the subset has a reference. *)
Theorem xp_returns_last_file `{Framework}
    (aggregation : SequenceLabelingAggregation) (onset offset collar : Qc)
    (protocol : Protocol) (subset : string) (init : list item) (last : item)
    (r : reference) (w : world) :
  subset_files protocol subset = Some (init ++ [last]) →
  Forall (λ file, is_Some (item_annotation file)) init →
  item_annotation last = Some r →
  speech_activity_detection_xp aggregation protocol subset onset offset collar w
  = (Ok (Qcabs (compute_metric (DetectionErrorRate collar)
                  (compute_components (DetectionErrorRate collar) r
                     (binarize_apply onset offset
                        (aggregation_apply aggregation last))
                     (get_annotated last))),
         onset, offset), w).
Proof. apply xp_last_file. Qed.

(** X7, witness: file [a] is detected perfectly and file [b] not at all;
    the value is the error rate of the one that comes last. *)
Lemma xp_returns_last_file_witness :
  (speech_activity_detection_xp Frames.aggregation
     (Frames.protocol true [Frames.file_a; Frames.file_b]) "development"
     (Frames.q 1 2) (Frames.q 1 2) 0%Qc Frames.trained).1
  = Ok (Frames.q 2 1, Frames.q 1 2, Frames.q 1 2) ∧
  (speech_activity_detection_xp Frames.aggregation
     (Frames.protocol true [Frames.file_b; Frames.file_a]) "development"
     (Frames.q 1 2) (Frames.q 1 2) 0%Qc Frames.trained).1
  = Ok (0%Qc, Frames.q 1 2, Frames.q 1 2).
Proof.
  split.
  - rewrite (xp_returns_last_file Frames.aggregation (Frames.q 1 2)
               (Frames.q 1 2) 0%Qc
               (Frames.protocol true [Frames.file_a; Frames.file_b])
               "development" [Frames.file_a]
               Frames.file_b [3; 4; 5] Frames.trained eq_refl).
    + cbn [fst]; repeat f_equal; try (apply Qc_is_canon; reflexivity).
    + by repeat constructor.
    + reflexivity.
  - rewrite (xp_returns_last_file Frames.aggregation (Frames.q 1 2)
               (Frames.q 1 2) 0%Qc
               (Frames.protocol true [Frames.file_b; Frames.file_a])
               "development" [Frames.file_b]
               Frames.file_a [0] Frames.trained eq_refl).
    + cbn [fst]; repeat f_equal; try (apply Qc_is_canon; reflexivity).
    + by repeat constructor.
    + reflexivity.
Defined.

(** X8. [speech_activity_detection_xp] fails on a subset without files,
    where [der] is never assigned, and at the first file without
    reference, which is not skipped as in apply mode. *)
Theorem xp_failures `{Framework}
    (aggregation : SequenceLabelingAggregation) (onset offset collar : Qc)
    (protocol : Protocol) (subset : string) (files : list item) (w : world) :
  subset_files protocol subset = Some files →
  let run :=
    speech_activity_detection_xp aggregation protocol subset onset offset
      collar w in
  (files = [] → run = (Raise (UnboundLocalError "der"), w)) ∧
  (∀ before file after,
      files = before ++ file :: after →
      Forall (λ file, is_Some (item_annotation file)) before →
      item_annotation file = None →
      run = (Raise (KeyError "annotation"), w)).
Proof.
  intros Hfiles run. subst run.
  rewrite (xp_unfold _ _ _ _ _ _ files) by done. split.
  - intros ->. reflexivity.
  - intros before file after -> Hbefore Hfile.
    rewrite bind_run, for_each_app, bind_run.
    destruct (xp_scores onset offset collar
                (foldl (λ predictions file,
                          <[get_unique_identifier file :=
                              aggregation_apply aggregation file]> predictions)
                   ∅ (before ++ file :: after))
                before (init_components (DetectionErrorRate collar)) None w)
      as (acc & der & -> & _).
    { done. }
    { apply Forall_forall. intros f Hin.
      apply predictions_of_all, elem_of_app. by left. }
    simpl. rewrite bind_run. unfold subscript_annotation at 1.
    by rewrite Hfile.
Qed.

(** X8, witness: file [c] has no reference. *)
Lemma xp_failures_witness :
  speech_activity_detection_xp Frames.aggregation
    (Frames.protocol true []) "development"
    (Frames.q 1 2) (Frames.q 1 2) 0%Qc Frames.trained
  = (Raise (UnboundLocalError "der"), Frames.trained) ∧
  speech_activity_detection_xp Frames.aggregation
    (Frames.protocol true [Frames.file_a; Frames.file_c; Frames.file_b])
    "development" (Frames.q 1 2) (Frames.q 1 2) 0%Qc Frames.trained
  = (Raise (KeyError "annotation"), Frames.trained).
Proof.
  split.
  - apply (proj1 (xp_failures Frames.aggregation (Frames.q 1 2)
                    (Frames.q 1 2) 0%Qc (Frames.protocol true [])
                    "development" [] Frames.trained eq_refl)).
    reflexivity.
  - apply (proj2 (xp_failures Frames.aggregation (Frames.q 1 2)
                    (Frames.q 1 2) 0%Qc
                    (Frames.protocol true
                       [Frames.file_a; Frames.file_c; Frames.file_b])
                    "development" _ Frames.trained eq_refl)
             [Frames.file_a] Frames.file_c [Frames.file_b]).
    + reflexivity.
    + by repeat constructor.
    + reflexivity.
Defined.

(** ** Validation mode: the lines of [der.txt] *)

Section validation_lines.
Context `{Framework}.
Context (env : Environment) (protocol : Protocol).
Context (train_dir validation_dir subset name : string).
Context (fe : feature_extraction) (duration step : yaml).

Local Abbreviation body :=
  (validate_iteration env protocol train_dir validation_dir subset
     name fe duration step).
Local Abbreviation path := (der_txt validation_dir subset).

Lemma fp_write_content (p : string) (record : data) (w : world) :
  fp_write p record w = (Ok tt, (fp_write p record w).2) ∧
  file_content (fp_write p record w).2 p = file_content w p ++ [record].
Proof.
  split; [done|]. unfold fp_write.
  rewrite file_content_set_file. by rewrite decide_True.
Qed.

(** What the end of an iteration, from the write on, does to [der.txt]. *)
Lemma validate_iteration_write (l' : validate_locals) (w : world)
    (record : data) (fig : figure) :
  let run :=
    (fp_write path record;;
     savefig (der_png validation_dir subset) fig;;
     mret (Continue l')) w in
  run.1 = Ok (Continue l') ∧
  file_content run.2 path = file_content w path ++ [record].
Proof.
  cbv zeta. destruct (fp_write_content path record w) as [Hrun Hcontent].
  rewrite bind_run, Hrun, bind_run. unfold savefig.
  rewrite write_file_Ok, mret_run. cbn [fst snd]. split; [done|].
  rewrite <- Hcontent. apply untouched_content.
  apply preserves_untouched_write_file, der_png_ne_der_txt.
Qed.

(** An iteration leaves [der.txt] as it is and stays at its epoch, or
    adds the line of its epoch and moves to the next. *)
Lemma validate_iteration_line (l : validate_locals) (w : world) :
  (file_content (body l w).2 path = file_content w path ∧
   ∀ l', (body l w).1 = Ok (Continue l') → v_epoch l' = v_epoch l)
  ∨ (∃ now der l',
       (body l w).1 = Ok (Continue l') ∧
       file_content (body l w).2 path =
         file_content w path ++ [DDer (v_epoch l) now der] ∧
       v_epoch l' = v_epoch l + 1).
Proof.
  unfold validate_iteration. destruct (negb _).
  { left. rewrite bind_run. simpl. split; [done|]. by intros l' [= <-]. }
  rewrite bind_run.
  assert (preserves (untouched path)
            (get_aggregation (v_epoch l) train_dir fe duration step))
    as Hagg by (apply preserves_get_aggregation; apply _).
  specialize (Hagg w). apply untouched_content in Hagg.
  destruct (get_aggregation _ _ _ _ _ w) as [[aggregation| |] w1];
    cbn [snd] in Hagg; [|left; split; [done|discriminate]..].
  rewrite bind_run.
  match goal with
  | |- context [(if is_SpeakerDiarizationProtocol protocol
                 then ?m else ?m') w1] =>
      assert (preserves (untouched path)
                (if is_SpeakerDiarizationProtocol protocol then m else m'))
        as Hxp
  end.
  { destruct (is_SpeakerDiarizationProtocol protocol); [|preserves_auto].
    apply preserves_bind; [apply _..| |intros [[? ?] ?]; preserves_auto].
    apply preserves_speech_activity_detection_xp; apply _. }
  specialize (Hxp w1). apply untouched_content in Hxp.
  match goal with
  | |- context [(if is_SpeakerDiarizationProtocol protocol
                 then ?m else ?m') w1] =>
      destruct ((if is_SpeakerDiarizationProtocol protocol then m else m') w1)
        as [[[[der onset] offset]| |] w2]
  end; cbn [snd] in Hxp;
    [|left; cbn [fst snd]; split; [congruence|discriminate]..].
  rewrite bind_run.
  destruct der as [der_value|];
    [|left; unfold load_local, raise; cbn [fst snd];
      split; [congruence|discriminate]].
  cbn [load_local]. rewrite mret_run. right.
  eexists _, der_value, _.
  match goal with
  | |- context [(fp_write path ?record ≫= λ _, savefig _ ?fig ≫= λ _,
                   mret (Continue ?l')) w2] =>
      destruct (validate_iteration_write l' w2 record fig) as [Hrun Hcontent]
  end.
  split; [exact Hrun|]. split; [|cbn; reflexivity].
  rewrite Hcontent, Hxp, Hagg. reflexivity.
Qed.

Lemma loop_lines (n : nat) :
  ∀ (l : validate_locals) (w : world),
    length (file_content w path) = v_epoch l →
    (∀ k record, file_content w path !! k = Some record →
                 ∃ now der, record = DDer k now der) →
    ∀ k record,
      file_content (loop_prefix n body l w).2 path !! k = Some record →
      ∃ now der, record = DDer k now der.
Proof.
  induction n as [|n IH]; intros l w Hlength Hlines; [done|].
  cbn [loop_prefix]. rewrite bind_run.
  destruct (validate_iteration_line l w)
    as [[Hsame Hepoch]|(now & der & l' & Hrun & Hmore & Hepoch)].
  - destruct (body l w) as [[[l'|l']| |] w'];
      cbn [fst snd] in *; try (by rewrite ?mret_run; cbn [snd]; rewrite Hsame).
    apply IH; rewrite Hsame; [|done].
    by rewrite (Hepoch l' eq_refl).
  - destruct (body l w) as [r w']. cbn [fst snd] in *. subst r.
    apply IH.
    + rewrite Hmore, length_app. simpl. lia.
    + intros k record. rewrite Hmore.
      intros [Hold|[Hk Hnew]]%lookup_app_Some; [by apply Hlines|].
      rewrite Hlength in Hk, Hnew.
      assert (k = v_epoch l) as ->.
      { apply lookup_lt_Some in Hnew. simpl in Hnew. lia. }
      rewrite Nat.sub_diag in Hnew. injection Hnew as <-. by eexists _, _.
Qed.

End validation_lines.

(** X9. The lines of [der.txt] are those of the epochs 0, 1, 2, ... in
    order: at every moment of a validation run whose setup succeeded,
    the line at position [k] of the file is the line of epoch [k],
    whatever was in the file before and however long the loop waited
    for weights. *)
Theorem validate_der_txt_epochs_in_order `{Framework} (env : Environment)
    (protocol : Protocol) (train_dir validation_dir subset : string)
    (fuel : nat) (w w1 : world)
    (configuration : string * feature_extraction * yaml * yaml) :
  (mkdir_p validation_dir;; load_configuration train_dir) w
  = (Ok configuration, w1) →
  ∀ k record,
    file_content
      (validate env protocol train_dir validation_dir subset fuel w).2
      (der_txt validation_dir subset) !! k = Some record →
    ∃ now der, record = DDer k now der.
Proof.
  intros Hsetup k record. rewrite validate_unfold, Hsetup.
  destruct configuration as [[[name fe] duration] step].
  intros Hline.
  apply (loop_lines env protocol train_dir validation_dir subset name fe
           duration step fuel validate_start
           (open_w (der_txt validation_dir subset) w1).2).
  - unfold open_w. by rewrite file_content_set_file, decide_True.
  - intros k' record'. unfold open_w.
    by rewrite file_content_set_file, decide_True.
  - destruct (loop_prefix _ _ _ _) as [[[l|l]| |] w2]; exact Hline.
Qed.

(** X9, witness: two epochs validated over the [der.txt] of an earlier
    run. *)
Lemma validate_der_txt_epochs_in_order_witness :
  let after :=
    (validate Frames.all_there
       (Frames.protocol true [Frames.file_a; Frames.file_b])
       Frames.train_dir Frames.validation_dir "development" 2
       Frames.validated_before).2 in
  length (file_content after (der_txt Frames.validation_dir "development")) = 2 ∧
  ∀ k record,
    file_content after (der_txt Frames.validation_dir "development") !! k
    = Some record →
    ∃ now der, record = DDer k now der.
Proof.
  cbv zeta. split; [vm_compute; reflexivity|].
  destruct ((mkdir_p Frames.validation_dir;;
             load_configuration Frames.train_dir) Frames.validated_before)
    as [[configuration| |] w1] eqn:Hsetup;
    [|vm_compute in Hsetup; discriminate Hsetup..].
  exact (validate_der_txt_epochs_in_order Frames.all_there
           (Frames.protocol true [Frames.file_a; Frames.file_b])
           Frames.train_dir Frames.validation_dir "development" 2
           Frames.validated_before w1 configuration Hsetup).
Defined.

(** ** Validation mode: one line for each epoch *)

Section validation_progress.
Context `{Framework}.
Context (env : Environment) (protocol : Protocol).
Context (train_dir validation_dir subset name : string).
Context (fe : feature_extraction) (duration step : yaml).
Context (init : list item) (last : item) (r : reference).
Context (network : nat → sequence_labeling).

Local Abbreviation body :=
  (validate_iteration env protocol train_dir validation_dir subset
     name fe duration step).
Local Abbreviation path := (der_txt validation_dir subset).
Local Abbreviation line := (λ epoch : nat,
  DDer epoch (now_at env epoch)
    (file_der default_collar
       (validation_aggregation name fe duration step (network epoch))
       (Q2Qc (1 # 2)) (Q2Qc (1 # 2)) last r)).

Hypothesis Hsd : is_SpeakerDiarizationProtocol protocol = true.
Hypothesis Hfiles : subset_files protocol subset = Some (init ++ [last]).
Hypothesis Hinit : Forall (λ file, is_Some (item_annotation file)) init.
Hypothesis Hlast : item_annotation last = Some r.
Hypothesis Hweights : ∀ k, isfile_at env k (WEIGHTS_H5 train_dir k) = true.
Hypothesis Hdisk :
  ∀ k, from_disk (train_dir +:+ "/architecture.yml") (WEIGHTS_H5 train_dir k)
       = Ok (network k).

Lemma validate_iteration_scores (l : validate_locals) (w : world) :
  v_polls l = v_epoch l →
  ∃ l',
    (body l w).1 = Ok (Continue l') ∧
    v_epoch l' = S (v_epoch l) ∧ v_polls l' = v_epoch l' ∧
    file_content (body l w).2 path = file_content w path ++ [line (v_epoch l)].
Proof.
  intros Hpolls. unfold validate_iteration.
  rewrite Hpolls, Hweights, Hsd. cbn [negb].
  unfold get_aggregation.
  rewrite bind_run, bind_run, SequenceLabeling_from_disk_run, Hdisk, mret_run.
  rewrite bind_run, bind_run.
  fold (validation_aggregation name fe duration step (network (v_epoch l))).
  rewrite (xp_last_file _ _ _ _ protocol subset init last r) by done.
  rewrite mret_run, bind_run. cbn [load_local]. rewrite mret_run.
  match goal with
  | |- context [(fp_write path ?record ≫= λ _, savefig _ ?fig ≫= λ _,
                   mret (Continue ?l')) ?w1] =>
      destruct (validate_iteration_write validation_dir subset l' w1 record fig)
        as [Hrun Hcontent];
      exists l'
  end.
  split; [exact Hrun|]. split; [cbn; lia|]. split; [cbn; lia|].
  rewrite Hcontent. reflexivity.
Qed.

Lemma loop_scores (n : nat) (w : world) :
  ∃ l w',
    loop_prefix n body validate_start w = (Ok (Continue l), w') ∧
    v_epoch l = n ∧ v_polls l = n ∧
    file_content w' path = file_content w path ++ (line <$> seq 0 n).
Proof.
  induction n as [|n (l & w' & Hloop & Hepoch & Hpolls & Hcontent)].
  { exists validate_start, w. by rewrite app_nil_r. }
  rewrite loop_prefix_succ, Hloop.
  destruct (validate_iteration_scores l w' ltac:(congruence))
    as (l' & Hrun & Hepoch' & Hpolls' & Hcontent').
  destruct (body l w') as [result w''] eqn:Hbody. cbn [fst snd] in *.
  subst result. exists l', w''. split; [done|].
  split; [lia|]. split; [lia|].
  rewrite Hcontent', Hcontent, Hepoch, seq_S, fmap_app, app_assoc.
  reflexivity.
Qed.

End validation_progress.

(** X10. When the weights of every epoch are there when looked for and
    every file of the subset has a reference, the validation of a
    speaker diarization protocol writes exactly one line for each epoch:
    after [n] iterations [der.txt] holds the lines of the epochs 0 to
    [n - 1], each with the time of its iteration and the error rate, at
    thresholds 0.5, of the last file of the subset with the weights of
    that epoch; the loop is still running. *)
Theorem validate_one_line_per_epoch `{Framework} (env : Environment)
    (protocol : Protocol) (train_dir validation_dir subset name : string)
    (fe : feature_extraction) (duration step : yaml)
    (init : list item) (last : item) (r : reference)
    (network : nat → sequence_labeling) (n : nat) (w w1 : world) :
  (mkdir_p validation_dir;; load_configuration train_dir) w
  = (Ok (name, fe, duration, step), w1) →
  is_SpeakerDiarizationProtocol protocol = true →
  subset_files protocol subset = Some (init ++ [last]) →
  Forall (λ file, is_Some (item_annotation file)) init →
  item_annotation last = Some r →
  (∀ k, isfile_at env k (WEIGHTS_H5 train_dir k) = true) →
  (∀ k, from_disk (train_dir +:+ "/architecture.yml") (WEIGHTS_H5 train_dir k)
        = Ok (network k)) →
  let run := validate env protocol train_dir validation_dir subset n w in
  run.1 = Running ∧
  file_content run.2 (der_txt validation_dir subset) =
  (λ epoch,
     DDer epoch (now_at env epoch)
       (file_der default_collar
          (validation_aggregation name fe duration step (network epoch))
          (Q2Qc (1 # 2)) (Q2Qc (1 # 2)) last r)) <$> seq 0 n.
Proof.
  intros Hsetup Hsd Hfiles Hinit Hlast Hweights Hdisk. cbv zeta.
  rewrite validate_unfold, Hsetup.
  destruct (loop_scores env protocol train_dir validation_dir subset name fe
              duration step init last r network Hsd Hfiles Hinit Hlast
              Hweights Hdisk n (open_w (der_txt validation_dir subset) w1).2)
    as (l & w' & -> & _ & _ & Hcontent).
  split; [done|]. cbn [snd]. rewrite Hcontent. unfold open_w.
  by rewrite file_content_set_file, decide_True.
Qed.

(** X10, witness: three epochs on the trained disk; the last file, [b],
    is not detected at all, hence an error rate of 2 at every epoch. *)
Lemma validate_one_line_per_epoch_witness :
  let run :=
    validate Frames.all_there
      (Frames.protocol true [Frames.file_a; Frames.file_b])
      Frames.train_dir Frames.validation_dir "development" 3
      Frames.validated_before in
  run.1 = Running ∧
  file_content run.2 (der_txt Frames.validation_dir "development") =
  [DDer 0 "now" (Frames.q 2 1); DDer 1 "now" (Frames.q 2 1);
   DDer 2 "now" (Frames.q 2 1)].
Proof.
  cbv zeta.
  destruct ((mkdir_p Frames.validation_dir;;
             load_configuration Frames.train_dir) Frames.validated_before)
    as [[[[[name fe] duration] step]| |] w1] eqn:Hsetup;
    [|vm_compute in Hsetup; discriminate Hsetup..].
  destruct (validate_one_line_per_epoch Frames.all_there
              (Frames.protocol true [Frames.file_a; Frames.file_b])
              Frames.train_dir Frames.validation_dir "development"
              name fe duration step [Frames.file_a] Frames.file_b [3; 4; 5]
              (λ k, WEIGHTS_H5 Frames.train_dir k) 3
              Frames.validated_before w1 Hsetup eq_refl eq_refl
              ltac:(by repeat constructor) eq_refl
              (λ _, eq_refl) (λ _, eq_refl))
    as [Hrunning Hcontent].
  split; [exact Hrunning|]. rewrite Hcontent.
  cbn [seq fmap list_fmap now_at Frames.all_there].
  repeat f_equal; apply Qc_is_canon; reflexivity.
Defined.

(** ** Tune mode *)

Section tune_mode.
Context `{Framework}.

(** What a run of [tune] that reaches the optimizer has done. *)
Lemma tune_Ok_inv (protocol : Protocol) (train_dir tune_dir subset : string)
    (fuel : nat) (w w' : world) (call : gp_minimize_call) :
  tune protocol train_dir tune_dir subset fuel w = (Ok call, w') →
  ∃ nb_epoch name fe duration step,
    (tune_dir ∉ w_dirs w) ∧ w_files w !! tune_dir = None ∧
    w' = {| w_files := w_files w; w_dirs := {[tune_dir]} ∪ w_dirs w;
            w_log := w_log w ++ [ESeed 1337] |} ∧
    scan_epochs (os_path_isfile w) train_dir fuel 0 = Some nb_epoch ∧
    load_configuration train_dir w' = (Ok (name, fe, duration, step), w') ∧
    call =
      {| gp_func :=
           objective_function protocol train_dir subset
             (train_dir +:+ "/architecture.yml") fe duration step;
         gp_dimensions :=
           [Integer 0 (Z.of_nat nb_epoch - 1);
            Real 0 1 "uniform"; Real 0 1 "uniform"];
         gp_callback := callback tune_dir nb_epoch;
         n_calls := 1000; n_random_starts := 10;
         gp_x0 := (Z.of_nat nb_epoch - 1, Q2Qc (1 # 2), Q2Qc (1 # 2))%Z;
         random_state := 1337; verbose := true |}.
Proof.
  unfold tune. intros Hrun.
  apply bind_Ok_inv in Hrun as ([] & w1 & Hseed & Hrun).
  apply bind_Ok_inv in Hrun as ([] & w2 & Hmk & Hrun).
  apply bind_Ok_inv in Hrun as (nb_epoch & w3 & Hscan & Hrun).
  apply bind_Ok_inv in Hrun as ([[[name fe] duration] step] & w4 & Hcfg & Hrun).
  injection Hrun as <- <-. injection Hseed as <-.
  unfold os_makedirs in Hmk. case_bool_decide as Hexists; [done|].
  injection Hmk as <-. cbn [w_files w_dirs w_log] in *.
  destruct (scan_epochs _ train_dir fuel 0) as [n|] eqn:Hn; [|done].
  injection Hscan as -> <-.
  match type of Hcfg with
  | load_configuration _ ?w0 = _ =>
      pose proof (@preserves_load_configuration _ _ eq _ _ train_dir w0)
        as Hsame
  end.
  rewrite Hcfg in Hsame. simpl in Hsame. subst w4.
  exists nb_epoch, name, fe, duration, step.
  split. { intros Hin. apply Hexists. by left. }
  split. { apply eq_None_not_Some. intros Hsome. apply Hexists. by right. }
  done.
Qed.

End tune_mode.

(** X11. Tuning does not run twice into the same directory: a run that
    reached the optimizer started without the tune directory and created
    it, and any later run into this directory, on whatever protocol,
    fails at [os.makedirs] with [OSError] before it reads a file, having
    only seeded the random generator. *)
Theorem tune_refuses_second_run `{Framework} (protocol : Protocol)
    (train_dir tune_dir subset : string) (fuel : nat) (w w' : world)
    (call : gp_minimize_call) :
  tune protocol train_dir tune_dir subset fuel w = (Ok call, w') →
  (tune_dir ∉ w_dirs w) ∧ tune_dir ∈ w_dirs w' ∧ w_files w' = w_files w ∧
  ∀ protocol' train_dir' subset' fuel',
    tune protocol' train_dir' tune_dir subset' fuel' w' =
    (Raise (OSError tune_dir),
     {| w_files := w_files w'; w_dirs := w_dirs w';
        w_log := w_log w' ++ [ESeed 1337] |}).
Proof.
  intros Hrun.
  apply tune_Ok_inv in Hrun
    as (nb_epoch & name & fe & duration & step & Hnew & _ & -> & _).
  split; [done|]. split; [set_solver|]. split; [done|].
  intros protocol' train_dir' subset' fuel'. unfold tune.
  rewrite bind_run. cbn [log_event w_files w_dirs w_log].
  rewrite bind_run. unfold os_makedirs. cbn [w_files w_dirs w_log].
  rewrite bool_decide_eq_true_2; [done|]. left. set_solver.
Qed.

(** X11, witness. *)
Lemma tune_refuses_second_run_witness :
  ∃ call w',
    tune (Frames.protocol true [Frames.file_a; Frames.file_b])
      Frames.train_dir Frames.tune_dir "development" 4 Frames.trained
    = (Ok call, w') ∧
    (tune (Frames.protocol true [Frames.file_a; Frames.file_b])
       Frames.train_dir Frames.tune_dir "development" 4 w').1
    = Raise (OSError Frames.tune_dir).
Proof.
  assert (is_Ok (tune (Frames.protocol true [Frames.file_a; Frames.file_b])
                   Frames.train_dir Frames.tune_dir "development" 4
                   Frames.trained).1 = true) as Hok
    by (vm_compute; reflexivity).
  destruct (tune _ _ _ _ _ Frames.trained) as [[call| |] w'] eqn:Hrun;
    [|discriminate Hok..].
  exists call, w'. split; [reflexivity|].
  destruct (tune_refuses_second_run _ _ _ _ _ _ _ _ Hrun)
    as (_ & _ & _ & Hagain).
  by rewrite Hagain.
Defined.

(** X12. The optimizer starts at the last checkpoint: the initial point
    is the epoch before the first one without weights, at thresholds
    0.5, and the callback records that number of epochs. When the
    weights of epoch 0 exist, the weights of the initial epoch exist;
    when they do not, the initial epoch is -1 and the range of epochs,
    from 0 to -1, is empty. *)
Theorem tune_starts_at_last_checkpoint `{Framework} (protocol : Protocol)
    (train_dir tune_dir subset : string) (fuel : nat) (w w' : world)
    (call : gp_minimize_call) :
  tune protocol train_dir tune_dir subset fuel w = (Ok call, w') →
  ∃ nb_epoch : nat,
    gp_x0 call = (Z.of_nat nb_epoch - 1, Q2Qc (1 # 2), Q2Qc (1 # 2))%Z ∧
    gp_callback call = callback tune_dir nb_epoch ∧
    (WEIGHTS_H5 train_dir nb_epoch ∉ dom (w_files w)) ∧
    (WEIGHTS_H5 train_dir 0 ∈ dom (w_files w) →
     0 < nb_epoch ∧ WEIGHTS_H5 train_dir (nb_epoch - 1) ∈ dom (w_files w)) ∧
    (WEIGHTS_H5 train_dir 0 ∉ dom (w_files w) →
     gp_x0 call = ((-1)%Z, Q2Qc (1 # 2), Q2Qc (1 # 2)) ∧
     gp_dimensions call =
       [Integer 0 (-1); Real 0 1 "uniform"; Real 0 1 "uniform"]).
Proof.
  intros Hrun.
  apply tune_Ok_inv in Hrun
    as (nb_epoch & name & fe & duration & step & _ & _ & _ & Hscan & _ & ->).
  apply scan_epochs_Some in Hscan as (_ & Hgap & Hbelow).
  apply bool_decide_eq_false in Hgap.
  exists nb_epoch. cbn [gp_x0 gp_callback gp_dimensions].
  split; [done|]. split; [done|]. split; [done|]. split.
  - intros Hfirst.
    assert (0 < nb_epoch) as Hpos.
    { destruct nb_epoch; [done|lia]. }
    split; [done|].
    eapply bool_decide_eq_true, (Hbelow (nb_epoch - 1)). lia.
  - intros Hnone.
    assert (nb_epoch = 0) as ->; [|done].
    destruct nb_epoch as [|n]; [done|]. exfalso. apply Hnone.
    eapply bool_decide_eq_true, (Hbelow 0). lia.
Qed.

(** X12, witness: three checkpoints, hence a start at epoch 2. *)
Lemma tune_starts_at_last_checkpoint_witness :
  ∃ call w',
    tune (Frames.protocol true [Frames.file_a; Frames.file_b])
      Frames.train_dir Frames.tune_dir "development" 4 Frames.trained
    = (Ok call, w') ∧
    gp_x0 call = (2%Z, Q2Qc (1 # 2), Q2Qc (1 # 2)).
Proof.
  assert (is_Ok (tune (Frames.protocol true [Frames.file_a; Frames.file_b])
                   Frames.train_dir Frames.tune_dir "development" 4
                   Frames.trained).1 = true) as Hok
    by (vm_compute; reflexivity).
  destruct (tune _ _ _ _ _ Frames.trained) as [[call| |] w'] eqn:Hrun;
    [|discriminate Hok..].
  exists call, w'. split; [reflexivity|].
  destruct (tune_starts_at_last_checkpoint _ _ _ _ _ _ _ _ Hrun)
    as (nb_epoch & Hx0 & _ & Hgap & Hlast & _).
  rewrite Hx0.
  assert (WEIGHTS_H5 Frames.train_dir 0 ∈ dom (w_files Frames.trained))
    as Hfirst
    by (unfold Frames.trained; cbn [w_files]; rewrite !dom_insert; set_solver).
  destruct (Hlast Hfirst) as [Hpos Hthere].
  assert (nb_epoch = 3) as ->; [|reflexivity].
  assert (∀ e, 3 ≤ e → WEIGHTS_H5 Frames.train_dir e
                         ∉ dom (w_files Frames.trained)) as Hmissing.
  { intros e He. unfold Frames.trained. cbn [w_files].
    rewrite !dom_insert, dom_empty. intros Hin.
    repeat (apply elem_of_union in Hin as [Hin|Hin]);
      try (apply elem_of_singleton in Hin);
      try (by apply elem_of_empty in Hin).
    - vm_compute in Hin. discriminate Hin.
    - apply (inj (WEIGHTS_H5 _)) in Hin. lia.
    - apply (inj (WEIGHTS_H5 _)) in Hin. lia.
    - apply (inj (WEIGHTS_H5 _)) in Hin. lia. }
  assert (∀ e, e < 3 → WEIGHTS_H5 Frames.train_dir e
                        ∈ dom (w_files Frames.trained)) as Hthere3.
  { intros e He. unfold Frames.trained. cbn [w_files]. rewrite !dom_insert.
    destruct e as [|[|[|e]]]; [set_solver..|lia]. }
  destruct (decide (nb_epoch < 3)) as [Hlt|Hge].
  - by destruct (Hgap (Hthere3 _ Hlt)).
  - destruct (decide (nb_epoch = 3)) as [->|Hne]; [done|].
    destruct (Hmissing (nb_epoch - 1) ltac:(lia) Hthere).
Defined.

(** ** Tune mode: the objective *)

Section objective_value.
Context `{Framework}.
Context (epoch : nat) (onset offset : Qc).
Context (aggregation : SequenceLabelingAggregation).

Local Abbreviation DER := (DetectionErrorRate default_collar).
Local Abbreviation remember_prediction :=
  (λ (predictions : gmap string soft) (file : item),
     <[get_unique_identifier file := aggregation_apply aggregation file]>
       predictions).
Local Abbreviation file_step := (objective_file epoch onset offset aggregation).

Lemma remembered_elsewhere (files : list item) :
  ∀ (by_uri : gmap string soft) (uri : string),
    uri ∉ get_unique_identifier <$> files →
    foldl remember_prediction by_uri files !! uri = by_uri !! uri.
Proof.
  induction files as [|file files IH]; intros by_uri uri Hnot; [done|].
  rewrite fmap_cons, not_elem_of_cons in Hnot. destruct Hnot as [Hne Hnot].
  simpl. rewrite IH by done. by rewrite lookup_insert_ne.
Qed.

Lemma remembered (files : list item) :
  ∀ (by_uri : gmap string soft) (file : item),
    NoDup (get_unique_identifier <$> files) →
    file ∈ files →
    foldl remember_prediction by_uri files !! get_unique_identifier file
    = Some (aggregation_apply aggregation file).
Proof.
  induction files as [|first files IH]; intros by_uri file Hnodup Hin;
    [by apply elem_of_nil in Hin|].
  rewrite fmap_cons, NoDup_cons in Hnodup. destruct Hnodup as [Hfirst Hnodup].
  simpl. apply elem_of_cons in Hin as [->|Hin].
  - rewrite remembered_elsewhere by done. apply lookup_insert_eq.
  - by apply IH.
Qed.

(** The loop of the objective on files that are not in the cache. *)
Lemma objective_loop_fresh (files : list item) :
  ∀ (by_uri : gmap string soft) (predictions : gmap nat (gmap string soft))
    (error : components DER) (w : world),
    predictions !! epoch = Some by_uri →
    NoDup (get_unique_identifier <$> files) →
    (∀ file, file ∈ files → by_uri !! get_unique_identifier file = None) →
    Forall (λ file, is_Some (item_annotation file)) files →
    for_each files file_step (predictions, error) w =
    (Ok (<[epoch := foldl remember_prediction by_uri files]> predictions,
         foldl (add_components DER) error
           (omap (dev_components default_collar aggregation onset offset)
              files)), w).
Proof.
  induction files as [|file files IH];
    intros by_uri predictions error w Hepoch Hnodup Hfresh Hannotated.
  { simpl. by rewrite insert_id. }
  rewrite fmap_cons, NoDup_cons in Hnodup. destruct Hnodup as [Hfirst Hnodup].
  apply Forall_cons in Hannotated as [[r Hr] Hannotated].
  cbn [for_each]. rewrite bind_run. unfold objective_file at 1.
  unfold subscript_annotation. rewrite Hr, bind_run, mret_run, Hepoch.
  rewrite bind_run, mret_run.
  rewrite (Hfresh file) by (apply elem_of_cons; by left).
  unfold metric_call. rewrite mret_run.
  rewrite (IH (remember_prediction by_uri file)).
  - rewrite insert_insert_eq. cbn [omap list_omap foldl].
    unfold dev_components at 2. rewrite Hr. reflexivity.
  - apply lookup_insert_eq.
  - done.
  - intros file' Hin. rewrite lookup_insert_ne.
    + apply Hfresh. apply elem_of_cons. by right.
    + intros Heq. apply Hfirst. rewrite Heq. by apply list_elem_of_fmap_2.
  - done.
Qed.

(** The loop of the objective up to a file without reference. *)
Lemma objective_loop_annotated (files : list item) :
  ∀ (predictions : gmap nat (gmap string soft)) (error : components DER)
    (w : world),
    is_Some (predictions !! epoch) →
    Forall (λ file, is_Some (item_annotation file)) files →
    ∃ predictions' error',
      for_each files file_step (predictions, error) w
      = (Ok (predictions', error'), w) ∧
      is_Some (predictions' !! epoch).
Proof.
  induction files as [|file files IH];
    intros predictions error w [by_uri Hepoch] Hannotated.
  { exists predictions, error. split; [done|by eexists]. }
  apply Forall_cons in Hannotated as [[r Hr] Hannotated].
  cbn [for_each]. rewrite bind_run. unfold objective_file at 1.
  unfold subscript_annotation. rewrite Hr, bind_run, mret_run, Hepoch.
  rewrite bind_run, mret_run.
  destruct (by_uri !! get_unique_identifier file) as [p|];
    unfold metric_call; rewrite mret_run; apply IH; try done.
  rewrite lookup_insert_eq. by eexists.
Qed.

End objective_value.

(** X13. On an epoch that is not in the cache yet, with development
    files of distinct identifiers that all have a reference, the
    objective is the absolute value of the detection error rate
    accumulated over all the files of the subset, each binarized at the
    thresholds tried, and the cache then holds the prediction of every
    file for this epoch, with the other epochs as they were. *)
Theorem objective_function_fresh_epoch `{Framework} (protocol : Protocol)
    (train_dir subset architecture_yml : string) (fe : feature_extraction)
    (duration step : yaml) (epoch : nat) (onset offset : Qc)
    (predictions : gmap nat (gmap string soft)) (files : list item)
    (network : sequence_labeling) (w : world) :
  let aggregation :=
    {| agg_sequence_labeling := network; agg_feature_extraction := fe;
       agg_duration := duration; agg_step := step;
       cache_preprocessed_ := None |} in
  subset_files protocol subset = Some files →
  from_disk architecture_yml (WEIGHTS_H5 train_dir epoch) = Ok network →
  predictions !! epoch = None →
  NoDup (get_unique_identifier <$> files) →
  Forall (λ file, is_Some (item_annotation file)) files →
  ∃ predictions',
    (objective_function protocol train_dir subset architecture_yml fe duration
       step (epoch, onset, offset) predictions w).1
    = Ok (Qcabs (compute_metric (DetectionErrorRate default_collar)
                   (foldl (add_components (DetectionErrorRate default_collar))
                      (init_components (DetectionErrorRate default_collar))
                      (omap (dev_components default_collar aggregation
                               onset offset) files))),
          predictions') ∧
    (∀ file, file ∈ files →
             cached predictions' epoch (get_unique_identifier file)
             = Some (aggregation_apply aggregation file)) ∧
    (∀ other, other ≠ epoch → predictions' !! other = predictions !! other).
Proof.
  intros aggregation Hfiles Hdisk Hfresh Hnodup Hannotated.
  eexists. split; [|split].
  - unfold objective_function, getattr_subset.
    rewrite bind_run, SequenceLabeling_from_disk_run, Hdisk, Hfresh, Hfiles.
    rewrite bind_run, mret_run, bind_run.
    fold aggregation.
    rewrite (objective_loop_fresh epoch onset offset aggregation files ∅)
      by (done || apply lookup_insert_eq).
    rewrite mret_run. reflexivity.
  - intros file Hin. unfold cached. rewrite lookup_insert_eq. simpl.
    by apply remembered.
  - intros other Hother. rewrite insert_insert_eq.
    by rewrite lookup_insert_ne.
Qed.

(** X13, witness: files [a] and [b] at epoch 2 with an empty cache; the
    errors of [b] count, although [a] is detected perfectly. *)
Lemma objective_function_fresh_epoch_witness :
  ∃ predictions',
    (objective_function (Frames.protocol true [Frames.file_a; Frames.file_b])
       Frames.train_dir "development"
       (Frames.train_dir +:+ "/architecture.yml") "YaafeMFCC"
       (YFloat (Frames.q 32 10)) (YFloat (Frames.q 8 10))
       (2, Frames.q 1 2, Frames.q 1 2) ∅ Frames.trained).1
    = Ok (Frames.q 3 2, predictions') ∧
    cached predictions' 2 "b" = Some (Frames.scores Frames.file_b).
Proof.
  destruct (@objective_function_fresh_epoch _ Frames.framework
              (Frames.protocol true [Frames.file_a; Frames.file_b])
              Frames.train_dir "development"
              (Frames.train_dir +:+ "/architecture.yml") "YaafeMFCC"
              (YFloat (Frames.q 32 10)) (YFloat (Frames.q 8 10))
              2 (Frames.q 1 2) (Frames.q 1 2) ∅
              [Frames.file_a; Frames.file_b]
              (WEIGHTS_H5 Frames.train_dir 2) Frames.trained
              eq_refl eq_refl (lookup_empty _))
    as (predictions' & Hrun & Hcached & _).
  { cbn. apply NoDup_cons. split; [|apply NoDup_singleton].
    intros Heq%list_elem_of_singleton. discriminate Heq. }
  { by repeat constructor. }
  exists predictions'. split.
  - rewrite Hrun. do 2 f_equal. apply Qc_is_canon. reflexivity.
  - apply (Hcached Frames.file_b). apply elem_of_cons. right.
    by apply list_elem_of_singleton.
Defined.

(** X14. A development file without reference stops the objective with
    [KeyError]: tune mode does not skip such a file as apply mode
    does. *)
Theorem objective_function_needs_reference `{Framework} (protocol : Protocol)
    (train_dir subset architecture_yml : string) (fe : feature_extraction)
    (duration step : yaml) (parameters : nat * Qc * Qc)
    (predictions : gmap nat (gmap string soft))
    (before after : list item) (file : item)
    (network : sequence_labeling) (w : world) :
  subset_files protocol subset = Some (before ++ file :: after) →
  from_disk architecture_yml (WEIGHTS_H5 train_dir parameters.1.1)
  = Ok network →
  Forall (λ file, is_Some (item_annotation file)) before →
  item_annotation file = None →
  (objective_function protocol train_dir subset architecture_yml fe duration
     step parameters predictions w).1
  = Raise (KeyError "annotation").
Proof.
  destruct parameters as [[epoch onset] offset].
  intros Hfiles Hdisk Hbefore Hfile. cbn [fst] in Hdisk.
  unfold objective_function, getattr_subset.
  rewrite bind_run, SequenceLabeling_from_disk_run, Hdisk, Hfiles.
  rewrite bind_run, mret_run, bind_run, for_each_app, bind_run.
  match goal with
  | |- context [for_each before (objective_file _ _ _ ?a) (?p, ?e) ?w0] =>
      destruct (objective_loop_annotated epoch onset offset a before p e w0)
        as (predictions' & error' & -> & [by_uri Hepoch])
  end.
  { destruct (predictions !! epoch) eqn:Hepoch; [by rewrite Hepoch|].
    rewrite lookup_insert_eq. by eexists. }
  { done. }
  cbn [for_each]. rewrite bind_run. unfold objective_file at 1.
  unfold subscript_annotation. by rewrite Hfile.
Qed.

(** X14, witness: file [c] has no reference. *)
Lemma objective_function_needs_reference_witness :
  (objective_function
     (Frames.protocol true [Frames.file_a; Frames.file_c; Frames.file_b])
     Frames.train_dir "development"
     (Frames.train_dir +:+ "/architecture.yml") "YaafeMFCC"
     (YFloat (Frames.q 32 10)) (YFloat (Frames.q 8 10))
     (2, Frames.q 1 2, Frames.q 1 2) ∅ Frames.trained).1
  = Raise (KeyError "annotation").
Proof.
  apply (@objective_function_needs_reference _ Frames.framework
           (Frames.protocol true [Frames.file_a; Frames.file_c; Frames.file_b])
           Frames.train_dir "development"
           (Frames.train_dir +:+ "/architecture.yml") "YaafeMFCC"
           (YFloat (Frames.q 32 10)) (YFloat (Frames.q 8 10))
           (2, Frames.q 1 2, Frames.q 1 2) ∅
           [Frames.file_a] [Frames.file_b] Frames.file_c
           (WEIGHTS_H5 Frames.train_dir 2) Frames.trained eq_refl eq_refl).
  - by repeat constructor.
  - reflexivity.
Defined.

(** ** From tune mode to apply mode *)

(** X15. What apply mode reads from [tune.yml] is what the callback of
    the tuner wrote last: after a call of the callback, also one that
    fails at a plot, the file is loaded without error and its keys
    [onset] and [offset] give the thresholds of the best point so far,
    [epoch] its epoch, and [status] the number of epochs found. *)
Theorem tune_yml_round_trip `{Framework} (tune_dir : string) (nb_epoch : nat)
    (res : OptimizeResult) (w : world) :
  let after := (callback tune_dir nb_epoch res w).2 in
  (tune ← load_yaml (tune_yml tune_dir);
   onset ← subscript tune "onset";
   onset ← as_float onset;
   offset ← subscript tune "offset";
   offset ← as_float offset;
   epoch ← subscript tune "epoch";
   status ← subscript tune "status";
   nb_epoch ← subscript status "nb_epoch";
   mret (epoch, onset, offset, nb_epoch)) after
  = (Ok (YInt (x res).1.1, (x res).1.2, (x res).2, YInt (Z.of_nat nb_epoch)),
     after).
Proof.
  cbv zeta.
  assert (file_content (callback tune_dir nb_epoch res w).2 (tune_yml tune_dir)
          = [DYaml (tune_params nb_epoch (x res))]) as Hcontent.
  { unfold callback. apply write_then_untouched.
    apply preserves_bind; [apply _..|eauto with preserves|intros fig].
    apply preserves_bind; [apply _..|eauto with preserves|intros _].
    apply callback_tail_untouched; solve_path_ne. }
  set (after := (callback tune_dir nb_epoch res w).2) in *.
  unfold file_content in Hcontent.
  destruct (w_files after !! tune_yml tune_dir) as [content|] eqn:Hlookup;
    [|discriminate Hcontent].
  simpl in Hcontent. subst content.
  rewrite bind_run. unfold load_yaml at 1. rewrite Hlookup.
  destruct (x res) as [[epoch onset] offset]. cbn [fst snd tune_params].
  rewrite bind_run. unfold subscript at 1.
  rewrite lookup_insert_ne, lookup_insert_ne, lookup_insert_eq by done.
  rewrite mret_run, bind_run. cbn [as_float]. rewrite mret_run, bind_run.
  unfold subscript at 1.
  rewrite !lookup_insert_ne, lookup_insert_eq by done.
  rewrite mret_run, bind_run. cbn [as_float]. rewrite mret_run, bind_run.
  unfold subscript at 1.
  rewrite lookup_insert_ne, lookup_insert_eq by done.
  rewrite mret_run, bind_run.
  unfold subscript at 1. rewrite lookup_insert_eq.
  rewrite mret_run, bind_run. unfold subscript.
  rewrite lookup_singleton_eq. reflexivity.
Qed.

Section apply_outputs.
Context `{Framework}.
Context (aggregation : SequenceLabelingAggregation).
Context (onset offset beta : Qc) (apply_dir : string).

Lemma omap_none {A B} (f : A → option B) (l : list A) :
  Forall (λ a, f a = None) l → omap f l = [].
Proof.
  induction 1 as [|a l Ha _ IH]; [done|]. simpl. by rewrite Ha.
Qed.

Lemma unscored_components (m : Metric) (file : item) :
  scored file = None →
  file_components m aggregation onset offset file = None.
Proof. intros Hscored. unfold file_components. by rewrite Hscored. Qed.

End apply_outputs.

(** X16. Without a file that has both a reference and an annotated
    region (so also on an empty subset) the scoring of apply mode
    succeeds and adds to [eval.txt] the line [ALL] only, with the metrics
    of no file at all and the mean of an empty list, [nan], as
    F-measure. *)
Theorem test_scoring_without_reference `{Framework}
    (aggregation : SequenceLabelingAggregation) (onset offset beta : Qc)
    (protocol : Protocol) (apply_dir subset : string) (files : list item)
    (w : world) :
  subset_files protocol subset = Some files →
  Forall (λ file, item_annotation file = None ∨ item_annotated file = None)
    files →
  let run :=
    test_scoring aggregation onset offset protocol apply_dir subset beta w in
  run.1 = Ok tt ∧
  file_content run.2 (eval_txt apply_dir) =
  file_content w (eval_txt apply_dir)
  ++ [DEval "ALL"
        (compute_metric DetectionPrecision (init_components DetectionPrecision))
        (compute_metric DetectionRecall (init_components DetectionRecall))
        NaN].
Proof.
  intros Hfiles Hnone. cbv zeta.
  destruct (test_scoring_run aggregation onset offset beta apply_dir protocol
              subset files w Hfiles) as (w' & -> & Hcontent).
  split; [done|]. cbn [snd]. rewrite Hcontent. f_equal.
  assert (Forall (λ file, scored file = None) files) as Hscored.
  { eapply Forall_impl; [exact Hnone|]. intros file. apply scored_None. }
  rewrite (omap_none (eval_line aggregation onset offset beta)).
  2:{ eapply Forall_impl; [exact Hscored|]. intros file.
      apply eval_line_unscored. }
  unfold micro_average, mean_f_measure.
  rewrite !(omap_none (file_components _ aggregation onset offset)).
  2,3: eapply Forall_impl; [exact Hscored|];
       intros file; apply unscored_components.
  rewrite (omap_none (file_f_measure aggregation onset offset beta)).
  2:{ eapply Forall_impl; [exact Hscored|]. intros file Hfile.
      unfold file_f_measure, file_metric.
      by rewrite !unscored_components. }
  reflexivity.
Qed.

(** X16, witness: a subset whose only file has no reference. *)
Lemma test_scoring_without_reference_witness :
  let run :=
    test_scoring Frames.aggregation (Frames.q 1 2) (Frames.q 1 2)
      (Frames.protocol true [Frames.file_c]) Frames.apply_dir "test" 1%Qc
      Frames.tuned in
  run.1 = Ok tt ∧
  file_content run.2 (eval_txt Frames.apply_dir) = [DEval "ALL" 1%Qc 1%Qc NaN].
Proof.
  cbv zeta.
  destruct (@test_scoring_without_reference _ Frames.framework
              Frames.aggregation (Frames.q 1 2) (Frames.q 1 2) 1%Qc
              (Frames.protocol true [Frames.file_c]) Frames.apply_dir "test"
              [Frames.file_c] Frames.tuned eq_refl)
    as [Hok Hcontent].
  { repeat constructor. }
  split; [exact Hok|]. rewrite Hcontent.
  assert (file_content Frames.tuned (eval_txt Frames.apply_dir) = []) as ->
    by (vm_compute; reflexivity).
  cbn [app]. try reflexivity; repeat f_equal; apply Qc_is_canon; reflexivity.
Defined.

(** ** Apply mode and the command line *)

Section apply_again.
Context `{Framework}.

(** The world after [test]: as before, or with the apply directory. *)
Lemma test_world (protocol : Protocol) (tune_dir apply_dir subset : string)
    (beta : Qc) (w : world) :
  let after := (test protocol tune_dir apply_dir subset beta w).2 in
  ((apply_dir ∈ w_dirs w ∨ is_Some (w_files w !! apply_dir)) ∧ after = w) ∨
  after = {| w_files := w_files w; w_dirs := {[apply_dir]} ∪ w_dirs w;
             w_log := w_log w |}.
Proof.
  cbv zeta. unfold test. rewrite bind_run. unfold os_makedirs.
  case_bool_decide as Hexists; [left; by split|right].
  rewrite bind_run.
  match goal with
  | |- context [load_configuration ?dir ?w0] =>
      pose proof (@preserves_load_configuration _ _ eq _ _ dir w0) as Hsame;
      destruct (load_configuration dir w0)
        as [[[[[name fe] duration] step]| |] w1]; simpl in Hsame; subst w1;
        [|done..]
  end.
  rewrite bind_run.
  match goal with
  | |- context [load_yaml ?path ?w0] =>
      pose proof (@preserves_load_yaml _ eq _ path w0) as Hsame;
      destruct (load_yaml path w0) as [[tune| |] w1]; simpl in Hsame;
        subst w1; [|done..]
  end.
  by rewrite bind_run, load_global_epoch.
Qed.

Lemma test_in_existing_directory (protocol : Protocol)
    (tune_dir apply_dir subset : string) (beta : Qc) (w : world) :
  apply_dir ∈ w_dirs w ∨ is_Some (w_files w !! apply_dir) →
  test protocol tune_dir apply_dir subset beta w = (Raise (OSError apply_dir), w).
Proof.
  intros Hexists. unfold test. rewrite bind_run. unfold os_makedirs.
  by rewrite bool_decide_eq_true_2.
Qed.

(** [validate] does not return. *)
Lemma validate_not_Ok (env : Environment) (protocol : Protocol)
    (train_dir validation_dir subset : string) (fuel : nat) (w w' : world) :
  validate env protocol train_dir validation_dir subset fuel w ≠ (Ok tt, w').
Proof.
  rewrite validate_unfold.
  destruct ((mkdir_p validation_dir;; load_configuration train_dir) w)
    as [[[[[name fe] duration] step]| |] w1]; [|done..].
  pose proof (loop_prefix_no_break _
                (validate_iteration_no_break env protocol train_dir
                   validation_dir subset name fe duration step)
                fuel validate_start
                (open_w (der_txt validation_dir subset) w1).2) as Hnb.
  destruct (loop_prefix _ _ _ _) as [[[l|l]| |] w2]; [done| |done..].
  by destruct (Hnb l w2).
Qed.

End apply_again.

(** X17. Apply mode does not run twice into the same directory, and a
    failed run counts: whatever [test] is given, it writes no file, and
    when it is over the apply directory exists, so that any further run
    into this directory fails at [os.makedirs] with [OSError]. *)
Theorem test_refuses_second_run `{Framework} (protocol : Protocol)
    (tune_dir apply_dir subset : string) (beta : Qc) (w : world) :
  let after := (test protocol tune_dir apply_dir subset beta w).2 in
  w_files after = w_files w ∧
  ∀ protocol' tune_dir' subset' beta',
    test protocol' tune_dir' apply_dir subset' beta' after
    = (Raise (OSError apply_dir), after).
Proof.
  cbv zeta.
  destruct (test_world protocol tune_dir apply_dir subset beta w)
    as [[Hexists ->]| ->].
  - split; [done|]. intros. by apply test_in_existing_directory.
  - split; [done|]. intros. apply test_in_existing_directory.
    left. cbn [w_dirs]. set_solver.
Qed.

(** X18. The script completes in tune mode only: when the [__main__]
    block ends without an exception, neither train mode (the format of
    [TRAIN_DIR] raises), nor validation mode (its loop has no exit), nor
    apply mode (the name [epoch] is not bound) was asked for. *)
Theorem main_completes_in_tune_mode_only `{Framework}
    (get_protocol : string → string → M Protocol)
    (train : Protocol → string → string → string → M unit)
    (float : string → M Qc) (env : Environment) (fuel : nat)
    (arguments : Arguments) (w : world) :
  (main get_protocol train float env fuel arguments w).1 = Ok tt →
  arg_train arguments = false ∧ arg_validation arguments = false ∧
  arg_apply arguments = false.
Proof.
  destruct (main _ _ _ _ _ _ w) as [result w'] eqn:Hrun. cbn [fst].
  intros ->. unfold main in Hrun.
  apply bind_Ok_inv in Hrun as (protocol & w1 & _ & Hrun).
  apply bind_Ok_inv in Hrun as (subset1 & w2 & Htrain & Hrun).
  apply bind_Ok_inv in Hrun as (subset2 & w3 & Hvalidation & Hrun).
  apply bind_Ok_inv in Hrun as (subset3 & w4 & _ & Hrun).
  split; [|split].
  - destruct (arg_train arguments); [|done].
    rewrite str_format_TRAIN_DIR in Htrain. discriminate Htrain.
  - destruct (arg_validation arguments); [|done].
    apply bind_Ok_inv in Hvalidation as ([] & w2' & Hvalidate & _).
    by apply validate_not_Ok in Hvalidate.
  - destruct (arg_apply arguments); [|done].
    apply bind_Ok_inv in Hrun as (beta & w5 & _ & Htest).
    destruct (test_loads_no_weights protocol (arg_tune_dir arguments)
                (main_apply_dir (arg_tune_dir arguments)
                   (arg_protocol arguments) (default "test" subset3))
                (default "test" subset3) beta w5) as [Hnever _].
    rewrite Htest in Hnever. by destruct (Hnever tt).
Qed.

(** X18, witness: tune mode on the trained experiment. *)
Lemma main_completes_in_tune_mode_only_witness :
  let arguments :=
    {| arg_train := false; arg_validation := false; arg_tune := true;
       arg_apply := false; arg_database := "db.yml"; arg_subset := None;
       arg_recall := "1.0"; arg_experiment_dir := "";
       arg_train_dir := Frames.train_dir; arg_tune_dir := "";
       arg_protocol := "Etape.SpeakerDiarization.TV" |} in
  let get_protocol (_ _ : string) : M Protocol :=
    mret (Frames.protocol true [Frames.file_a; Frames.file_b]) in
  let train (_ : Protocol) (_ _ _ : string) : M unit := mret tt in
  (main get_protocol train (λ _, mret 1%Qc) Frames.all_there 4 arguments
     Frames.trained).1 = Ok tt ∧
  arg_train arguments = false ∧ arg_validation arguments = false ∧
  arg_apply arguments = false.
Proof.
  cbv zeta.
  match goal with
  | |- ?ok ∧ _ => assert ok as Hok by (vm_compute; reflexivity)
  end.
  split; [exact Hok|].
  exact (main_completes_in_tune_mode_only _ _ _ _ _ _ _ Hok).
Defined.

(** ** Apply mode: the outputs of each file *)

Section output_paths.

Lemma rev_app_inj (c a b : string) :
  String.rev_app c a = String.rev_app c b → a = b.
Proof.
  revert a b. induction c as [|x c IH]; intros a b Heq; [done|].
  simpl in Heq. apply IH in Heq. by injection Heq.
Qed.

Lemma string_app_inj_r (a b c : string) : a +:+ c = b +:+ c → a = b.
Proof.
  intros Heq. apply (f_equal String.rev) in Heq. unfold String.rev in Heq.
  rewrite !rev_app_app in Heq. apply rev_app_inj in Heq.
  rewrite <- (string_rev_involutive a), <- (string_rev_involutive b).
  unfold String.rev at 2 4. by rewrite Heq.
Qed.

End output_paths.

(** Two paths that end differently are different. *)
Ltac by_last_character :=
  let Heq := fresh "Heq" in
  unfold SOFT_PKL, HARD_JSON, eval_txt; intros Heq;
  apply (f_equal String.rev) in Heq; unfold String.rev in Heq;
  rewrite !rev_app_app in Heq; cbn [String.rev_app] in Heq;
  discriminate Heq.

Section output_files.
Context `{Framework}.
Context (aggregation : SequenceLabelingAggregation).
Context (onset offset beta : Qc) (apply_dir : string).

Local Abbreviation score := (score_file aggregation onset offset apply_dir beta).

Lemma SOFT_PKL_inj (uri uri' : string) :
  SOFT_PKL apply_dir uri = SOFT_PKL apply_dir uri' → uri = uri'.
Proof.
  unfold SOFT_PKL. intros Heq. do 2 apply (inj (String.app _)) in Heq.
  by apply string_app_inj_r in Heq.
Qed.

Lemma HARD_JSON_inj (uri uri' : string) :
  HARD_JSON apply_dir uri = HARD_JSON apply_dir uri' → uri = uri'.
Proof.
  unfold HARD_JSON. intros Heq. do 2 apply (inj (String.app _)) in Heq.
  by apply string_app_inj_r in Heq.
Qed.

Lemma SOFT_PKL_ne_HARD_JSON (uri uri' : string) :
  SOFT_PKL apply_dir uri ≠ HARD_JSON apply_dir uri'.
Proof. by_last_character. Qed.

Lemma SOFT_PKL_ne_eval_txt (uri : string) :
  SOFT_PKL apply_dir uri ≠ eval_txt apply_dir.
Proof. by_last_character. Qed.

Lemma HARD_JSON_ne_eval_txt (uri : string) :
  HARD_JSON apply_dir uri ≠ eval_txt apply_dir.
Proof. by_last_character. Qed.

Lemma bind_untouched {A B} (m : M A) (k : A → M B) (path : string) (w : world) :
  (∀ a, preserves (untouched path) (k a)) →
  file_content ((m ≫= k) w).2 path = file_content (m w).2 path.
Proof.
  intros Hk. rewrite bind_run. destruct (m w) as [[a| |] w']; [|done..].
  apply untouched_content, Hk.
Qed.

(** The scoring of a file, past its two outputs, writes [eval.txt]
    only. *)
Lemma score_tail_untouched (path uri : string) (file : item)
    (hard : hard) (s : scoring_locals) :
  path ≠ eval_txt apply_dir →
  preserves (untouched path)
    (annotations ←
       except_KeyError
         (reference ← subscript_annotation file;
          uem ← subscript_annotated file;
          mret (Some (reference, uem)))
         (mret None);
     match annotations with
     | None => mret s
     | Some (reference, uem) =>
         let '(p, precision) :=
           metric_call DetectionPrecision (s_precision s) reference hard uem in
         let '(r, recall) :=
           metric_call DetectionRecall (s_recall s) reference hard uem in
         let f := f_measure p r beta in
         let fscore := s_fscore s ++ [f] in
         append_file (eval_txt apply_dir) (DEval uri p r (Float f));;
         mret {| s_precision := precision; s_recall := recall;
                 s_fscore := fscore |}
     end).
Proof.
  intros Heval.
  apply preserves_bind; [apply _..|preserves_auto|intros [[r uem]|]];
    [|preserves_auto].
  unfold metric_call. cbn beta iota zeta.
  apply preserves_bind; [apply _..| |intros _; preserves_auto].
  apply preserves_untouched_fp_write. by apply not_eq_sym.
Qed.

Lemma score_file_untouched (path : string) (file : item) (s : scoring_locals) :
  path ≠ SOFT_PKL apply_dir (get_unique_identifier file) →
  path ≠ HARD_JSON apply_dir (get_unique_identifier file) →
  path ≠ eval_txt apply_dir →
  preserves (untouched path) (score file s).
Proof.
  intros Hsoft Hhard Heval. unfold score_file.
  apply preserves_bind; [apply _..|eauto with preserves|intros _].
  apply preserves_bind; [apply _..| |intros _].
  { apply preserves_untouched_write_file. by apply not_eq_sym. }
  apply preserves_bind; [apply _..|eauto with preserves|intros _].
  apply preserves_bind; [apply _..| |intros _].
  { apply preserves_untouched_write_file. by apply not_eq_sym. }
  by apply score_tail_untouched.
Qed.

Lemma score_files_untouched (path : string) (files : list item) :
  (∀ file, file ∈ files →
           path ≠ SOFT_PKL apply_dir (get_unique_identifier file) ∧
           path ≠ HARD_JSON apply_dir (get_unique_identifier file)) →
  path ≠ eval_txt apply_dir →
  ∀ s, preserves (untouched path) (for_each files score s).
Proof.
  intros Hfiles Heval. induction files as [|file files IH]; intros s.
  { simpl. eauto with preserves. }
  simpl. apply preserves_bind; [apply _..| |intros s'].
  - destruct (Hfiles file) as [Hsoft Hhard]; [apply elem_of_cons; by left|].
    by apply score_file_untouched.
  - apply IH. intros file' Hin. apply Hfiles, elem_of_cons. by right.
Qed.

(** The two outputs of a file once it is scored. *)
Lemma score_file_outputs (file : item) (s : scoring_locals) (w : world) :
  let soft := aggregation_apply aggregation file in
  let after := (score file s w).2 in
  file_content after (SOFT_PKL apply_dir (get_unique_identifier file))
  = [DPickle soft] ∧
  file_content after (HARD_JSON apply_dir (get_unique_identifier file))
  = [DJson (binarize_apply onset offset soft)].
Proof.
  cbv zeta. unfold score_file.
  destruct (mkdir_p_run
              (dirname (SOFT_PKL apply_dir (get_unique_identifier file))) w)
    as (w1 & Hmk1 & _).
  rewrite (bind_snd _ _ _ _ _ Hmk1). split.
  - apply write_then_untouched.
    apply preserves_bind; [apply _..|eauto with preserves|intros _].
    apply preserves_bind; [apply _..| |intros _].
    { apply preserves_untouched_write_file, not_eq_sym,
        SOFT_PKL_ne_HARD_JSON. }
    apply score_tail_untouched, SOFT_PKL_ne_eval_txt.
  - rewrite (bind_snd _ _ _ _ _ (write_file_Ok _ _ _)).
    match goal with
    | |- context [mkdir_p ?dir ≫= _] =>
        match goal with
        | |- context [(_ ≫= _) ?w2] =>
            destruct (mkdir_p_run dir w2) as (w3 & Hmk3 & _)
        end
    end.
    rewrite (bind_snd _ _ _ _ _ Hmk3).
    apply write_then_untouched.
    apply score_tail_untouched, HARD_JSON_ne_eval_txt.
Qed.

End output_files.

(** X19. Apply mode writes the two outputs of every file of the subset,
    with or without a reference: when the identifiers of the files are
    distinct, after the scoring [<uri>.soft.pkl] holds the scores of the
    file and [<uri>.hard.json] their binarization at the tuned
    thresholds. *)
Theorem test_scoring_outputs `{Framework}
    (aggregation : SequenceLabelingAggregation) (onset offset beta : Qc)
    (protocol : Protocol) (apply_dir subset : string) (files : list item)
    (file : item) (w : world) :
  subset_files protocol subset = Some files →
  NoDup (get_unique_identifier <$> files) →
  file ∈ files →
  let soft := aggregation_apply aggregation file in
  let after :=
    (test_scoring aggregation onset offset protocol apply_dir subset beta w).2 in
  file_content after (SOFT_PKL apply_dir (get_unique_identifier file))
  = [DPickle soft] ∧
  file_content after (HARD_JSON apply_dir (get_unique_identifier file))
  = [DJson (binarize_apply onset offset soft)].
Proof.
  intros Hfiles Hnodup Hin. cbv zeta.
  apply list_elem_of_split in Hin as (before & later & ->).
  rewrite fmap_app, fmap_cons in Hnodup.
  apply NoDup_app in Hnodup as (_ & _ & Hnodup).
  apply NoDup_cons in Hnodup as [Hlater _].
  assert (∀ file', file' ∈ later →
            get_unique_identifier file ≠ get_unique_identifier file')
    as Hdistinct.
  { intros file' Hin Heq. apply Hlater. rewrite Heq.
    by apply list_elem_of_fmap_2. }
  unfold test_scoring, getattr_subset. rewrite Hfiles.
  rewrite bind_run, mret_run.
  match goal with
  | |- context [for_each _ _ ?s0 ≫= ?k] =>
      destruct (score_files_run aggregation onset offset beta apply_dir
                  before s0 w) as (w1 & Hbefore & _);
      assert ((for_each (before ++ file :: later)
                   (score_file aggregation onset offset apply_dir beta) s0
                 ≫= k) w
                = ((score_file aggregation onset offset apply_dir beta file
                      (foldl (scoring_step aggregation onset offset beta)
                         s0 before)
                    ≫= λ s, for_each later
                              (score_file aggregation onset offset apply_dir
                                 beta) s ≫= k) w1)) as Hsplit
  end.
  { rewrite bind_run, for_each_app, bind_run, Hbefore.
    cbn [for_each]. rewrite !bind_run.
    destruct (score_file _ _ _ _ _ file _ w1) as [[s'| |] w2]; [|done..].
    rewrite ?bind_run.
    by destruct (for_each later _ s' w2) as [[s''| |] w3]. }
  rewrite Hsplit. clear Hsplit.
  destruct (score_file_outputs aggregation onset offset beta apply_dir file
              (foldl (scoring_step aggregation onset offset beta)
                 {| s_precision := init_components DetectionPrecision;
                    s_recall := init_components DetectionRecall;
                    s_fscore := [] |} before) w1) as [Hsoft Hhard].
  split.
  - rewrite bind_untouched; [exact Hsoft|]. intros s.
    apply preserves_bind; [apply _..| |intros s'].
    + apply score_files_untouched; [|apply SOFT_PKL_ne_eval_txt].
      intros file' Hin'. split.
      * intros Heq%SOFT_PKL_inj. by apply (Hdistinct file').
      * apply SOFT_PKL_ne_HARD_JSON.
    + apply preserves_untouched_fp_write, not_eq_sym, SOFT_PKL_ne_eval_txt.
  - rewrite bind_untouched; [exact Hhard|]. intros s.
    apply preserves_bind; [apply _..| |intros s'].
    + apply score_files_untouched; [|apply HARD_JSON_ne_eval_txt].
      intros file' Hin'. split.
      * apply not_eq_sym, SOFT_PKL_ne_HARD_JSON.
      * intros Heq%HARD_JSON_inj. by apply (Hdistinct file').
    + apply preserves_untouched_fp_write, not_eq_sym, HARD_JSON_ne_eval_txt.
Qed.

(** X19, witness: file [c], which has no reference and no line in
    [eval.txt], has its two outputs. *)
Lemma test_scoring_outputs_witness :
  let after :=
    (test_scoring Frames.aggregation (Frames.q 1 2) (Frames.q 1 2)
       (Frames.protocol true [Frames.file_a; Frames.file_c; Frames.file_b])
       Frames.apply_dir "test" 1%Qc Frames.tuned).2 in
  file_content after (SOFT_PKL Frames.apply_dir "c")
  = [DPickle [Frames.q 9 10; Frames.q 1 10]] ∧
  file_content after (HARD_JSON Frames.apply_dir "c") = [DJson [0]].
Proof.
  cbv zeta.
  apply (@test_scoring_outputs _ Frames.framework Frames.aggregation
           (Frames.q 1 2) (Frames.q 1 2) 1%Qc
           (Frames.protocol true [Frames.file_a; Frames.file_c; Frames.file_b])
           Frames.apply_dir "test"
           [Frames.file_a; Frames.file_c; Frames.file_b] Frames.file_c
           Frames.tuned eq_refl).
  - cbn. apply (bool_decide_unpack _). vm_compute. exact I.
  - apply elem_of_cons. right. apply elem_of_cons. by left.
Defined.
